(** * NearestPlaceFinder: places-discovery pipeline

    A shallow embedding of the service layer of the application
    (placesService: location cascade, geocoding, Overpass aggregation,
    synthetic generators, merge engine) and of the route engine of the
    directions page, together with the properties stated about them.

    JavaScript numbers are IEEE-754 binary64 values; they are modelled by
    the primitive floats of the prover, which are the same format.  The
    transcendental functions of the [Math] object, which the language leaves
    implementation-approximated, are collected in a record. *)

From Stdlib Require Import ZArith List String Ascii Bool Lia.
From Stdlib Require Import Floats Sorted Permutation DecimalString.
Import ListNotations.

Set Warnings "-inexact-float".

(* ================================================================== *)
(** * JavaScript numbers *)
(* ================================================================== *)

Module JsNum.

Open Scope float_scope.

(** [Number.isFinite]: neither an infinity nor NaN. *)
Definition isFinite (x : float) : bool :=
  match Prim2SF x with
  | S754_zero _ | S754_finite _ _ _ => true
  | _ => false
  end.

Definition isNaN (x : float) : bool :=
  match Prim2SF x with
  | S754_nan => true
  | _ => false
  end.

(** [Math.PI], written in hexadecimal so that it is exact. *)
Definition PI : float := 0x1.921fb54442d18p+1.

(** [Math.min] and [Math.max] on two arguments: NaN if either is NaN. *)
Definition min (a b : float) : float :=
  if isNaN a || isNaN b then nan
  else if a <? b then a
  else if b <? a then b
  else match Prim2SF a with S754_zero true => a | _ => b end.

Definition max (a b : float) : float :=
  if isNaN a || isNaN b then nan
  else if a <? b then b
  else if b <? a then a
  else match Prim2SF a with S754_zero false => a | _ => b end.

(** The part of the [Math] object that the language specification leaves
    to the implementation, and the number/string conversions of the
    runtime. *)
Record MathLib := {
  sin : float -> float;
  cos : float -> float;
  atan2 : float -> float -> float;
  floor : float -> float;
  round : float -> float;
  rem : float -> float -> float;          (* the [%] operator *)
  toFixed : float -> nat -> string;
  numToString : float -> string;          (* [String(x)], [`${x}`] *)
  parseFloat : string -> float
}.

(** The value of a number as a natural number, when it is a non-negative
    integer: the index that [arr[x]] reads. *)
Definition toIndex (x : float) : option nat :=
  match Prim2SF x with
  | S754_zero _ => Some 0%nat
  | S754_finite false m e =>
      match e with
      | Z0 => Some (Pos.to_nat m)
      | Z.pos p => Some (Z.to_nat (Z.pos m * 2 ^ Z.pos p))
      | Z.neg p =>
          if (Z.pos m mod 2 ^ Z.pos p =? 0)%Z
          then Some (Z.to_nat (Z.pos m / 2 ^ Z.pos p))
          else None
      end
  | _ => None
  end.

(** The number of iterations of [for (let i = 0; i < bound; i++)]: the
    natural numbers below [bound].  No iteration for a NaN or non-positive
    bound.  (An infinite bound, with which the loop would not end, does not
    arise: the bounds in the code are results of [Math.floor] and
    [Math.min].) *)
Definition loopCount (bound : float) : nat :=
  match Prim2SF bound with
  | S754_finite false m e =>
      match e with
      | Z0 => Pos.to_nat m
      | Z.pos p => Z.to_nat (Z.pos m * 2 ^ Z.pos p)
      | Z.neg p =>
          Z.to_nat ((Z.pos m + 2 ^ Z.pos p - 1) / 2 ^ Z.pos p)
      end
  | _ => 0%nat
  end.

(** A natural number as a number (counters and lengths are small). *)
Definition ofNat (n : nat) : float := of_uint63 (Uint63.of_Z (Z.of_nat n)).

(** Conformance conditions used by the geometric properties.  The first
    and third are fixed by the language specification ([Math.sin(+0)] is
    [+0], [Math.atan2(+0, x)] is [+0] for positive [x]); oddness of the sine
    and the range of the cosine hold of the usual fdlibm-derived
    implementations. *)
Definition sin_odd_on (M : MathLib) : Prop :=
  forall x, sin M (- x) = - sin M x.

Record MathConforms (M : MathLib) : Prop := {
  sin_zero : sin M 0 = 0;
  sin_odd : sin_odd_on M;
  atan2_zero_one : atan2 M 0 1 = 0;
  cos_range : forall x, isFinite x = true -> (abs (cos M x) <=? 1) = true
}.

(** A small [Math] instance for evaluating the model on concrete inputs:
    the first-order approximations [sin x = x], [cos x = 1],
    [atan2 y x = y / x], and identity rounding. *)
Definition smallAngleMath : MathLib := {|
  sin := fun x => x;
  cos := fun _ => 1;
  atan2 := fun y x => y / x;
  floor := fun x => x;
  round := fun x => x;
  rem := fun x _ => x;
  toFixed := fun _ _ => "0"%string;
  numToString := fun _ => "0"%string;
  parseFloat := fun _ => 0
|}.

(** Degrees to radians, as written throughout the code:
    [deg * Math.PI / 180]. *)
Definition toRadians (deg : float) : float := deg * PI / 180.

End JsNum.

(* ================================================================== *)
(** * Geometry utilities *)
(* ================================================================== *)

Module Geo.

Import JsNum.
Open Scope float_scope.

(** A coordinate is valid when its latitude lies in [-90, 90] and its
    longitude in [-180, 180]; a NaN or an infinity satisfies neither. *)
Definition validCoordinate (lat lng : float) : bool :=
  (abs lat <=? 90) && (abs lng <=? 180).

Section WithMath.

Context (M : MathLib).

(** [calculateDistance]: Haversine formula, Earth radius 6371 km. *)
Definition calculateDistance (lat1 lng1 lat2 lng2 : float) : float :=
  let R := 6371 in
  let dLat := (lat2 - lat1) * PI / 180 in
  let dLng := (lng2 - lng1) * PI / 180 in
  let a :=
    sin M (dLat / 2) * sin M (dLat / 2) +
    cos M (lat1 * PI / 180) * cos M (lat2 * PI / 180) *
    sin M (dLng / 2) * sin M (dLng / 2) in
  let c := 2 * atan2 M (sqrt a) (sqrt (1 - a)) in
  R * c.

End WithMath.

(** ** A pair of nearly antipodal points

    For the points (2.5, 0) and (-2.5, 180) the code evaluates the sine
    and the cosine at 2.5 degrees and at 90 degrees in radians, with
    either sign. *)
Definition radians2_5 : float := 0x1.657184ae74487p-5.
Definition radians90 : float := 0x1.921fb54442d18p+0.

(** The real sine and cosine of [radians2_5], rounded to the nearest
    number (the real values lie 0.40 and 0.32 units in the last place
    below them); the real sine of [radians90] rounds to 1. *)
Definition sin2_5 : float := 0x1.65547c4694e11p-5.
Definition cos2_5 : float := 0x1.ff833f9da45f7p-1.

(** A [Math] instance with these values at these arguments, and with
    [atan2] of a NaN a NaN; elsewhere the small-angle approximations. *)
Definition sampledMath : MathLib := {|
  sin := fun x =>
    if x =? radians2_5 then sin2_5
    else if x =? - radians2_5 then - sin2_5
    else if x =? radians90 then 1
    else if x =? - radians90 then -1
    else x;
  cos := fun x => if abs x =? radians2_5 then cos2_5 else 1;
  atan2 := fun y x => y / x;
  floor := fun x => x;
  round := fun x => x;
  rem := fun x _ => x;
  toFixed := fun _ _ => "0"%string;
  numToString := fun _ => "0"%string;
  parseFloat := fun _ => 0
|}.

End Geo.

(* ================================================================== *)
(** * JavaScript strings *)
(* ================================================================== *)

Module Str.

Open Scope string_scope.

(** [s.split(sep)] for a one-character separator. *)
Fixpoint split (sep : ascii) (s : string) : list string :=
  match s with
  | EmptyString => [EmptyString]
  | String c s' =>
      if Ascii.eqb c sep then EmptyString :: split sep s'
      else match split sep s' with
           | [] => [String c EmptyString]
           | h :: t => String c h :: t
           end
  end.

(** White space and line terminators among the code units below 256:
    TAB, LF, VT, FF, CR, SPACE and NBSP. *)
Definition isWhiteSpace (c : ascii) : bool :=
  let n := nat_of_ascii c in
  ((9 <=? n) && (n <=? 13))%nat || (n =? 32)%nat || (n =? 160)%nat.

Fixpoint trimStart (s : string) : string :=
  match s with
  | EmptyString => EmptyString
  | String c s' => if isWhiteSpace c then trimStart s' else s
  end.

Fixpoint trimEnd (s : string) : string :=
  match s with
  | EmptyString => EmptyString
  | String c s' =>
      match trimEnd s' with
      | EmptyString => if isWhiteSpace c then EmptyString
                       else String c EmptyString
      | t => String c t
      end
  end.

(** [s.trim()] *)
Definition trim (s : string) : string := trimEnd (trimStart s).

(** [String(n)] for an integer. *)
Definition ofZ (z : Z) : string := NilZero.string_of_int (Z.to_int z).

(** [a || b] on strings that may be undefined. *)
Definition orElse (a b : option string) : option string :=
  match a with
  | Some s => if String.eqb s "" then b else a
  | None => b
  end.

(** [parts.join(sep)] *)
Definition join (sep : string) (parts : list string) : string :=
  String.concat sep parts.

(** [s.toLowerCase()] and [s.toUpperCase()] on the Latin letters. *)
Definition lowerChar (c : ascii) : ascii :=
  let n := nat_of_ascii c in
  if ((65 <=? n) && (n <=? 90))%nat then ascii_of_nat (n + 32) else c.

Definition upperChar (c : ascii) : ascii :=
  let n := nat_of_ascii c in
  if ((97 <=? n) && (n <=? 122))%nat then ascii_of_nat (n - 32) else c.

Fixpoint toLowerCase (s : string) : string :=
  match s with
  | EmptyString => EmptyString
  | String c s' => String (lowerChar c) (toLowerCase s')
  end.

(** [s.startsWith(p)] *)
Definition startsWith (p s : string) : bool := String.prefix p s.

(** [s.includes(p)] *)
Fixpoint includes (p s : string) : bool :=
  String.prefix p s
  || match s with
     | EmptyString => false
     | String _ s' => includes p s'
     end.

(** The rest of [s] after [n] characters. *)
Fixpoint drop (n : nat) (s : string) : string :=
  match n, s with
  | O, _ => s
  | S n', String _ s' => drop n' s'
  | S _, EmptyString => EmptyString
  end.

(** [s.replace(p, r)] for a non-empty string pattern: the first
    occurrence only. *)
Fixpoint replaceFirst (p r s : string) : string :=
  if String.prefix p s then r ++ drop (String.length p) s
  else match s with
       | EmptyString => EmptyString
       | String c s' => String c (replaceFirst p r s')
       end.

(** [s.replace(/p/g, r)] for a literal, non-empty pattern: every
    occurrence, left to right, without overlap. *)
Fixpoint replaceAllFuel (fuel : nat) (p r s : string) : string :=
  match fuel with
  | O => s
  | S fuel' =>
      if String.prefix p s
      then r ++ replaceAllFuel fuel' p r (drop (String.length p) s)
      else match s with
           | EmptyString => EmptyString
           | String c s' => String c (replaceAllFuel fuel' p r s')
           end
  end.

Definition replaceAll (p r s : string) : string :=
  replaceAllFuel (S (String.length s)) p r s.

(** [s.slice(0, n)] *)
Fixpoint take (n : nat) (s : string) : string :=
  match n, s with
  | S n', String c s' => String c (take n' s')
  | _, _ => EmptyString
  end.

(** [s.slice(0, -1)] *)
Definition dropLast (s : string) : string := take (String.length s - 1) s.

(** [s.replace(/[^a-z0-9]/g, '')] *)
Fixpoint keepAlnum (s : string) : string :=
  match s with
  | EmptyString => EmptyString
  | String c s' =>
      let n := nat_of_ascii c in
      if (((97 <=? n) && (n <=? 122)) || ((48 <=? n) && (n <=? 57)))%nat
      then String c (keepAlnum s')
      else keepAlnum s'
  end.

(** [s.replace(/\s+/g, '')] *)
Fixpoint dropSpaces (s : string) : string :=
  match s with
  | EmptyString => EmptyString
  | String c s' =>
      if isWhiteSpace c then dropSpaces s' else String c (dropSpaces s')
  end.

(** The double quote character. *)
Definition quote : string := String (ascii_of_nat 34) EmptyString.

(** The line break of a template literal. *)
Definition nl : string := String (ascii_of_nat 10) EmptyString.

(** [s.charAt(0).toUpperCase() + s.slice(1)] *)
Definition capitalize (s : string) : string :=
  match s with
  | EmptyString => EmptyString
  | String c s' => String (upperChar c) s'
  end.

(** Truthiness of a string: the empty string is the only falsy one. *)
Definition truthy (s : string) : bool := negb (String.eqb s "").

(** A string of white space only (possibly empty). *)
Fixpoint isBlank (s : string) : bool :=
  match s with
  | EmptyString => true
  | String c s' => isWhiteSpace c && isBlank s'
  end.

End Str.

(* ================================================================== *)
(** * JavaScript arrays and objects *)
(* ================================================================== *)

Module JsArray.

Import JsNum.
Open Scope float_scope.

Section Sort.

Context {A : Type}.

(** [Array.prototype.sort(comparefn)].  The sort is stable; an element
    moves behind another only when the comparator is positive for the
    pair (a NaN comparator result counts as zero).  For a consistent
    comparator the result is the unique stable sorted arrangement, which
    is what insertion from the right computes. *)
Fixpoint insert (comparefn : A -> A -> float) (x : A) (l : list A) : list A :=
  match l with
  | [] => [x]
  | y :: l' =>
      if 0 <? comparefn x y then y :: insert comparefn x l' else x :: l
  end.

Definition sort (comparefn : A -> A -> float) (l : list A) : list A :=
  fold_right (insert comparefn) [] l.

(** [arr.slice(0, n)] is [firstn n arr]; [arr.some(p)] is [existsb p arr];
    [arr.filter(p)] is [filter p arr]. *)

(** The comparator [(a, b) => key(a) - key(b)], the order it sorts by,
    and the elements it orders consistently. *)
Definition byKey (key : A -> float) (a b : A) : float := key a - key b.

Definition keyLe (key : A -> float) (a b : A) : Prop :=
  (key a <=? key b) = true.

Definition keyFinite (key : A -> float) (a : A) : Prop :=
  isFinite (key a) = true.

End Sort.

(** [arr[x]] for a number [x]: [undefined] unless [x] is an index of the
    array. *)
Definition at_ {A : Type} (arr : list A) (x : float) : option A :=
  match toIndex x with
  | Some n => nth_error arr n
  | None => None
  end.

(** An object used as a string-keyed table, in insertion order
    ([Object.keys] order). *)
Definition Obj (V : Type) : Type := list (string * V).

Fixpoint get {V : Type} (o : Obj V) (key : string) : option V :=
  match o with
  | [] => None
  | (k, v) :: o' => if String.eqb k key then Some v else get o' key
  end.

Definition keys {V : Type} (o : Obj V) : list string := map fst o.

(** The properties every object literal inherits from
    [Object.prototype]; all of them hold truthy values (functions, or the
    prototype itself). *)
Definition objectPrototypeKeys : list string := [
  "constructor"; "toString"; "toLocaleString"; "valueOf"; "hasOwnProperty";
  "isPrototypeOf"; "propertyIsEnumerable"; "__proto__";
  "__defineGetter__"; "__defineSetter__"; "__lookupGetter__";
  "__lookupSetter__" ]%string.

Definition isInherited (key : string) : bool :=
  existsb (String.eqb key) objectPrototypeKeys.

(** The outcome of a property read [literal[key]] on an object
    literal. *)
Inductive Lookup (V : Type) :=
  | Own (v : V)
  | Inherited (prop : string)
  | Undefined.

Arguments Own {V} v.
Arguments Inherited {V} prop.
Arguments Undefined {V}.

Definition read {V : Type} (literal : Obj V) (key : string) : Lookup V :=
  match get literal key with
  | Some v => Own v
  | None => if isInherited key then Inherited key else Undefined
  end.

End JsArray.

(* ================================================================== *)
(** * Data model: places and categories *)
(* ================================================================== *)

Module Place.

(** The [type] field of a place: where the record comes from. *)
Inductive Kind := osm | verified_mock | mock.

(** A place as built by the aggregator and the generators.  Fields that a
    producer does not set are [None]. *)
Record t := mk {
  id : string;
  name : string;
  category : string;
  categoryName : string;
  icon : string;
  lat : float;
  lng : float;
  distance : float;
  address : string;
  phone : option string;
  website : option string;
  opening_hours : option string;
  rating : float;
  type : Kind;
  city : option string;
  state : option string;
  country : option string;
  isPopular : option bool
}.

End Place.

Module Categories.

Import JsArray.
Open Scope string_scope.

Record Category := mkCategory {
  name : string;
  icon : string;
  tags : list string
}.

(** [PLACE_CATEGORIES], in source order. *)
Definition PLACE_CATEGORIES : Obj Category := [
  ("restaurant", mkCategory "Restaurants & Food" "🍽️"
     ["amenity=restaurant"; "amenity=fast_food"; "cuisine=indian"]);
  ("cafe", mkCategory "Cafes & Tea Stalls" "☕" ["amenity=cafe"; "shop=tea"]);
  ("lodging", mkCategory "Hotels & Lodging" "🏨"
     ["tourism=hotel"; "tourism=guest_house"]);
  ("gas_station", mkCategory "Petrol Pumps" "⛽" ["amenity=fuel"]);
  ("shopping", mkCategory "Shopping & Markets" "🛍️"
     ["shop=supermarket"; "shop=convenience"; "amenity=marketplace"]);
  ("hospital", mkCategory "Healthcare & Pharmacy" "🏥"
     ["amenity=hospital"; "amenity=pharmacy"; "amenity=clinic"]);
  ("bank", mkCategory "Banks & ATMs" "🏦" ["amenity=bank"; "amenity=atm"]);
  ("transport", mkCategory "Transportation" "🚌"
     ["amenity=bus_station"; "railway=station"; "public_transport=station"]);
  ("entertainment", mkCategory "Parks & Attractions" "🎬"
     ["leisure=park"; "tourism=attraction"; "amenity=cinema"]);
  ("education", mkCategory "Schools & Colleges" "🎓"
     ["amenity=school"; "amenity=college"; "amenity=university"]);
  ("religious", mkCategory "Temples & Religious" "🕉️"
     ["amenity=place_of_worship"; "building=temple"]);
  ("government", mkCategory "Government Offices" "🏛️"
     ["office=government"; "amenity=townhall"; "office=administrative"]);
  ("automotive", mkCategory "Auto Services" "🔧"
     ["shop=car_repair"; "amenity=car_wash"; "shop=car"]);
  ("beauty", mkCategory "Salons & Spas" "💄"
     ["shop=hairdresser"; "shop=beauty"; "leisure=spa"]);
  ("electronics", mkCategory "Electronics & Mobile" "📱"
     ["shop=electronics"; "shop=mobile_phone"; "shop=computer"]);
  ("clothing", mkCategory "Clothing & Textiles" "👕"
     ["shop=clothes"; "shop=tailor"; "shop=fabric"]);
  ("grocery", mkCategory "Grocery & Provisions" "🛒"
     ["shop=grocery"; "shop=general"; "shop=convenience"]);
  ("medical", mkCategory "Medical & Dental" "⚕️"
     ["amenity=doctors"; "amenity=dentist"; "healthcare=clinic"]);
  ("sports", mkCategory "Sports & Fitness" "⚽"
     ["leisure=sports_centre"; "leisure=fitness_centre"; "sport=cricket"])
].

(** A result keyed by category. *)
Definition PlacesByCategory : Type := Obj (list Place.t).

(** [data[categoryKey] || []] *)
Definition placesOf (data : PlacesByCategory) (categoryKey : string)
  : list Place.t :=
  match get data categoryKey with
  | Some places => places
  | None => []
  end.

End Categories.

(* ================================================================== *)
(** * Aggregator: categorisation of raw elements *)
(* ================================================================== *)

Module Categorize.

Import JsArray Categories.
Open Scope string_scope.

(** The [tags] object of a raw element: OSM keys and values, both
    strings. *)
Definition Tags : Type := Obj string.

(** [tags.k] used as a condition: present and not the empty string. *)
Definition present (tags : Tags) (k : string) : bool :=
  match get tags k with
  | Some v => Str.truthy v
  | None => false
  end.

Definition optEqb (a b : option string) : bool :=
  match a, b with
  | Some x, Some y => String.eqb x y
  | None, None => true
  | _, _ => false
  end.

(** [const [key, value] = tag.split('='); tags[key] === value] *)
Definition tagMatches (tags : Tags) (tag : string) : bool :=
  let parts := Str.split "=" tag in
  let key := nth 0 parts "" in
  let value := nth_error parts 1 in
  optEqb (get tags key) value.

Definition amenityMappings : Obj string := [
  ("restaurant", "restaurant"); ("fast_food", "restaurant");
  ("cafe", "cafe"); ("fuel", "gas_station"); ("hospital", "hospital");
  ("pharmacy", "hospital"); ("clinic", "hospital"); ("bank", "bank");
  ("atm", "bank"); ("school", "education"); ("college", "education");
  ("university", "education"); ("place_of_worship", "religious");
  ("cinema", "entertainment"); ("theatre", "entertainment") ].

Definition shopMappings : Obj string := [
  ("supermarket", "shopping"); ("convenience", "shopping");
  ("mall", "shopping"); ("clothes", "clothing");
  ("electronics", "electronics"); ("mobile_phone", "electronics");
  ("car_repair", "automotive"); ("hairdresser", "beauty");
  ("beauty", "beauty") ].

Definition tourismMappings : Obj string := [
  ("hotel", "lodging"); ("guest_house", "lodging"); ("hostel", "lodging");
  ("attraction", "entertainment") ].

(** What [determineCategoryFromTags] returns: [null], a category key, or
    (when a tag value names a member of [Object.prototype]) the inherited
    member, which is truthy and is no category key. *)
Inductive Result :=
  | Null
  | Key (categoryKey : string)
  | Member (prop : string).

(** The first category, in table order, one of whose tags matches. *)
Fixpoint firstExact (tags : Tags) (table : Obj Category) : option string :=
  match table with
  | [] => None
  | (categoryKey, category) :: rest =>
      if existsb (tagMatches tags) (Categories.tags category)
      then Some categoryKey
      else firstExact tags rest
  end.

(** [if (mappings[tags.k]) return mappings[tags.k]] for a truthy
    [tags.k]: the value returned, if any. *)
Definition mapped (mappings : Obj string) (tags : Tags) (k : string)
  : option Result :=
  match get tags k with
  | Some v =>
      match read mappings v with
      | Own c => if Str.truthy c then Some (Key c) else None
      | Inherited prop => Some (Member prop)
      | Undefined => None
      end
  | None => None
  end.

Definition determineCategoryFromTags (tags : option Tags) : Result :=
  match tags with
  | None => Null
  | Some tags =>
      match firstExact tags PLACE_CATEGORIES with
      | Some categoryKey => Key categoryKey
      | None =>
          let fromAmenity :=
            if present tags "amenity" then mapped amenityMappings tags "amenity"
            else None in
          match fromAmenity with
          | Some r => r
          | None =>
              if present tags "shop" then
                match mapped shopMappings tags "shop" with
                | Some r => r
                | None => Key "shopping"
                end
              else
                let fromTourism :=
                  if present tags "tourism"
                  then mapped tourismMappings tags "tourism"
                  else None in
                match fromTourism with
                | Some r => r
                | None => Null
                end
          end
      end
  end.

(** ** The rules, as the specification words them *)

(** An exact key=value match against the category table. *)
Definition matchesCategoryTable (tags : Tags) : bool :=
  existsb (fun entry => existsb (tagMatches tags) (Categories.tags (snd entry)))
          PLACE_CATEGORIES.

(** The value of tag [k] is an entry of the dictionary. *)
Definition entryOf (mappings : Obj string) (tags : Tags) (k : string) : bool :=
  match get tags k with
  | Some v => match get mappings v with Some _ => true | None => false end
  | None => false
  end.

Definition matchesFallback (tags : Tags) : bool :=
  entryOf amenityMappings tags "amenity"
  || entryOf shopMappings tags "shop"
  || entryOf tourismMappings tags "tourism".

Definition matchesNoRule (tags : Tags) : bool :=
  negb (matchesCategoryTable tags) && negb (matchesFallback tags).

(** The value of tag [k], if any, names no member of
    [Object.prototype]. *)
Definition plainValue (tags : Tags) (k : string) : bool :=
  match get tags k with
  | Some v => negb (isInherited v)
  | None => true
  end.

(** A bakery: a shop with no rule of its own. *)
Definition bakery : Tags := [("shop", "bakery"); ("name", "Modern Bakery")].

(** A bench: an amenity no rule mentions. *)
Definition bench : Tags := [("amenity", "bench")].

End Categorize.

(* ================================================================== *)
(** * Merge/dedup engine *)
(* ================================================================== *)

Module Merge.

Import JsNum JsArray Categories.
Open Scope float_scope.

(** The proximity test of the filter: within 0.002 degrees in both
    axes. *)
Definition near (realPlace mockPlace : Place.t) : bool :=
  (abs (Place.lat realPlace - Place.lat mockPlace) <? 0.002)
  && (abs (Place.lng realPlace - Place.lng mockPlace) <? 0.002).

Definition byDistance (a b : Place.t) : float :=
  Place.distance a - Place.distance b.

(** The distance of a place is a finite number; [a] is at most as far
    as [b]. *)
Definition finiteDistance (p : Place.t) : Prop :=
  isFinite (Place.distance p) = true.

Definition distanceLe (a b : Place.t) : Prop :=
  (Place.distance a <=? Place.distance b) = true.

Definition targetMinimum : nat := 6.

(** The body of the [forEach] of [mergeRealAndMockData] for one
    category. *)
Definition mergeCategory (realPlaces mockPlaces : list Place.t)
  : list Place.t :=
  let combined := realPlaces in
  let combined :=
    if (List.length combined <? targetMinimum)%nat then
      let needed := (targetMinimum - List.length combined)%nat in
      let additionalMock :=
        firstn needed
          (filter (fun mockPlace =>
                     negb (existsb (fun realPlace => near realPlace mockPlace)
                                   combined))
                  mockPlaces) in
      (combined ++ additionalMock)%list
    else combined in
  let combined :=
    if (List.length combined =? 0)%nat then mockPlaces else combined in
  firstn 10 (sort byDistance combined).

Definition mergeRealAndMockData (realData mockData : PlacesByCategory)
  : PlacesByCategory :=
  map (fun categoryKey =>
         (categoryKey,
          mergeCategory (placesOf realData categoryKey)
                        (placesOf mockData categoryKey)))
      (keys PLACE_CATEGORIES).

(** The synthetic places of a category that the proximity rule does not
    exclude. *)
Definition syntheticAvailable (realPlaces mockPlaces : list Place.t)
  : list Place.t :=
  filter (fun mockPlace =>
            negb (existsb (fun realPlace => near realPlace mockPlace)
                          realPlaces))
         mockPlaces.

(** "No two entries of the list lie within 0.002 degrees of each other in
    both axes." *)
Definition noTwoNear (l : list Place.t) : Prop :=
  forall i j a b,
    i <> j -> nth_error l i = Some a -> nth_error l j = Some b ->
    near a b = false.

(** Sample data: two live restaurants of one food court, about fifteen
    metres apart, and no synthetic place. *)
Definition samplePlace (ident : string) (la lo d : float) (k : Place.Kind)
  : Place.t :=
  Place.mk ident "Food Court" "restaurant" "Restaurants & Food" "🍽️"
           la lo d "Address not available" None None None 4.2 k
           None None None None.

Definition liveTwo : PlacesByCategory :=
  [("restaurant"%string,
    [samplePlace "osm_restaurant_1" 28.6139 77.2090 0.01 Place.osm;
     samplePlace "osm_restaurant_2" 28.6140 77.2091 0.02 Place.osm])].

(** Three synthetic restaurants around the same centre; the first lies
    within 0.002 degrees of a live one. *)
Definition syntheticThree : PlacesByCategory :=
  [("restaurant"%string,
    [samplePlace "verified_restaurant_28.6139_77.2090_0"
                 28.6139 77.2091 0.01 Place.verified_mock;
     samplePlace "verified_restaurant_28.6139_77.2090_1"
                 28.62 77.21 0.69 Place.verified_mock;
     samplePlace "verified_restaurant_28.6139_77.2090_2"
                 28.60 77.20 1.78 Place.verified_mock])].

End Merge.

(* ================================================================== *)
(** * Location acquisition: the sensor cascade *)
(* ================================================================== *)

Module Location.

Import JsNum.
Open Scope string_scope.

(** What [checkLocationSupport] reads from the browser. *)
Record Browser := {
  hasGeolocation : bool;      (* navigator.geolocation *)
  protocol : string;          (* window.location.protocol *)
  hostname : string           (* window.location.hostname *)
}.

Record Support := { supported : bool; issues : list string }.

Definition checkLocationSupport (b : Browser) : Support :=
  let issues : list string := [] in
  let issues :=
    if negb (hasGeolocation b)
    then (issues ++ ["Geolocation API not supported"])%list else issues in
  let issues :=
    if negb (String.eqb (protocol b) "https:")
       && negb (String.eqb (hostname b) "localhost")
    then (issues ++ ["HTTPS required for location access"])%list
    else issues in
  {| supported := (List.length issues =? 0)%nat; issues := issues |}.

(** The three attempts of [getCurrentLocation], named as in the code. *)
Inductive Tier := attemptHighAccuracy | attemptSecondTry | attemptFinalGPS.

Definition tierEqb (a b : Tier) : bool :=
  match a, b with
  | attemptHighAccuracy, attemptHighAccuracy
  | attemptSecondTry, attemptSecondTry
  | attemptFinalGPS, attemptFinalGPS => true
  | _, _ => false
  end.

(** The third argument of [navigator.geolocation.getCurrentPosition]. *)
Record PositionOptions := {
  enableHighAccuracy : bool;
  timeout : Z;                (* milliseconds *)
  maximumAge : Z
}.

Definition optionsOf (tier : Tier) : PositionOptions :=
  match tier with
  | attemptHighAccuracy =>
      {| enableHighAccuracy := true; timeout := 5000; maximumAge := 0 |}
  | attemptSecondTry =>
      {| enableHighAccuracy := false; timeout := 3000; maximumAge := 0 |}
  | attemptFinalGPS =>
      {| enableHighAccuracy := true; timeout := 15000; maximumAge := 0 |}
  end.

Record Coords := { latitude : float; longitude : float; accuracy : float }.

(** [error.code] of a GeolocationPositionError. *)
Inductive ErrorCode :=
  PERMISSION_DENIED | POSITION_UNAVAILABLE | TIMEOUT | UNKNOWN_CODE.

Record LocationFix := {
  lat : float;
  lng : float;
  fixAccuracy : float;
  method : string;
  city : option string
}.

(** The value each success callback resolves the promise with. *)
Definition onSuccess (tier : Tier) (c : Coords) : LocationFix :=
  let method :=
    match tier with
    | attemptHighAccuracy =>
        if (accuracy c <=? 100)%float then "high_accuracy_gps"
        else if (accuracy c <=? 1000)%float then "moderate_accuracy"
        else "gps_poor_accuracy"
    | attemptSecondTry =>
        if (accuracy c <=? 100)%float then "delayed_gps" else "cell_tower"
    | attemptFinalGPS => "gps_final_attempt"
    end in
  {| lat := latitude c; lng := longitude c; fixAccuracy := accuracy c;
     method := method; city := None |}.

(** The message of the error the last error callback rejects with. *)
Definition failureMessage (code : ErrorCode) : string :=
  let '(errorMessage, suggestion) :=
    match code with
    | PERMISSION_DENIED =>
        ("GPS location access denied",
         "Please allow location access in your browser settings and try again.")
    | POSITION_UNAVAILABLE =>
        ("GPS location unavailable",
         "Your device cannot determine GPS location. Please check your device settings.")
    | TIMEOUT =>
        ("GPS location request timed out",
         "GPS is taking too long. Please try again or move to an area with better GPS signal.")
    | UNKNOWN_CODE =>
        ("GPS location detection failed",
         "Please try again or check your device location settings.")
    end in
  errorMessage ++ ". " ++ suggestion.

(** The state of the promise returned by [getCurrentLocation]. *)
Inductive Settlement :=
  | Pending
  | Fulfilled (location : LocationFix)
  | Rejected (message : string).

(** What has happened so far, oldest first. *)
Inductive Entry :=
  | Requested (tier : Tier) (options : PositionOptions)
  | SuccessCallback (tier : Tier)
  | ErrorCallback (tier : Tier).

Definition entryEqb (a b : Entry) : bool :=
  match a, b with
  | Requested t o, Requested t' o' =>
      tierEqb t t'
      && Bool.eqb (enableHighAccuracy o) (enableHighAccuracy o')
      && (timeout o =? timeout o')%Z && (maximumAge o =? maximumAge o')%Z
  | SuccessCallback t, SuccessCallback t' => tierEqb t t'
  | ErrorCallback t, ErrorCallback t' => tierEqb t t'
  | _, _ => false
  end.

(** [inFlight] holds the sensor requests whose callbacks have not fired
    yet; a request leaves it when one of its two callbacks fires, so each
    request calls back once. *)
Record State := {
  inFlight : list Tier;
  trace : list Entry;
  promise : Settlement
}.

(** [navigator.geolocation.getCurrentPosition(success, error, options)] *)
Definition request (tier : Tier) (s : State) : State :=
  {| inFlight := (inFlight s ++ [tier])%list;
     trace := (trace s ++ [Requested tier (optionsOf tier)])%list;
     promise := promise s |}.

(** [resolve] and [reject]: only the first settlement counts. *)
Definition settle (outcome : Settlement) (s : State) : State :=
  match promise s with
  | Pending =>
      {| inFlight := inFlight s; trace := trace s; promise := outcome |}
  | _ => s
  end.

Definition called (entry : Entry) (tier : Tier) (s : State) : State :=
  {| inFlight := filter (fun t => negb (tierEqb t tier)) (inFlight s);
     trace := (trace s ++ [entry])%list;
     promise := promise s |}.

(** What the browser may do: fire a callback of a request in flight. *)
Inductive BrowserEvent :=
  | Succeeds (tier : Tier) (coords : Coords)
  | Fails (tier : Tier) (code : ErrorCode).

Definition tierOf (ev : BrowserEvent) : Tier :=
  match ev with Succeeds t _ | Fails t _ => t end.

(** The callbacks of the three attempts. *)
Definition step (s : State) (ev : BrowserEvent) : option State :=
  if existsb (tierEqb (tierOf ev)) (inFlight s) then
    match ev with
    | Succeeds tier coords =>
        Some (settle (Fulfilled (onSuccess tier coords))
                     (called (SuccessCallback tier) tier s))
    | Fails tier code =>
        let s' := called (ErrorCallback tier) tier s in
        Some match tier with
             | attemptHighAccuracy => request attemptSecondTry s'
             | attemptSecondTry => request attemptFinalGPS s'
             | attemptFinalGPS => settle (Rejected (failureMessage code)) s'
             end
    end
  else None.

Fixpoint run (s : State) (evs : list BrowserEvent) : option State :=
  match evs with
  | [] => Some s
  | ev :: evs' =>
      match step s ev with
      | Some s' => run s' evs'
      | None => None
      end
  end.

(** How [getCurrentLocation] starts: with the first sensor attempt, or,
    without sensor support, by handing the promise to [tryIPLocation]. *)
Inductive Started :=
  | SensorCascade (s : State)
  | IpFallback.

Definition getCurrentLocation (b : Browser) : Started :=
  let support := checkLocationSupport b in
  if negb (supported support) then IpFallback
  else SensorCascade
         (request attemptHighAccuracy
                  {| inFlight := []; trace := []; promise := Pending |}).

(** ** Reading a trace *)

Definition requestedTiers (tr : list Entry) : list Tier :=
  flat_map (fun e => match e with Requested t _ => [t] | _ => [] end) tr.

Definition occurs (e : Entry) (tr : list Entry) : bool :=
  existsb (entryEqb e) tr.

(** Every occurrence of [later] in the trace has an [earlier] before
    it. *)
Fixpoint precededBy (earlier later : Entry) (tr : list Entry) : bool :=
  match tr with
  | [] => true
  | e :: tr' =>
      if entryEqb e earlier then true
      else negb (entryEqb e later) && precededBy earlier later tr'
  end.

Definition isRejected (p : Settlement) : bool :=
  match p with Rejected _ => true | _ => false end.

(** ** The stages of the cascade

    The seven situations the cascade can be in: which requests are in
    flight, what has happened, and whether the promise is pending (0),
    fulfilled (1) or rejected (2). *)
Definition settlementKind (p : Settlement) : nat :=
  match p with Pending => 0 | Fulfilled _ => 1 | Rejected _ => 2 end.

Definition reqA : Entry := Requested attemptHighAccuracy (optionsOf attemptHighAccuracy).
Definition reqB : Entry := Requested attemptSecondTry (optionsOf attemptSecondTry).
Definition reqC : Entry := Requested attemptFinalGPS (optionsOf attemptFinalGPS).

Definition stages : list (list Tier * list Entry * nat) := [
  ([attemptHighAccuracy], [reqA], 0%nat);
  ([], [reqA; SuccessCallback attemptHighAccuracy], 1%nat);
  ([attemptSecondTry], [reqA; ErrorCallback attemptHighAccuracy; reqB], 0%nat);
  ([], [reqA; ErrorCallback attemptHighAccuracy; reqB;
        SuccessCallback attemptSecondTry], 1%nat);
  ([attemptFinalGPS], [reqA; ErrorCallback attemptHighAccuracy; reqB;
                       ErrorCallback attemptSecondTry; reqC], 0%nat);
  ([], [reqA; ErrorCallback attemptHighAccuracy; reqB;
        ErrorCallback attemptSecondTry; reqC;
        SuccessCallback attemptFinalGPS], 1%nat);
  ([], [reqA; ErrorCallback attemptHighAccuracy; reqB;
        ErrorCallback attemptSecondTry; reqC;
        ErrorCallback attemptFinalGPS], 2%nat) ].

Definition atStage (s : State) : Prop :=
  In (inFlight s, trace s, settlementKind (promise s)) stages.

(** The properties of a situation of the cascade. *)
Record Sequential (s : State) : Prop := {
  (** The first thing that happens is the high-accuracy request. *)
  firstIsTierA :
    hd_error (trace s)
    = Some (Requested attemptHighAccuracy
              {| enableHighAccuracy := true; timeout := 5000;
                 maximumAge := 0 |});
  (** Requests are made in the order A, B, C, each at most once. *)
  inOrder :
    exists n, requestedTiers (trace s)
              = firstn n [attemptHighAccuracy; attemptSecondTry;
                          attemptFinalGPS];
  (** Each request carries the options of its tier. *)
  tierBOptions :
    forall o, In (Requested attemptSecondTry o) (trace s) ->
              o = {| enableHighAccuracy := false; timeout := 3000;
                     maximumAge := 0 |};
  tierCOptions :
    forall o, In (Requested attemptFinalGPS o) (trace s) ->
              o = {| enableHighAccuracy := true; timeout := 15000;
                     maximumAge := 0 |};
  (** Tier B is attempted if and only if Tier A's error callback fired,
      and Tier C if and only if Tier B's did. *)
  tierBIffAFailed :
    In attemptSecondTry (requestedTiers (trace s))
    <-> In (ErrorCallback attemptHighAccuracy) (trace s);
  tierCIffBFailed :
    In attemptFinalGPS (requestedTiers (trace s))
    <-> In (ErrorCallback attemptSecondTry) (trace s);
  (** The promise is rejected only after Tier C's error callback. *)
  rejectsAfterC :
    isRejected (promise s) = true ->
    In (ErrorCallback attemptFinalGPS) (trace s);
  (** A tier is started only after the previous tier's error callback. *)
  tierBAfterAFailed :
    precededBy (ErrorCallback attemptHighAccuracy) reqB (trace s) = true;
  tierCAfterBFailed :
    precededBy (ErrorCallback attemptSecondTry) reqC (trace s) = true;
  (** No two requests are ever in flight together. *)
  oneAtATime : (List.length (inFlight s) <= 1)%nat
}.

(** A browser with sensor access, and events for a run in which the
    first two attempts time out and the third succeeds. *)
Definition secureBrowser : Browser :=
  {| hasGeolocation := true; protocol := "https:"; hostname := "example.org" |}.

Definition twoTimeouts : list BrowserEvent :=
  [ Fails attemptHighAccuracy TIMEOUT;
    Fails attemptSecondTry TIMEOUT;
    Succeeds attemptFinalGPS
      {| latitude := 28.6139; longitude := 77.2090; accuracy := 35 |} ].

End Location.

(* ================================================================== *)
(** * Asynchronous code: network, randomness, timers, exceptions *)
(* ================================================================== *)

Module Eff.

Import JsArray.
Open Scope string_scope.

Record JsError := { errorName : string; message : string }.

(** [new Error(message)] *)
Definition Error (message : string) : JsError :=
  {| errorName := "Error"; message := message |}.

Definition TypeError (message : string) : JsError :=
  {| errorName := "TypeError"; message := message |}.

Definition SyntaxError (message : string) : JsError :=
  {| errorName := "SyntaxError"; message := message |}.

(** ** Payloads of the providers *)

(** The [address] object of a Nominatim result. *)
Record Address := {
  addrCity : option string;
  addrTown : option string;
  addrVillage : option string;
  addrHamlet : option string;
  addrState : option string;
  addrCountry : option string
}.

(** One item of a Nominatim [/search] response. *)
Record SearchItem := {
  place_id : Z;
  itemName : option string;
  display_name : string;
  itemLat : string;
  itemLon : string;
  itemType : string;
  itemClass : string;
  itemImportance : string;
  itemAddress : option Address;
  itemOsmId : Z;
  itemOsmType : string;
  boundingbox : list string
}.

(** A Nominatim [/reverse] response. *)
Record ReverseData := {
  revDisplayName : string;
  revAddress : option Address
}.

(** One element of an Overpass response. *)
Record Element := {
  elId : Z;
  elType : string;
  elLat : option float;
  elLon : option float;
  elCenter : option (float * float);
  elTags : option (Obj string)
}.

(** One step of an OpenRouteService segment or of an OSRM leg. *)
Record ProviderStep := {
  stepInstruction : option string;
  stepDistance : float;
  stepDuration : float;
  stepManeuverType : option string
}.

(** [features[0].properties.segments[0]] of OpenRouteService, or
    [routes[0]] with [legs[0].steps] of OSRM. *)
Record ProviderRoute := {
  routeDistance : float;
  routeDuration : float;
  routeSteps : list ProviderStep
}.

Inductive Body :=
  | SearchBody (items : list SearchItem)
  | ReverseBody (data : ReverseData)
  | OverpassBody (elements : option (list Element))
  | OrsBody (features : list ProviderRoute)
  | OsrmBody (routes : list ProviderRoute)
  | Unparsable.

Record Response := { ok : bool; status : Z; body : Body }.

Record Request := { url : string; postBody : option string }.

(** What a [fetch] settles with: a response, or a rejection (network
    failure, or an AbortError when its abort timer fired first). *)
Inductive FetchOutcome :=
  | Responds (r : Response)
  | FetchRejects (e : JsError).

(** The value cached by [reverseGeocodeWithTimeout]. *)
Record ReverseInfo := {
  infoAddress : string;
  infoCity : option string;
  infoState : option string;
  infoCountry : option string
}.

(** ** The environment and the world *)

(** What the outside decides: how the n-th request made is answered,
    what the n-th call of [Math.random] returns, and whether the timer wins
    the n-th [Promise.race] against a timer. *)
Record Env := {
  network : nat -> Request -> FetchOutcome;
  random : nat -> float;
  timerWins : nat -> bool
}.

(** What the program has done so far, and the module-level
    [reverseCache] map. *)
Record World := {
  requests : list Request;
  randomCalls : nat;
  races : nat;
  reverseCache : Obj ReverseInfo
}.

Definition emptyWorld : World :=
  {| requests := []; randomCalls := 0; races := 0; reverseCache := [] |}.

Inductive Outcome (A : Type) :=
  | Returns (a : A)
  | Throws (e : JsError).

Arguments Returns {A} a.
Arguments Throws {A} e.

(** An asynchronous computation: from a world to an outcome and the
    world after it. *)
Definition Eff (A : Type) : Type := World -> Outcome A * World.

Definition ret {A : Type} (a : A) : Eff A := fun w => (Returns a, w).

Definition throw {A : Type} (e : JsError) : Eff A := fun w => (Throws e, w).

Definition bind {A B : Type} (c : Eff A) (k : A -> Eff B) : Eff B :=
  fun w =>
    match c w with
    | (Returns a, w') => k a w'
    | (Throws e, w') => (Throws e, w')
    end.

(** [try { c } catch (error) { handler }] *)
Definition tryCatch {A : Type} (c : Eff A) (handler : JsError -> Eff A)
  : Eff A :=
  fun w =>
    match c w with
    | (Returns a, w') => (Returns a, w')
    | (Throws e, w') => handler e w'
    end.

Declare Scope eff_scope.
Delimit Scope eff_scope with eff.
Bind Scope eff_scope with Eff.

Notation "x <- c ;; k" := (bind c (fun x => k))
  (at level 61, c at next level, right associativity) : eff_scope.
Notation "c ;;; k" := (bind c (fun _ => k))
  (at level 61, right associativity) : eff_scope.

Section WithEnv.

Context (env : Env).

(** [await fetch(url, init)] *)
Definition fetch (req : Request) : Eff Response :=
  fun w =>
    let n := List.length (requests w) in
    let w' := {| requests := (requests w ++ [req])%list;
                 randomCalls := randomCalls w;
                 races := races w;
                 reverseCache := reverseCache w |} in
    match network env n req with
    | Responds r => (Returns r, w')
    | FetchRejects e => (Throws e, w')
    end.

(** [await response.json()] *)
Definition json (r : Response) : Eff Body :=
  match body r with
  | Unparsable => throw (SyntaxError "Unexpected token in JSON")
  | b => ret b
  end.

(** [Math.random()] *)
Definition mathRandom : Eff float :=
  fun w =>
    (Returns (random env (randomCalls w)),
     {| requests := requests w;
        randomCalls := S (randomCalls w);
        races := races w;
        reverseCache := reverseCache w |}).

(** [await Promise.race([p, timeoutPromise])] for a promise [p] that is
    already running and a timer that rejects with [timeoutError]: the
    effects of [p] take place either way; its outcome counts only when the
    timer loses. *)
Definition raceWithTimer {A : Type} (p : Eff A) (timeoutError : JsError)
  : Eff A :=
  fun w =>
    let '(outcome, w') := p w in
    let w'' := {| requests := requests w';
                  randomCalls := randomCalls w';
                  races := S (races w');
                  reverseCache := reverseCache w' |} in
    if timerWins env (races w') then (Throws timeoutError, w'')
    else (outcome, w'').

(** [await p] for a promise [p] that has settled with [o]. *)
Definition awaitSettled {A : Type} (o : Outcome A) : Eff A := fun w => (o, w).

Definition cacheGet (key : string) : Eff (option ReverseInfo) :=
  fun w => (Returns (get (reverseCache w) key), w).

Definition cacheSet (key : string) (value : ReverseInfo) : Eff unit :=
  fun w =>
    (Returns tt,
     {| requests := requests w;
        randomCalls := randomCalls w;
        races := races w;
        reverseCache := (key, value) :: reverseCache w |}).

End WithEnv.

(** ** Handlers: asynchronous code over component state

    A handler of a page reads and sets the state of its component; what
    it has set stays set when an exception is thrown later. *)
Definition EffS (S A : Type) : Type := S -> World -> (Outcome A * S) * World.

Definition retS {S A : Type} (a : A) : EffS S A :=
  fun s w => ((Returns a, s), w).

Definition throwS {S A : Type} (e : JsError) : EffS S A :=
  fun s w => ((Throws e, s), w).

Definition bindS {S A B : Type} (c : EffS S A) (k : A -> EffS S B)
  : EffS S B :=
  fun s w =>
    match c s w with
    | ((Returns a, s'), w') => k a s' w'
    | ((Throws e, s'), w') => ((Throws e, s'), w')
    end.

(** [await c] for a service call [c]. *)
Definition liftS {S A : Type} (c : Eff A) : EffS S A :=
  fun s w => let '(o, w') := c w in ((o, s), w').

Definition getS {S : Type} : EffS S S := fun s w => ((Returns s, s), w).

(** A state setter such as [setLoading(true)]. *)
Definition modifyS {S : Type} (f : S -> S) : EffS S unit :=
  fun s w => ((Returns tt, f s), w).

(** [try { c } catch (err) { handler }] *)
Definition tryCatchS {S A : Type} (c : EffS S A)
           (handler : JsError -> EffS S A) : EffS S A :=
  fun s w =>
    match c s w with
    | ((Returns a, s'), w') => ((Returns a, s'), w')
    | ((Throws e, s'), w') => handler e s' w'
    end.

(** [arr.forEach(f)]: an exception ends the iteration. *)
Fixpoint forEachS {S A : Type} (f : A -> EffS S unit) (arr : list A)
  : EffS S unit :=
  match arr with
  | [] => retS tt
  | x :: rest => bindS (f x) (fun _ => forEachS f rest)
  end.

(** [try { c } catch (err) { handler } finally { finalizer }] *)
Definition tryCatchFinallyS {S : Type} (c : EffS S unit)
           (handler : JsError -> EffS S unit) (finalizer : S -> S)
  : EffS S unit :=
  fun s w =>
    let '((o, s'), w') :=
      match c s w with
      | ((Returns a, s'), w') => ((Returns a, s'), w')
      | ((Throws e, s'), w') => handler e s' w'
      end in
    ((o, finalizer s'), w').

Declare Scope effs_scope.
Delimit Scope effs_scope with effs.

Notation "x <- c ;; k" := (bindS c (fun x => k))
  (at level 61, c at next level, right associativity) : effs_scope.
Notation "c ;;; k" := (bindS c (fun _ => k))
  (at level 61, right associativity) : effs_scope.

(** The world after one more request. *)
Definition logged (req : Request) (w : World) : World :=
  {| requests := (requests w ++ [req])%list;
     randomCalls := randomCalls w;
     races := races w;
     reverseCache := reverseCache w |}.

(** A computation that never throws: from every world it returns. *)
Definition total {A : Type} (c : Eff A) : Prop :=
  forall w, exists a w', c w = (Returns a, w').

Definition totalS {S A : Type} (c : EffS S A) : Prop :=
  forall s w, exists a s' w', c s w = ((Returns a, s'), w').

(** The number of requests a computation makes from a given world. *)
Definition requestsMade {A : Type} (c : Eff A) (w : World) : nat :=
  List.length (requests (snd (c w))) - List.length (requests w).

(** A provider that is down: every request is rejected. *)
Definition offline : Env :=
  {| network := fun _ _ => FetchRejects (TypeError "Failed to fetch");
     random := fun _ => 0%float;
     timerWins := fun _ => false |}.

(** A provider that answers every request with an empty result list. *)
Definition emptyResults : Env :=
  {| network := fun _ _ =>
       Responds {| ok := true; status := 200; body := SearchBody [] |};
     random := fun _ => 0.5%float;
     timerWins := fun _ => false |}.

End Eff.

(* ================================================================== *)
(** * Geocoding adapter and place suggestions (Nominatim) *)
(* ================================================================== *)

Module Nominatim.

Import JsNum JsArray Eff.
Open Scope string_scope.
Open Scope eff_scope.

Definition NOMINATIM_BASE_URL : string := "https://nominatim.openstreetmap.org".

Definition get_ (u : string) : Request := {| url := u; postBody := None |}.

Record GeocodeResult := {
  lat : float;
  lng : float;
  address : string;
  resultDisplayName : string
}.

(** The result of [reverseGeocode]. *)
Record AreaInfo := {
  areaAddress : option string;
  areaCity : option string;
  areaState : option string;
  areaCountry : option string
}.

(** An argument that may be [null] or [undefined] instead of a string. *)
Inductive Query :=
  | QNull
  | QUndefined
  | QString (s : string).

(** The optional [near] argument of [getPlaceSuggestions]; a coordinate
    is [Some] when [typeof] gives ['number']. *)
Record Near := {
  nearLat : option float;
  nearLng : option float;
  radiusKm : option float
}.

Record Suggestion := {
  id : Z;
  name : string;
  shortName : string;
  context : string;
  sLat : float;
  sLng : float;
  sType : string;
  sClass : string;
  importance : float;
  sAddress : option Address;
  osm_id : Z;
  osm_type : string;
  sBoundingbox : list string
}.

Section WithEnv.

Context (env : Env) (M : MathLib) (encodeURIComponent : string -> string).

(** The request [geocodeAddress] makes. *)
Definition geocodeRequest (address : string) : Request :=
  get_ (NOMINATIM_BASE_URL ++ "/search?" ++
        "q=" ++ encodeURIComponent address ++ "&" ++
        "format=json&" ++ "limit=1&" ++ "countrycodes=in&" ++
        "addressdetails=1").

(** [geocodeAddress]: address text to coordinates. *)
Definition geocodeAddress (address : string) : Eff GeocodeResult :=
  tryCatch
    (response <- fetch env (geocodeRequest address) ;;
     if negb (ok response) then
       throw (Error ("Nominatim Geocoding failed: " ++ Str.ofZ (status response)))
     else
       data <- json response ;;
       match data with
       | SearchBody (result :: _) =>
           ret {| lat := parseFloat M (itemLat result);
                  lng := parseFloat M (itemLon result);
                  address := display_name result;
                  resultDisplayName := display_name result |}
       | _ => throw (Error "Address not found")
       end)
    (fun error => throw error).

Definition cityOf (a : Address) : option string :=
  Str.orElse (addrCity a)
    (Str.orElse (addrTown a) (Str.orElse (addrVillage a) (addrHamlet a))).

(** [reverseGeocode]: coordinates to an address. *)
Definition reverseGeocode (lat lng : float) : Eff AreaInfo :=
  tryCatch
    (response <- fetch env (get_ (NOMINATIM_BASE_URL ++ "/reverse?" ++
                   "lat=" ++ numToString M lat ++ "&" ++
                   "lon=" ++ numToString M lng ++ "&" ++
                   "format=json&" ++ "addressdetails=1")) ;;
     if negb (ok response) then
       throw (Error ("Nominatim Reverse Geocoding failed: "
                     ++ Str.ofZ (status response)))
     else
       data <- json response ;;
       match data with
       | ReverseBody {| revDisplayName := dn; revAddress := Some a |} =>
           ret {| areaAddress := Some dn;
                  areaCity := cityOf a;
                  areaState := addrState a;
                  areaCountry := addrCountry a |}
       | _ => throw (Error "Location not found")
       end)
    (fun error => throw error).

(** [reverseGeocodeWithTimeout]: cached, and [null] instead of an
    error. *)
Definition reverseGeocodeWithTimeout (lat lng : float) (timeoutMs : Z)
  : Eff (option ReverseInfo) :=
  let key := toFixed M lat 5 ++ "," ++ toFixed M lng 5 in
  cached <- cacheGet key ;;
  match cached with
  | Some value => ret (Some value)
  | None =>
      tryCatch
        (resp <- fetch env (get_ (NOMINATIM_BASE_URL ++ "/reverse?lat=" ++
                   numToString M lat ++ "&lon=" ++ numToString M lng ++
                   "&format=json&addressdetails=1")) ;;
         if negb (ok resp) then ret None
         else
           data <- json resp ;;
           match data with
           | ReverseBody {| revDisplayName := dn; revAddress := Some a |} =>
               let value := {| infoAddress := dn;
                               infoCity := cityOf a;
                               infoState := addrState a;
                               infoCountry := addrCountry a |} in
               cacheSet key value ;;;
               ret (Some value)
           | _ => ret None
           end)
        (fun _ => ret None)
  end.

(** [!query || query.length < 2] *)
Definition tooShort (query : Query) : bool :=
  match query with
  | QNull | QUndefined => true
  | QString s => String.eqb s "" || (String.length s <? 2)%nat
  end.

Definition queryText (query : Query) : string :=
  match query with
  | QNull => "null"
  | QUndefined => "undefined"
  | QString s => s
  end.

(** [a || b] on numbers: zero and NaN are falsy. *)
Definition numOr (a : option float) (b : float) : float :=
  match a with
  | Some x => if isNaN x || (x =? 0)%float then b else x
  | None => b
  end.

Definition hasCoordinates (near : option Near) : option (Near * float * float) :=
  match near with
  | Some n =>
      match nearLat n, nearLng n with
      | Some la, Some lo => Some (n, la, lo)
      | _, _ => None
      end
  | None => None
  end.

Definition toSuggestion (item : SearchItem) : Suggestion :=
  let placeName :=
    match Str.orElse (itemName item)
            (Str.orElse (Some (nth 0 (Str.split "," (display_name item)) ""))
               (match itemAddress item with
                | Some a =>
                    Str.orElse (addrCity a)
                      (Str.orElse (addrTown a)
                         (Str.orElse (addrVillage a)
                            (Str.orElse (addrState a) (Some "Unknown Place"))))
                | None => Some "Unknown Place"
                end)) with
    | Some s => s
    | None => "Unknown Place"
    end in
  let field (f : Address -> option string) : option string :=
    match itemAddress item with
    | Some a => f a
    | None => None
    end in
  let differs (v : option string) (other : string) : list string :=
    match v with
    | Some s => if Str.truthy s && negb (String.eqb s other) then [s] else []
    | None => []
    end in
  let context :=
    (differs (field addrCity) placeName
     ++ differs (field addrState) placeName
     ++ differs (field addrCountry) "India")%list in
  {| id := place_id item;
     name := display_name item;
     shortName := placeName;
     context := Str.join ", " context;
     sLat := parseFloat M (itemLat item);
     sLng := parseFloat M (itemLon item);
     sType := itemType item;
     sClass := itemClass item;
     importance := numOr (Some (parseFloat M (itemImportance item))) 0;
     sAddress := Some match itemAddress item with
                      | Some a => a
                      | None => {| addrCity := None; addrTown := None;
                                   addrVillage := None; addrHamlet := None;
                                   addrState := None; addrCountry := None |}
                      end;
     osm_id := itemOsmId item;
     osm_type := itemOsmType item;
     sBoundingbox := boundingbox item |}.

(** [getPlaceSuggestions(query, limit = 15, near = null)] *)
Definition getPlaceSuggestions (query : Query) (limit : float)
           (near : option Near) : Eff (list Suggestion) :=
  if tooShort query then ret []
  else
    tryCatch
      (let '(viewboxParam, boundedParam) :=
         match hasCoordinates near with
         | Some (n, nlat, nlng) =>
             let radiusKm := numOr (radiusKm n) 25 in
             let latDelta := (radiusKm / 111.32)%float in
             let lngDelta :=
               (radiusKm / (111.32 * cos M (nlat * PI / 180)))%float in
             let minLat := (nlat - latDelta)%float in
             let maxLat := (nlat + latDelta)%float in
             let minLng := (nlng - lngDelta)%float in
             let maxLng := (nlng + lngDelta)%float in
             ("&viewbox=" ++ numToString M minLng ++ "," ++
              numToString M maxLat ++ "," ++ numToString M maxLng ++ "," ++
              numToString M minLat,
              "&bounded=1")
         | None => ("", "")
         end in
       let searchUrl :=
         NOMINATIM_BASE_URL ++ "/search?" ++
         "q=" ++ encodeURIComponent (queryText query) ++ "&" ++
         "format=json&" ++
         "limit=" ++ numToString M limit ++ "&" ++
         "countrycodes=in&" ++
         "addressdetails=1&" ++
         "extratags=1" ++
         "&dedupe=1" ++
         viewboxParam ++
         boundedParam in
       response <- fetch env (get_ searchUrl) ;;
       if negb (ok response) then ret []
       else
         data <- json response ;;
         data <-
           match data with
           | SearchBody [] =>
               let fallbackUrl :=
                 NOMINATIM_BASE_URL ++ "/search?" ++
                 "q=" ++ encodeURIComponent (queryText query) ++ "&" ++
                 "format=json&" ++
                 "limit=" ++ numToString M limit ++ "&" ++
                 "addressdetails=1&" ++
                 "extratags=1" ++
                 "&dedupe=1" in
               fbResp <- fetch env (get_ fallbackUrl) ;;
               if ok fbResp then json fbResp else ret data
           | _ => ret data
           end ;;
         match data with
         | SearchBody [] => ret []
         | SearchBody items =>
             let mapped := map toSuggestion items in
             match hasCoordinates near with
             | Some (_, nlat, nlng) =>
                 ret (JsArray.sort
                        (fun a b =>
                           (Geo.calculateDistance M nlat nlng (sLat a) (sLng a)
                            - Geo.calculateDistance M nlat nlng (sLat b) (sLng b))%float)
                        mapped)
             | None => ret mapped
             end
         | _ => throw (TypeError "data.map is not a function")
         end)
      (fun _ => ret []).

End WithEnv.

End Nominatim.

(* ================================================================== *)
(** * Route engine (directions page) *)
(* ================================================================== *)

Module Directions.

Import JsNum JsArray Eff.
Open Scope string_scope.
Open Scope eff_scope.

(** The travel mode: ['driving'], ['walking'] or ['cycling']. *)
Inductive Mode := driving | walking | cycling.

(** A route endpoint: the fields the engine reads. *)
Record Endpoint := { lat : float; lng : float; name : option string }.

(** [`${end.name}`] *)
Definition nameText (e : Endpoint) : string :=
  match name e with Some n => n | None => "undefined" end.

Module Step.
Record t := {
  instruction : string;
  distance : string;
  duration : string;
  maneuver : string
}.
End Step.

(** The [duration] of a route: minutes as a number, or the label made
    by [calculateDuration]. *)
Inductive Duration :=
  | Minutes (n : float)
  | Label (text : string).

Module Route.
Record t := {
  distance : string;
  duration : Duration;
  steps : list Step.t;
  source : string
}.
End Route.

Section WithEnv.

Context (env : Env) (M : MathLib).

Definition calculateDuration (distance : float) (mode : Mode) : string :=
  let speed :=
    match mode with driving => 50 | walking => 5 | cycling => 15 end%float in
  let hours := (distance / speed)%float in
  let minutes := round M (hours * 60)%float in
  if (minutes <? 60)%float then numToString M minutes ++ " min"
  else
    let hrs := floor M (minutes / 60)%float in
    let mins := rem M minutes 60 in
    numToString M hrs ++ "h " ++ numToString M mins ++ "m".

Definition maneuverMap : Obj string := [
  ("turn-left", "Turn left");
  ("turn-right", "Turn right");
  ("turn-sharp-left", "Turn sharp left");
  ("turn-sharp-right", "Turn sharp right");
  ("turn-slight-left", "Turn slight left");
  ("turn-slight-right", "Turn slight right");
  ("continue", "Continue straight");
  ("merge", "Merge");
  ("ramp-left", "Take the ramp on the left");
  ("ramp-right", "Take the ramp on the right");
  ("fork-left", "Keep left at the fork");
  ("fork-right", "Keep right at the fork");
  ("roundabout-enter", "Enter the roundabout");
  ("roundabout-exit", "Exit the roundabout");
  ("uturn", "Make a U-turn");
  ("depart", "Start your journey");
  ("arrive", "You have arrived at your destination") ].

(** The instruction normaliser.  (A maneuver type naming a member of
    [Object.prototype] is not distinguished from an unknown one.) *)
Definition enhanceInstruction (instruction maneuverType : option string)
  : string :=
  match instruction with
  | None => "Continue straight"
  | Some instruction =>
      if negb (Str.truthy instruction) then "Continue straight"
      else
        let known :=
          match maneuverType with
          | Some t => if Str.truthy t then get maneuverMap t else None
          | None => None
          end in
        match known with
        | Some phrase => phrase
        | None =>
            let enhanced := Str.toLowerCase instruction in
            let enhanced := Str.replaceAll "turn" "Turn" enhanced in
            let enhanced := Str.replaceAll "left" "left" enhanced in
            let enhanced := Str.replaceAll "right" "right" enhanced in
            let enhanced := Str.replaceAll "straight" "straight" enhanced in
            let enhanced := Str.replaceAll "continue" "Continue" enhanced in
            let enhanced :=
              if Str.includes "left" enhanced
                 && negb (Str.includes "turn" enhanced)
              then Str.replaceFirst "left" "Turn left" enhanced
              else enhanced in
            let enhanced :=
              if Str.includes "right" enhanced
                 && negb (Str.includes "turn" enhanced)
              then Str.replaceFirst "right" "Turn right" enhanced
              else enhanced in
            Str.capitalize enhanced
        end
  end.

Definition calculateBearing (lat1 lng1 lat2 lng2 : float) : float :=
  let dLng := ((lng2 - lng1) * PI / 180)%float in
  let lat1Rad := (lat1 * PI / 180)%float in
  let lat2Rad := (lat2 * PI / 180)%float in
  let y := (sin M dLng * cos M lat2Rad)%float in
  let x := (cos M lat1Rad * sin M lat2Rad
            - sin M lat1Rad * cos M lat2Rad * cos M dLng)%float in
  let bearing := (atan2 M y x * 180 / PI)%float in
  rem M (bearing + 360)%float 360.

Definition getCardinalDirection (bearing : float) : string :=
  let directions :=
    ["north"; "northeast"; "east"; "southeast"; "south"; "southwest";
     "west"; "northwest"] in
  let index := rem M (round M (bearing / 45)%float) 8 in
  match at_ directions index with
  | Some d => d
  | None => "undefined"
  end.

Definition speedOf (mode : Mode) : float :=
  match mode with driving => 50 | cycling => 15 | walking => 5 end.

Definition approachSpeedOf (mode : Mode) : float :=
  match mode with driving => 30 | cycling => 10 | walking => 4 end.

Definition minutesLabel (km : float) (speed : float) : string :=
  numToString M (round M (km / speed * 60)%float) ++ " min".

(** One pass of the loop over the middle segments. *)
Definition middleStep (totalDistance segments : float) (mode : Mode)
  : Eff Step.t :=
  let segmentDistance := (totalDistance * 0.6 / segments)%float in
  let turns := ["Turn right"; "Continue straight"; "Turn left";
                "Turn slight right"; "Turn slight left"] in
  r <- mathRandom env ;;
  let randomTurn := at_ turns (floor M (r * ofNat (List.length turns))%float) in
  roadType <-
    (match mode with
     | driving =>
         r <- mathRandom env ;;
         ret (at_ ["Main Street"; "Highway"; "Boulevard"; "Avenue"]
                  (floor M (r * 4)%float))
     | cycling =>
         r <- mathRandom env ;;
         ret (at_ ["bike path"; "cycle lane"; "shared road"]
                  (floor M (r * 3)%float))
     | walking =>
         r <- mathRandom env ;;
         ret (at_ ["sidewalk"; "pedestrian path"; "walkway"]
                  (floor M (r * 3)%float))
     end) ;;
  let text (o : option string) :=
    match o with Some v => v | None => "undefined" end in
  match randomTurn with
  | None =>
      throw (TypeError "Cannot read properties of undefined (reading 'includes')")
  | Some turn =>
      ret {| Step.instruction :=
               turn ++ " onto " ++ text roadType ++ " and continue for "
               ++ toFixed M segmentDistance 1 ++ " km";
             Step.distance := toFixed M segmentDistance 1 ++ " km";
             Step.duration := minutesLabel segmentDistance (speedOf mode);
             Step.maneuver :=
               if Str.includes "right" turn then "turn-right"
               else if Str.includes "left" turn then "turn-left"
               else "continue" |}
  end.

Fixpoint middleSteps (n : nat) (totalDistance segments : float) (mode : Mode)
  : Eff (list Step.t) :=
  match n with
  | O => ret []
  | S n' =>
      step <- middleStep totalDistance segments mode ;;
      rest <- middleSteps n' totalDistance segments mode ;;
      ret (step :: rest)
  end.

(** [generateEnhancedMockRoute]: the synthesised route. *)
Definition generateEnhancedMockRoute (start end_ : Endpoint) (mode : Mode)
  : Eff Route.t :=
  let totalDistance :=
    Geo.calculateDistance M (lat start) (lng start) (lat end_) (lng end_) in
  let bearing :=
    calculateBearing (lat start) (lng start) (lat end_) (lng end_) in
  let depart :=
    {| Step.instruction :=
         "Start " ++ match mode with
                     | driving => "driving"
                     | cycling => "cycling"
                     | walking => "walking"
                     end ++ " from your location";
       Step.distance := "0 km";
       Step.duration := "0 min";
       Step.maneuver := "depart" |} in
  let direction := getCardinalDirection bearing in
  let initialTurn :=
    if (180 <? bearing)%float then "Turn left"
    else if (bearing <? 180)%float && (0 <? bearing)%float then "Turn right"
    else "Continue straight" in
  let firstLeg := min 0.5 (totalDistance * 0.1)%float in
  let initial :=
    {| Step.instruction :=
         initialTurn ++ " and head " ++ direction ++ " towards "
         ++ nameText end_;
       Step.distance := toFixed M firstLeg 1 ++ " km";
       Step.duration := minutesLabel firstLeg (speedOf mode);
       Step.maneuver :=
         if (180 <? bearing)%float then "turn-left"
         else if (bearing <? 180)%float && (0 <? bearing)%float
              then "turn-right"
              else "continue" |} in
  middle <-
    (if (2 <? totalDistance)%float then
       let segments := min 3 (floor M (totalDistance / 2)%float) in
       middleSteps (loopCount segments) totalDistance segments mode
     else ret []) ;;
  let finalDistance := max 0.1 (totalDistance * 0.1)%float in
  r <- mathRandom env ;;
  let finalTurn := if (0.5 <? r)%float then "Turn right" else "Turn left" in
  let final :=
    {| Step.instruction := finalTurn ++ " towards " ++ nameText end_;
       Step.distance := toFixed M finalDistance 1 ++ " km";
       Step.duration := minutesLabel finalDistance (approachSpeedOf mode);
       Step.maneuver :=
         if Str.includes "right" finalTurn then "turn-right"
         else "turn-left" |} in
  let arrive :=
    {| Step.instruction := "Arrive at " ++ nameText end_;
       Step.distance := "0 km";
       Step.duration := "0 min";
       Step.maneuver := "arrive" |} in
  ret {| Route.distance := toFixed M totalDistance 1;
         Route.duration :=
           Minutes (round M (totalDistance / speedOf mode * 60)%float);
         Route.steps := ([depart; initial] ++ middle ++ [final; arrive])%list;
         Route.source := "enhanced_mock" |}.

Definition orsRequest (start end_ : Endpoint) (mode : Mode) : Request :=
  let profile :=
    match mode with
    | driving => "driving-car"
    | cycling => "cycling-regular"
    | walking => "foot-walking"
    end in
  {| url := "https://api.openrouteservice.org/v2/directions/" ++ profile
            ++ "?api_key=5b3ce3597851110001cf6248YOUR_API_KEY&start="
            ++ numToString M (lng start) ++ "," ++ numToString M (lat start)
            ++ "&end=" ++ numToString M (lng end_) ++ ","
            ++ numToString M (lat end_) ++ "&format=json&instructions=true";
     postBody := None |}.

Definition osrmRequest (start end_ : Endpoint) (mode : Mode) : Request :=
  let profile :=
    match mode with driving => "car" | cycling => "bike" | walking => "foot"
    end in
  {| url := "https://router.project-osrm.org/route/v1/" ++ profile ++ "/"
            ++ numToString M (lng start) ++ "," ++ numToString M (lat start)
            ++ ";" ++ numToString M (lng end_) ++ ","
            ++ numToString M (lat end_)
            ++ "?steps=true&annotations=true&overview=false";
     postBody := None |}.

Definition kmLabel (metres : float) : string :=
  toFixed M (metres / 1000)%float 1 ++ " km".

Definition minLabel (seconds : float) : string :=
  numToString M (round M (seconds / 60)%float) ++ " min".

Definition orsStep (step : ProviderStep) : Step.t :=
  {| Step.instruction :=
       enhanceInstruction (stepInstruction step) (stepManeuverType step);
     Step.distance := kmLabel (stepDistance step);
     Step.duration := minLabel (stepDuration step);
     Step.maneuver :=
       match stepManeuverType step with
       | Some t => if Str.truthy t then t else "continue"
       | None => "continue"
       end |}.

(** OSRM steps always carry a maneuver with a type. *)
Definition osrmStep (step : ProviderStep) : Step.t :=
  let type := match stepManeuverType step with Some t => t | None => "undefined" end in
  {| Step.instruction :=
       enhanceInstruction
         (Some match Str.orElse (stepInstruction step) None with
               | Some i => i
               | None => type ++ " for " ++ kmLabel (stepDistance step)
               end)
         (stepManeuverType step);
     Step.distance := kmLabel (stepDistance step);
     Step.duration := minLabel (stepDuration step);
     Step.maneuver := type |}.

(** One provider attempt of [fetchRealRoute]: [Some route] when the
    [try] block returns, [None] when it falls through or its error is
    caught. *)
Definition tryProvider (req : Request) (errorText : string)
           (routeOf : Body -> option Route.t) : Eff (option Route.t) :=
  tryCatch
    (response <- fetch env req ;;
     if negb (ok response) then throw (Error errorText)
     else
       data <- json response ;;
       ret (routeOf data))
    (fun _ => ret None).

Definition orsRoute (data : Body) : option Route.t :=
  match data with
  | OrsBody (route :: _) =>
      Some {| Route.distance := toFixed M (routeDistance route / 1000)%float 1;
              Route.duration := Minutes (round M (routeDuration route / 60)%float);
              Route.steps := map orsStep (routeSteps route);
              Route.source := "openrouteservice" |}
  | _ => None
  end.

Definition osrmRoute (data : Body) : option Route.t :=
  match data with
  | OsrmBody (route :: _) =>
      Some {| Route.distance := toFixed M (routeDistance route / 1000)%float 1;
              Route.duration := Minutes (round M (routeDuration route / 60)%float);
              Route.steps := map osrmStep (routeSteps route);
              Route.source := "osrm" |}
  | _ => None
  end.

(** [fetchRealRoute]: OpenRouteService, then OSRM, then the synthesised
    route. *)
Definition fetchRealRoute (start end_ : Endpoint) (mode : Mode)
  : Eff Route.t :=
  first <- tryProvider (orsRequest start end_ mode) "OpenRouteService failed"
                       orsRoute ;;
  match first with
  | Some route => ret route
  | None =>
      second <- tryProvider (osrmRequest start end_ mode) "OSRM failed"
                            osrmRoute ;;
      match second with
      | Some route => ret route
      | None => generateEnhancedMockRoute start end_ mode
      end
  end.

(** A provider attempt fails: the request is rejected (network failure,
    abort), the status is not a success, the body does not parse, or it
    holds no route. *)
Definition providerFails (routeOf : Body -> option Route.t)
           (o : FetchOutcome) : bool :=
  match o with
  | FetchRejects _ => true
  | Responds r =>
      negb (ok r)
      || match body r with
         | Unparsable => true
         | b => match routeOf b with Some _ => false | None => true end
         end
  end.

(** [Math.floor(Math.random() * 5)] is one of the indices 0 to 4, as
    [Math.random] returns a number in the interval [0, 1). *)
Definition turnIndexInRange : Prop :=
  forall n, exists k,
    toIndex (floor M (random env n * 5)%float) = Some k /\ (k < 5)%nat.

(** The state of the directions page that the handlers read and
    write. *)
Record Page := {
  sourceInput : string;
  sourceLocation : option Endpoint;
  destination : option Endpoint;
  travelMode : Mode;
  routeInfo : option Route.t;
  loading : bool;
  locationLoading : bool;
  useCurrentLocation : bool;
  error : option string
}.

Definition setLoading (v : bool) (p : Page) : Page :=
  {| sourceInput := sourceInput p; sourceLocation := sourceLocation p;
     destination := destination p; travelMode := travelMode p;
     routeInfo := routeInfo p; loading := v;
     locationLoading := locationLoading p;
     useCurrentLocation := useCurrentLocation p; error := error p |}.

Definition setRouteInfo (v : Route.t) (p : Page) : Page :=
  {| sourceInput := sourceInput p; sourceLocation := sourceLocation p;
     destination := destination p; travelMode := travelMode p;
     routeInfo := Some v; loading := loading p;
     locationLoading := locationLoading p;
     useCurrentLocation := useCurrentLocation p; error := error p |}.

Definition setLocationLoading (v : bool) (p : Page) : Page :=
  {| sourceInput := sourceInput p; sourceLocation := sourceLocation p;
     destination := destination p; travelMode := travelMode p;
     routeInfo := routeInfo p; loading := loading p;
     locationLoading := v;
     useCurrentLocation := useCurrentLocation p; error := error p |}.

Definition setError (v : option string) (p : Page) : Page :=
  {| sourceInput := sourceInput p; sourceLocation := sourceLocation p;
     destination := destination p; travelMode := travelMode p;
     routeInfo := routeInfo p; loading := loading p;
     locationLoading := locationLoading p;
     useCurrentLocation := useCurrentLocation p; error := v |}.

Definition setSourceLocation (v : Endpoint) (p : Page) : Page :=
  {| sourceInput := sourceInput p; sourceLocation := Some v;
     destination := destination p; travelMode := travelMode p;
     routeInfo := routeInfo p; loading := loading p;
     locationLoading := locationLoading p;
     useCurrentLocation := useCurrentLocation p; error := error p |}.

Definition setUseCurrentLocation (v : bool) (p : Page) : Page :=
  {| sourceInput := sourceInput p; sourceLocation := sourceLocation p;
     destination := destination p; travelMode := travelMode p;
     routeInfo := routeInfo p; loading := loading p;
     locationLoading := locationLoading p;
     useCurrentLocation := v; error := error p |}.

(** [calculateRoute]: the route computation the page runs. *)
Definition calculateRoute (start end_ : Endpoint) : EffS Page unit :=
  (page <- getS ;;
   let travelMode := travelMode page in
   tryCatchFinallyS
     (modifyS (setLoading true) ;;;
      routeData <- liftS (fetchRealRoute start end_ travelMode) ;;
      modifyS (setRouteInfo routeData))
     (fun _ =>
        let distance :=
          Geo.calculateDistance M (lat start) (lng start)
                                (lat end_) (lng end_) in
        mock <- liftS (generateEnhancedMockRoute start end_ travelMode) ;;
        modifyS (setRouteInfo
                   {| Route.distance := toFixed M distance 1;
                      Route.duration :=
                        Label (calculateDuration distance travelMode);
                      Route.steps := Route.steps mock;
                      Route.source := "fallback" |}))
     (setLoading false))%effs.

(** [handleSourceAddressSearch]: the address box of the directions
    page. *)
Definition handleSourceAddressSearch (encodeURIComponent : string -> string)
  : EffS Page unit :=
  (page <- getS ;;
   if negb (Str.truthy (Str.trim (sourceInput page))) then retS tt
   else
     tryCatchFinallyS
       (modifyS (setLocationLoading true) ;;;
        modifyS (setError None) ;;;
        location <- liftS (Nominatim.geocodeAddress env M encodeURIComponent
                             (sourceInput page)) ;;
        let source := {| lat := Nominatim.lat location;
                         lng := Nominatim.lng location;
                         name := None |} in
        modifyS (setSourceLocation source) ;;;
        modifyS (setUseCurrentLocation false) ;;;
        (match destination page with
         | Some dest => calculateRoute source dest
         | None => retS tt
         end) ;;;
        modifyS (setError None))
       (fun err =>
          modifyS (setError (Some ("Unable to find the specified address: "
                                   ++ message err))))
       (setLocationLoading false))%effs.

End WithEnv.

(** Two points in Delhi, the second named. *)
Definition fromPoint : Endpoint :=
  {| lat := 28.6; lng := 77.2; name := None |}.

Definition toPoint : Endpoint :=
  {| lat := 28.7; lng := 77.3; name := Some "India Gate" |}.

(** The directions page with only white space in the address box. *)
Definition blankPage : Page :=
  {| sourceInput := "   "; sourceLocation := None;
     destination := Some toPoint; travelMode := walking; routeInfo := None;
     loading := false; locationLoading := false;
     useCurrentLocation := false; error := None |}.

End Directions.

(* ================================================================== *)
(** * Places source aggregator (Overpass) *)
(* ================================================================== *)

Module Aggregator.

Import JsNum JsArray Eff Categories Categorize.
Open Scope string_scope.

Definition OVERPASS_SERVERS : list string := [
  "https://overpass-api.de/api/interpreter";
  "https://overpass.kumi.systems/api/interpreter";
  "https://overpass.openstreetmap.ru/api/interpreter" ].

(** A number used as a condition: zero and NaN are falsy. *)
Definition truthyNum (x : float) : bool :=
  negb (isNaN x || (x =? 0)%float).

(** [a || b] on numbers that may be undefined. *)
Definition orNum (a b : option float) : option float :=
  match a with
  | Some x => if truthyNum x then a else b
  | None => b
  end.

(** [tags[k]] as a condition and a value: a non-empty string. *)
Definition tag (tags : Obj string) (k : string) : option string :=
  match get tags k with
  | Some v => if Str.truthy v then Some v else None
  | None => None
  end.

Definition formatOSMAddress (tags : option (Obj string)) : string :=
  match tags with
  | None => "Address not available"
  | Some tags =>
      let part (k : string) : list string :=
        match tag tags k with Some v => [v] | None => [] end in
      let addressParts :=
        (part "addr:housenumber" ++ part "addr:street" ++ part "addr:suburb"
         ++ part "addr:city" ++ part "addr:state")%list in
      if (0 <? List.length addressParts)%nat then Str.join ", " addressParts
      else
        match tag tags "name" with
        | Some n => "Near " ++ n
        | None =>
            match tag tags "addr:city" with
            | Some c => c
            | None => "Address not available"
            end
        end
  end.

(** [results[categoryKey].push(place)] *)
Definition push (categoryKey : string) (place : Place.t)
           (results : PlacesByCategory) : PlacesByCategory :=
  map (fun entry =>
         if String.eqb (fst entry) categoryKey
         then (fst entry, (snd entry ++ [place])%list)
         else entry)
      results.

(** Every category with an empty list. *)
Definition emptyCategories : PlacesByCategory :=
  map (fun key => (key, [])) (keys PLACE_CATEGORIES).

(** [Object.values(data).reduce((sum, places) => sum + places.length, 0)] *)
Definition totalPlaces (data : PlacesByCategory) : nat :=
  fold_left (fun sum entry => (sum + List.length (snd entry))%nat) data 0%nat.

Section WithEnv.

Context (env : Env) (M : MathLib) (encodeURIComponent : string -> string).

Definition overpassQuery (lat lng radius : float) : string :=
  let radiusMeters := numToString M (min (radius * 1000) 1500) in
  let around := "(around:" ++ radiusMeters ++ "," ++ numToString M lat ++ ","
                ++ numToString M lng ++ ");" in
  Str.nl ++ "    [out:json][timeout:8];" ++
  Str.nl ++ "    (" ++
  Str.nl ++ "      node[" ++ Str.quote ++ "amenity" ++ Str.quote ++ "~"
         ++ Str.quote ++ "^(restaurant|fuel|hospital|bank|atm)" ++ Str.quote
         ++ "]" ++ around ++
  Str.nl ++ "      node[" ++ Str.quote ++ "shop" ++ Str.quote ++ "~"
         ++ Str.quote ++ "^(supermarket|convenience)" ++ Str.quote
         ++ "]" ++ around ++
  Str.nl ++ "      node[" ++ Str.quote ++ "tourism" ++ Str.quote ++ "~"
         ++ Str.quote ++ "^(hotel|attraction)" ++ Str.quote
         ++ "]" ++ around ++
  Str.nl ++ "    );" ++
  Str.nl ++ "    out center 25;" ++
  Str.nl ++ "  ".

Definition overpassRequest (lat lng radius : float) (serverUrl : string)
  : Request :=
  {| url := serverUrl;
     postBody := Some ("data=" ++ encodeURIComponent
                                    (overpassQuery lat lng radius)) |}.

(** The callback of [data.elements.forEach]: one raw element. *)
Definition processElement (lat lng radius : float) (element : Element)
  : EffS PlacesByCategory unit :=
  let elementLat :=
    orNum (elLat element)
          (match elCenter element with Some c => Some (fst c) | None => None end) in
  let elementLng :=
    orNum (elLon element)
          (match elCenter element with Some c => Some (snd c) | None => None end) in
  match elementLat, elementLng with
  | Some elementLat, Some elementLng =>
      if negb (truthyNum elementLat) || negb (truthyNum elementLng)
      then retS tt
      else
        let distance := Geo.calculateDistance M lat lng elementLat elementLng in
        if (radius <? distance)%float then retS tt
        else
          match determineCategoryFromTags (elTags element) with
          | Null => retS tt
          | Member _ =>
              throwS (TypeError "Cannot read properties of undefined (reading 'name')")
          | Key categoryKey =>
              match get PLACE_CATEGORIES categoryKey, elTags element with
              | Some category, Some tags =>
                  let name :=
                    match Str.orElse (tag tags "name")
                            (Str.orElse (tag tags "brand") (tag tags "operator"))
                    with
                    | Some n => n
                    | None => Str.dropLast (Categories.name category)
                    end in
                  bindS (liftS (mathRandom env)) (fun r =>
                  let place :=
                    {| Place.id := "osm_" ++ categoryKey ++ "_"
                                   ++ Str.ofZ (elId element);
                       Place.name := name;
                       Place.category := categoryKey;
                       Place.categoryName := Categories.name category;
                       Place.icon := Categories.icon category;
                       Place.lat := elementLat;
                       Place.lng := elementLng;
                       Place.distance := (round M (distance * 100) / 100)%float;
                       Place.address := formatOSMAddress (Some tags);
                       Place.phone :=
                         Str.orElse (tag tags "phone") (tag tags "contact:phone");
                       Place.website :=
                         Str.orElse (tag tags "website")
                                    (tag tags "contact:website");
                       Place.opening_hours := tag tags "opening_hours";
                       Place.rating :=
                         (round M ((r * 1.5 + 3.5) * 10) / 10)%float;
                       Place.type := Place.osm;
                       Place.city := None;
                       Place.state := None;
                       Place.country := None;
                       Place.isPopular := None |} in
                  modifyS (push categoryKey place))
              | _, _ =>
                  throwS (TypeError "Cannot read properties of undefined (reading 'name')")
              end
          end
  | _, _ => retS tt
  end.

(** Sort each category by distance and keep the first eight. *)
Definition sortAndLimit (results : PlacesByCategory) : PlacesByCategory :=
  map (fun entry =>
         (fst entry, firstn 8 (JsArray.sort Merge.byDistance (snd entry))))
      results.

(** One pass of the loop over the servers: [true] when the function
    returns from inside the loop, [false] when the loop goes on. *)
Definition tryServer (lat lng radius : float) (serverUrl : string)
  : EffS PlacesByCategory bool :=
  tryCatchS
    (bindS (liftS (fetch env (overpassRequest lat lng radius serverUrl)))
       (fun response =>
          if negb (ok response) then retS false
          else
            bindS (liftS (json response)) (fun data =>
              match data with
              | OverpassBody (Some (first :: rest)) =>
                  bindS (forEachS (processElement lat lng radius)
                                  (first :: rest)) (fun _ =>
                  bindS (modifyS sortAndLimit) (fun _ =>
                  retS true))
              | _ => retS false
              end)))
    (fun _ => retS false).

Fixpoint tryServers (lat lng radius : float) (servers : list string)
  : EffS PlacesByCategory bool :=
  match servers with
  | [] => retS false
  | serverUrl :: rest =>
      bindS (tryServer lat lng radius serverUrl) (fun returned =>
        if returned then retS true else tryServers lat lng radius rest)
  end.

(** [fetchRealPlacesFromOverpass]: whether it leaves the loop by its
    [return] or by exhausting the servers, it returns [results]. *)
Definition fetchRealPlacesFromOverpass (lat lng radius : float)
  : Eff PlacesByCategory :=
  fun w =>
    match tryServers lat lng radius OVERPASS_SERVERS emptyCategories w with
    | ((Returns _, results), w') => (Returns results, w')
    | ((Throws e, _), w') => (Throws e, w')
    end.

End WithEnv.

End Aggregator.

(* ================================================================== *)
(** * Synthetic places: the verified-style generator *)
(* ================================================================== *)

Module Verified.

Import JsNum JsArray Eff Categories Nominatim.
Open Scope string_scope.
Open Scope eff_scope.

Definition unknownArea : AreaInfo :=
  {| areaAddress := None; areaCity := Some "Unknown City";
     areaState := Some "Unknown State"; areaCountry := Some "India" |}.

(** [areaInfo.city || 'City'] *)
Definition cityName (areaInfo : AreaInfo) : string :=
  match Str.orElse (areaCity areaInfo) (Some "City") with
  | Some c => c
  | None => "City"
  end.

Definition getRealisticBusinessNames (categoryKey : string)
           (areaInfo : AreaInfo) : list string :=
  let city := cityName areaInfo in
  let cityPrefix := nth 0 (Str.split " " city) "" in
  let businessTemplates : Obj (list string) := [
    ("restaurant",
     [cityPrefix ++ " Dhaba"; "Royal Restaurant"; "Punjabi Tadka";
      "South Indian Corner"; "Biryani House"; "Family Restaurant";
      "Hotel " ++ cityPrefix; "Spice Garden"; "Maharaja Restaurant";
      "Golden Palace"; "Taste of India"; "Local Kitchen"]);
    ("cafe",
     ["Chai Point " ++ cityPrefix; "Coffee Day"; "Brew & Beans";
      "Tea Junction"; "Cafe Mocha"; cityPrefix ++ " Coffee House";
      "Bean There"; "Espresso Corner"; "Tea Time Cafe"; "Coffee Culture";
      "Barista Cafe"; "Steam & Beans"]);
    ("lodging",
     ["Hotel " ++ cityPrefix; "OYO Rooms"; "Guest House"; "Lodge Palace";
      cityPrefix ++ " Inn"; "Comfort Stay"; "Budget Hotel";
      "Traveler's Rest"; "City Hotel"; "Royal Lodge"; "Business Hotel";
      "Tourist Inn"]);
    ("gas_station",
     ["Indian Oil Petrol Pump"; "HP Petrol Station"; "Bharat Petroleum";
      "Reliance Petrol Pump"; "Shell Station";
      "Fuel Station " ++ cityPrefix; "Petrol Bunk"; "Energy Station"]);
    ("shopping",
     [cityPrefix ++ " Market"; "Big Bazaar"; "Reliance Fresh";
      "More Supermarket"; "Local Market"; "City Mall"; "Super Market";
      "General Store"; "Kirana Store"; "Provision Store"; "Mini Mart";
      "Shopping Center"]);
    ("hospital",
     [cityPrefix ++ " Hospital"; "City Clinic"; "Health Center";
      "Medical Center"; "Multispecialty Hospital"; "Government Hospital";
      "Nursing Home"; "Apollo Clinic"; "Max Healthcare"; "Fortis Clinic"]);
    ("bank",
     ["State Bank of India"; "HDFC Bank"; "ICICI Bank"; "Axis Bank";
      "Punjab National Bank"; "Bank of Baroda"; "Canara Bank"; "Union Bank";
      "Yes Bank"; "Kotak Bank"; "ATM Center"]);
    ("transport",
     [cityPrefix ++ " Railway Station"; "Bus Stand"; "Metro Station";
      "Auto Stand"; "Taxi Stand"; "Bus Terminal"; "Transport Hub";
      "ISBT " ++ cityPrefix]);
    ("entertainment",
     [cityPrefix ++ " Park"; "City Garden"; "PVR Cinemas"; "INOX";
      "Fun City"; "Entertainment Zone"; "Amusement Park";
      "Recreation Center"]) ] in
  match get businessTemplates categoryKey with
  | Some names => names
  | None => [cityPrefix ++ " " ++ categoryKey; "Local " ++ categoryKey]
  end.

(** [`${x}`] for a value that may be undefined. *)
Definition text (o : option string) : string :=
  match o with Some v => v | None => "undefined" end.

Section WithEnv.

Context (env : Env) (M : MathLib).

Definition generateAreaBasedAddress (areaInfo : AreaInfo) (index : nat)
  : Eff string :=
  r <- mathRandom env ;;
  let houseNo := (floor M (r * 999) + 1)%float in
  let streets := ["Main Road"; "Station Road"; "Market Road"; "Gandhi Road";
                  "Nehru Street"; "MG Road"] in
  let areas := ["City Center"; "Market Area"; "Station Area"; "Civil Lines";
                "Model Town"] in
  let street := nth_error streets (index mod List.length streets) in
  let area := nth_error areas (index mod List.length areas) in
  let city := cityName areaInfo in
  ret (numToString M houseNo ++ ", " ++ text street ++ ", " ++ text area
       ++ ", " ++ city).

Definition generateRealisticPhone : Eff string :=
  let prefixes := ["+91-98"; "+91-99"; "+91-97"; "+91-96"; "+91-95"] in
  r <- mathRandom env ;;
  let prefix :=
    at_ prefixes (floor M (r * ofNat (List.length prefixes))%float) in
  r <- mathRandom env ;;
  let number := (floor M (r * 90000000) + 10000000)%float in
  ret (text prefix ++ Str.take 8 (numToString M number)).

Definition generateRealisticOpeningHours (categoryKey : string)
  : Eff (option string) :=
  let schedules : Obj (list string) := [
    ("restaurant", ["9:00 AM - 11:00 PM"; "11:00 AM - 10:30 PM";
                    "8:00 AM - 10:00 PM"]);
    ("cafe", ["7:00 AM - 10:00 PM"; "8:00 AM - 9:00 PM";
              "6:00 AM - 11:00 PM"]);
    ("lodging", ["24 Hours"; "Check-in: 2:00 PM, Check-out: 12:00 PM"]);
    ("gas_station", ["24 Hours"; "6:00 AM - 10:00 PM"]);
    ("shopping", ["9:00 AM - 9:00 PM"; "10:00 AM - 8:00 PM";
                  "8:00 AM - 10:00 PM"]);
    ("hospital", ["24 Hours"; "9:00 AM - 6:00 PM"; "8:00 AM - 8:00 PM"]);
    ("bank", ["10:00 AM - 4:00 PM"; "9:30 AM - 3:30 PM";
              "10:00 AM - 5:00 PM"]);
    ("transport", ["24 Hours"; "5:00 AM - 11:00 PM"]);
    ("entertainment", ["10:00 AM - 10:00 PM"; "9:00 AM - 9:00 PM";
                       "11:00 AM - 11:00 PM"]) ] in
  let categorySchedules :=
    match get schedules categoryKey with
    | Some l => l
    | None => ["9:00 AM - 9:00 PM"]
    end in
  r <- mathRandom env ;;
  ret (at_ categorySchedules
           (floor M (r * ofNat (List.length categorySchedules))%float)).

(** The body of the loop of [generateRealisticPlacesForCategory]. *)
Definition realisticPlace (categoryKey : string) (category : Category)
           (centerLat centerLng radius : float) (areaInfo : AreaInfo)
           (businessNames : list string) (i : nat) : Eff Place.t :=
  let maxPlaces := 8%float in
  r <- mathRandom env ;;
  let angle := (ofNat i / maxPlaces * 2 * PI + (r - 0.5) * 0.5)%float in
  r <- mathRandom env ;;
  let distance := (r * radius * 0.8 + 0.5)%float in
  let latOffset := (distance / 111.32 * cos M angle)%float in
  let lngOffset :=
    (distance / (111.32 * cos M (centerLat * PI / 180)) * sin M angle)%float in
  let placeLat := (centerLat + latOffset)%float in
  let placeLng := (centerLng + lngOffset)%float in
  let actualDistance :=
    Geo.calculateDistance M centerLat centerLng placeLat placeLng in
  let businessName :=
    nth (i mod List.length businessNames) businessNames "" in
  address <- generateAreaBasedAddress areaInfo i ;;
  phone <- generateRealisticPhone ;;
  r <- mathRandom env ;;
  let website :=
    if (0.7 <? r)%float
    then Some ("https://www." ++ Str.keepAlnum (Str.toLowerCase businessName)
               ++ ".com")
    else None in
  opening_hours <- generateRealisticOpeningHours categoryKey ;;
  r <- mathRandom env ;;
  ret {| Place.id := "verified_" ++ categoryKey ++ "_"
                     ++ toFixed M centerLat 4 ++ "_" ++ toFixed M centerLng 4
                     ++ "_" ++ Str.ofZ (Z.of_nat i);
         Place.name := businessName;
         Place.category := categoryKey;
         Place.categoryName := Categories.name category;
         Place.icon := Categories.icon category;
         Place.lat := placeLat;
         Place.lng := placeLng;
         Place.distance := (round M (actualDistance * 100) / 100)%float;
         Place.address := address;
         Place.phone := Some phone;
         Place.website := website;
         Place.opening_hours := opening_hours;
         Place.rating := (round M ((r * 1.5 + 3.5) * 10) / 10)%float;
         Place.type := Place.verified_mock;
         Place.city := areaCity areaInfo;
         Place.state := areaState areaInfo;
         Place.country := None;
         Place.isPopular := None |}.

(** [for ... of] over a list, collecting the results. *)
Fixpoint forEach {A B : Type} (f : A -> Eff B) (l : list A) : Eff (list B) :=
  match l with
  | [] => ret []
  | x :: rest =>
      y <- f x ;;
      ys <- forEach f rest ;;
      ret (y :: ys)
  end.

Definition generateRealisticPlacesForCategory
           (categoryKey : string) (category : Category)
           (centerLat centerLng radius : float) (areaInfo : AreaInfo)
  : Eff (list Place.t) :=
  let maxPlaces := 8%nat in
  let businessNames := getRealisticBusinessNames categoryKey areaInfo in
  places <- forEach (realisticPlace categoryKey category centerLat centerLng
                                    radius areaInfo businessNames)
                    (seq 0 maxPlaces) ;;
  ret (JsArray.sort Merge.byDistance places).

(** [place.address = info.address; place.city = ...] on one place. *)
Definition withAddress (address : string) (city state country : option string)
           (place : Place.t) : Place.t :=
  {| Place.id := Place.id place;
     Place.name := Place.name place;
     Place.category := Place.category place;
     Place.categoryName := Place.categoryName place;
     Place.icon := Place.icon place;
     Place.lat := Place.lat place;
     Place.lng := Place.lng place;
     Place.distance := Place.distance place;
     Place.address := address;
     Place.phone := Place.phone place;
     Place.website := Place.website place;
     Place.opening_hours := Place.opening_hours place;
     Place.rating := Place.rating place;
     Place.type := Place.type place;
     Place.city := city;
     Place.state := state;
     Place.country := country;
     Place.isPopular := Place.isPopular place |}.

(** The lookups of one category in [refineVerifiedMockAddresses]: the
    first [perCategory] places, while the global cap allows; the flag tells
    whether the function has returned at the cap. *)
Fixpoint refinePlaces (perCategory : nat) (places : list Place.t)
         (lookups : nat) : Eff (list Place.t * nat * bool) :=
  match perCategory, places with
  | S perCategory', place :: rest =>
      if (12 <=? lookups)%nat then ret (places, lookups, true)
      else
        info <- reverseGeocodeWithTimeout env M
                  (Place.lat place) (Place.lng place) 2000 ;;
        let lookups := S lookups in
        let place :=
          match info with
          | Some info =>
              if Str.truthy (infoAddress info)
              then withAddress (infoAddress info)
                     (Str.orElse (infoCity info) (Place.city place))
                     (Str.orElse (infoState info) (Place.state place))
                     (Str.orElse (infoCountry info) (Place.country place))
                     place
              else place
          | None => place
          end in
        r <- refinePlaces perCategory' rest lookups ;;
        let '(rest', lookups', returned) := r in
        ret (place :: rest', lookups', returned)
  | _, _ => ret (places, lookups, false)
  end.

Fixpoint refineCategories (data : PlacesByCategory) (lookups : nat)
  : Eff PlacesByCategory :=
  match data with
  | [] => ret []
  | (categoryKey, places) :: rest =>
      r <- refinePlaces 2 places lookups ;;
      let '(places', lookups', returned) := r in
      if returned then ret ((categoryKey, places') :: rest)
      else
        rest' <- refineCategories rest lookups' ;;
        ret ((categoryKey, places') :: rest')
  end.

Definition refineVerifiedMockAddresses (verifiedPlaces : PlacesByCategory)
  : Eff PlacesByCategory :=
  refineCategories verifiedPlaces 0.

Definition generateVerifiedMockPlaces (lat lng radius : float)
  : Eff PlacesByCategory :=
  areaInfo <-
    tryCatch
      (raceWithTimer env (reverseGeocode env M lat lng)
                     (Error "Reverse geocoding timeout"))
      (fun _ => ret unknownArea) ;;
  verifiedPlaces <-
    forEach (fun entry =>
               places <- generateRealisticPlacesForCategory
                           (fst entry) (snd entry) lat lng radius areaInfo ;;
               ret (fst entry, places))
            PLACE_CATEGORIES ;;
  refineVerifiedMockAddresses verifiedPlaces.

End WithEnv.

End Verified.

(* ================================================================== *)
(** * Places search *)
(* ================================================================== *)

Module Search.

Import JsNum JsArray Eff Categories Nominatim Aggregator Verified.
Open Scope string_scope.
Open Scope eff_scope.

Section WithEnv.

Context (env : Env) (M : MathLib) (encodeURIComponent : string -> string).

(** [place.address && place.address !== 'Address not available' &&
    !place.address.startsWith('Near')] *)
Definition hasDecentAddress (place : Place.t) : bool :=
  Str.truthy (Place.address place)
  && negb (String.eqb (Place.address place) "Address not available")
  && negb (Str.startsWith "Near" (Place.address place)).

(** The inner loop of [enhanceRealPlacesWithAddresses]; the flag tells
    whether [break outer] was taken. *)
Fixpoint enhancePlaces (places : list Place.t) (lookups : nat)
  : Eff (list Place.t * nat * bool) :=
  match places with
  | [] => ret ([], lookups, false)
  | place :: rest =>
      if hasDecentAddress place then
        r <- enhancePlaces rest lookups ;;
        let '(rest', lookups', stopped) := r in
        ret (place :: rest', lookups', stopped)
      else if (15 <=? lookups)%nat then ret (places, lookups, true)
      else
        info <- reverseGeocodeWithTimeout env M
                  (Place.lat place) (Place.lng place) 2000 ;;
        let lookups := S lookups in
        let place :=
          match info with
          | Some info =>
              if Str.truthy (infoAddress info)
              then withAddress (infoAddress info) (infoCity info)
                               (infoState info) (infoCountry info) place
              else place
          | None => place
          end in
        r <- enhancePlaces rest lookups ;;
        let '(rest', lookups', stopped) := r in
        ret (place :: rest', lookups', stopped)
  end.

Fixpoint enhanceCategories (data : PlacesByCategory) (lookups : nat)
  : Eff PlacesByCategory :=
  match data with
  | [] => ret []
  | (categoryKey, places) :: rest =>
      r <- enhancePlaces places lookups ;;
      let '(places', lookups', stopped) := r in
      if stopped then ret ((categoryKey, places') :: rest)
      else
        rest' <- enhanceCategories rest lookups' ;;
        ret ((categoryKey, places') :: rest')
  end.

Definition enhanceRealPlacesWithAddresses (realPlaces : PlacesByCategory)
           (centerLat centerLng : float) : Eff PlacesByCategory :=
  enhanceCategories realPlaces 0.

(** [fetchNearbyPlaces].  The generation of the verified mock places is
    started first and its promise awaited later; its effects are placed
    before those of the live search. *)
Definition fetchNearbyPlaces (lat lng radius : float)
  : Eff PlacesByCategory :=
  fun w =>
    let '(verifiedMockPlacesPromise, w) :=
      generateVerifiedMockPlaces env M lat lng radius w in
    tryCatch
      (raced <-
         tryCatch
           (realPlaces <-
              raceWithTimer env
                (fetchRealPlacesFromOverpass env M encodeURIComponent
                                             lat lng radius)
                (Error "Overpass API timeout") ;;
            ret (inl realPlaces))
           (fun _ =>
              verifiedMockPlaces <- awaitSettled verifiedMockPlacesPromise ;;
              ret (inr verifiedMockPlaces)) ;;
       match raced with
       | inr verifiedMockPlaces => ret verifiedMockPlaces
       | inl realPlaces =>
           let totalRealPlaces := totalPlaces realPlaces in
           realPlaces <-
             (if (0 <? totalRealPlaces)%nat
              then enhanceRealPlacesWithAddresses realPlaces lat lng
              else ret realPlaces) ;;
           if (0 <? totalRealPlaces)%nat then
             verifiedMockPlaces <- awaitSettled verifiedMockPlacesPromise ;;
             ret (Merge.mergeRealAndMockData realPlaces verifiedMockPlaces)
           else awaitSettled verifiedMockPlacesPromise
       end)
      (fun _ => awaitSettled verifiedMockPlacesPromise)
      w.

(** A mirror gives no live data: its request is rejected (network
    failure, or abort after the 4 s timer), the status is not a success,
    the body does not parse, or there is no element in it. *)
Definition mirrorFails (o : FetchOutcome) : bool :=
  match o with
  | FetchRejects _ => true
  | Responds r =>
      negb (ok r)
      || match body r with
         | OverpassBody (Some (_ :: _)) => false
         | _ => true
         end
  end.

End WithEnv.

End Search.

(* ================================================================== *)
(** * Synthetic places: the deterministic pseudo-random generator *)
(* ================================================================== *)

Module Seeded.

Import JsNum JsArray Eff Categories.
Open Scope string_scope.

(** A synchronous function: it returns a value or throws. *)
Definition bindO {A B : Type} (o : Outcome A) (k : A -> Outcome B)
  : Outcome B :=
  match o with
  | Returns a => k a
  | Throws e => Throws e
  end.

Fixpoint mapO {A B : Type} (f : A -> Outcome B) (l : list A)
  : Outcome (list B) :=
  match l with
  | [] => Returns []
  | x :: rest =>
      bindO (f x) (fun y => bindO (mapO f rest) (fun ys => Returns (y :: ys)))
  end.

(** [s.charCodeAt(0)] *)
Definition charCodeAt0 (s : string) : float :=
  match s with
  | String c _ => ofNat (nat_of_ascii c)
  | EmptyString => nan
  end.

(** [`${x}`] for a value that may be undefined. *)
Definition text (o : option string) : string :=
  match o with Some v => v | None => "undefined" end.

Section WithMath.

Context (M : MathLib).

(** The seeded pseudo-random number: the fractional part of
    [sin(seed) * 10000]. *)
Definition seedRandom (seed : float) : float :=
  let x := (sin M seed * 10000)%float in
  (x - floor M x)%float.

(** "x modulo 1" as written: [x % 1]. *)
Definition frac (x : float) : float := rem M x 1.

Definition inBox (lat lng latMin latMax lngMin lngMax : float) : bool :=
  (latMin <=? lat)%float && (lat <=? latMax)%float
  && (lngMin <=? lng)%float && (lng <=? lngMax)%float.

Definition generateLocationBasedAddress (lat lng : float) (index : nat)
  : string :=
  let areas := [
    "MG Road"; "Gandhi Nagar"; "Sector 15"; "Civil Lines"; "Model Town";
    "Sadar Bazaar"; "Main Market"; "Station Road"; "Mall Road"; "City Center";
    "Nehru Place"; "Connaught Place"; "Rajouri Garden"; "Lajpat Nagar";
    "Karol Bagh"; "Janpath"; "CP Market"; "Khan Market"; "Vasant Vihar";
    "Defence Colony"; "Greater Kailash"; "Hauz Khas"; "Saket"; "Dwarka";
    "Rohini"; "Pitampura"; "Janakpuri"; "Laxmi Nagar"; "Preet Vihar";
    "Mayur Vihar"; "Andheri"; "Bandra"; "Juhu"; "Powai"; "Malad"; "Borivali";
    "Thane"; "Vashi"; "Koramangala"; "Indiranagar"; "Whitefield";
    "Electronic City"; "Marathahalli"; "HSR Layout"; "T Nagar"; "Anna Nagar";
    "Adyar"; "Velachery"; "Tambaram"; "Chrompet" ] in
  let '(city, regionAreas) :=
    if inBox lat lng 28.4 28.9 76.8 77.5 then
      (Some "New Delhi",
       ["Connaught Place"; "Khan Market"; "Karol Bagh"; "Lajpat Nagar";
        "Defence Colony"; "Greater Kailash"; "Saket"; "Vasant Vihar";
        "Hauz Khas"; "Nehru Place"])
    else if inBox lat lng 18.8 19.3 72.7 73.2 then
      (Some "Mumbai",
       ["Andheri West"; "Bandra"; "Juhu"; "Powai"; "Malad"; "Borivali";
        "Thane"; "Vashi"; "Colaba"; "Fort"])
    else if inBox lat lng 12.8 13.2 77.4 77.8 then
      (Some "Bengaluru",
       ["Koramangala"; "Indiranagar"; "Whitefield"; "Electronic City";
        "Marathahalli"; "HSR Layout"; "BTM Layout"; "Jayanagar"])
    else if inBox lat lng 13.0 13.2 80.1 80.3 then
      (Some "Chennai",
       ["T Nagar"; "Anna Nagar"; "Adyar"; "Velachery"; "Tambaram";
        "Chrompet"; "Mylapore"; "Nungambakkam"])
    else
      let cityNames := [
        "Agra"; "Lucknow"; "Kanpur"; "Jaipur"; "Indore"; "Bhopal"; "Patna";
        "Nagpur"; "Surat"; "Vadodara"; "Rajkot"; "Coimbatore"; "Madurai";
        "Kochi"; "Thiruvananthapuram"; "Visakhapatnam"; "Vijayawada";
        "Guntur"; "Mysore"; "Mangalore" ] in
      let seed := (abs (sin M (lat * lng * 100)) * 1000)%float in
      (at_ cityNames
           (floor M (frac seed * ofNat (List.length cityNames))%float),
       areas) in
  let locationSeed :=
    (abs (sin M (lat * lng * ofNat index * 100)) * 1000)%float in
  let houseNo := (floor M (frac locationSeed * 999) + 1)%float in
  let areaIndex :=
    floor M (frac (locationSeed * 2) * ofNat (List.length regionAreas))%float in
  let area := at_ regionAreas areaIndex in
  let landmarks := ["Near Metro Station"; "Near Bus Stop"; "Near Hospital";
                    "Near Mall"; "Near Park"; "Main Road"; "Market Area"] in
  let landmarkIndex :=
    floor M (frac (locationSeed * 3) * ofNat (List.length landmarks))%float in
  let landmark := at_ landmarks landmarkIndex in
  numToString M houseNo ++ ", " ++ text area ++ ", " ++ text landmark
  ++ ", " ++ text city.

Definition generateIndianPhone (seed : float) : string :=
  let prefixes := ["+91-98"; "+91-99"; "+91-97"; "+91-96"; "+91-95";
                   "+91-94"] in
  let prefixIndex :=
    floor M (seedRandom seed * ofNat (List.length prefixes))%float in
  let prefix := at_ prefixes prefixIndex in
  let number :=
    (floor M (seedRandom (seed + 100) * 90000000) + 10000000)%float in
  text prefix ++ Str.take 8 (numToString M number).

Definition generateOpeningHours (seed : float) : option string :=
  let hours := [
    "9:00 AM - 9:00 PM"; "10:00 AM - 10:00 PM"; "8:00 AM - 8:00 PM";
    "24 Hours"; "6:00 AM - 11:00 PM"; "11:00 AM - 11:00 PM";
    "7:00 AM - 10:00 PM"; "8:00 AM - 9:00 PM" ] in
  at_ hours (floor M (seedRandom seed * ofNat (List.length hours))%float).

(** The body of the loop of [generateEnhancedMockData]. *)
Definition seededPlace (lat lng : float) (categoryKey : string)
           (category : Category) (names : list string) (radius : float)
           (locationSeed : float) (i : nat) : Outcome Place.t :=
  let fi := ofNat i in
  let nameSeed := (locationSeed + fi * 100 + charCodeAt0 categoryKey)%float in
  let nameIndex :=
    floor M (seedRandom nameSeed * ofNat (List.length names))%float in
  let randomName := at_ names nameIndex in
  let angleSeed := (locationSeed + fi * 137 + floor M (lat * 1000))%float in
  let distanceVariationSeed :=
    (locationSeed + fi * 73 + floor M (lng * 1000))%float in
  let angle := (seedRandom angleSeed * 2 * PI)%float in
  let maxDistance := min (radius * 0.8) 15 in
  let actualDistance :=
    (seedRandom distanceVariationSeed * maxDistance + 0.1)%float in
  let latOffset := (actualDistance / 111.32 * cos M angle)%float in
  let lngOffset :=
    (actualDistance / (111.32 * cos M (lat * PI / 180)) * sin M angle)%float in
  let placeLat := (lat + latOffset)%float in
  let placeLng := (lng + lngOffset)%float in
  let calculatedDistance := Geo.calculateDistance M lat lng placeLat placeLng in
  let address := generateLocationBasedAddress placeLat placeLng i in
  let phone :=
    if (0.3 <? seedRandom (nameSeed + 10))%float
    then Some (generateIndianPhone nameSeed) else None in
  bindO
    (if (0.7 <? seedRandom (nameSeed + 20))%float then
       match randomName with
       | Some n =>
           Returns (Some ("https://www." ++ Str.dropSpaces (Str.toLowerCase n)
                          ++ ".com"))
       | None =>
           Throws (TypeError "Cannot read properties of undefined (reading 'toLowerCase')")
       end
     else Returns None)
    (fun website =>
       Returns
         {| Place.id := "mock_" ++ categoryKey ++ "_"
                        ++ numToString M (round M (lat * 1000)) ++ "_"
                        ++ numToString M (round M (lng * 1000)) ++ "_"
                        ++ Str.ofZ (Z.of_nat i);
            Place.name :=
              text randomName
              ++ (if (0 <? i)%nat then " " ++ Str.ofZ (Z.of_nat (i + 1))
                  else "");
            Place.category := categoryKey;
            Place.categoryName := Categories.name category;
            Place.icon := Categories.icon category;
            Place.lat := placeLat;
            Place.lng := placeLng;
            Place.distance := (round M (calculatedDistance * 100) / 100)%float;
            Place.address := address;
            Place.phone := phone;
            Place.website := website;
            Place.opening_hours := generateOpeningHours nameSeed;
            Place.rating :=
              (round M ((seedRandom (nameSeed + 30) * 2 + 3) * 10) / 10)%float;
            Place.type := Place.mock;
            Place.city := None;
            Place.state := None;
            Place.country := None;
            Place.isPopular := Some (0.7 <? seedRandom (nameSeed + 40))%float |}).

Definition generateEnhancedMockData (lat lng : float) (categoryKey : string)
           (category : Category) (names : list string) (radius : float)
  : Outcome (list Place.t) :=
  let locationSeed :=
    (abs (sin M (lat * lng * 10000) + cos M (lat + lng) * 1000) * 1000)%float in
  let placeCount :=
    (floor M (seedRandom (locationSeed + charCodeAt0 categoryKey * 100) * 4)
     + 6)%float in
  bindO
    (mapO (seededPlace lat lng categoryKey category names radius locationSeed)
          (seq 0 (loopCount placeCount)))
    (fun places => Returns (JsArray.sort Merge.byDistance places)).

Definition baseNames : Obj (list string) := [
  ("restaurant",
   ["Punjabi Dhaba"; "South Indian Corner"; "Biryani House"; "Dosa Plaza";
    "Thali Restaurant"; "Chinese Dragon"; "Pizza Corner"; "Burger King";
    "KFC"; "McDonald's"; "Domino's"; "Subway"; "Local Dhaba";
    "Family Restaurant"; "Food Court"; "Snack Center"]);
  ("cafe",
   ["Chai Point"; "Coffee Day"; "Barista"; "Starbucks"; "Tea Junction";
    "Café Mocha"; "Brew & Beans"; "Tea Time"; "Coffee House"; "Chai Tapri";
    "Tea Stall"; "Coffee Corner"]);
  ("lodging",
   ["Hotel Taj"; "OYO Rooms"; "Treebo Hotel"; "Guest House"; "Lodge Palace";
    "Resort Inn"; "Dharamshala"; "Backpacker Hostel"; "Budget Hotel";
    "Luxury Stay"; "Inn & Suites"]);
  ("gas_station",
   ["Indian Oil"; "HP Petrol Pump"; "Bharat Petroleum"; "Reliance Petrol";
    "Shell Station"; "Essar Oil"; "Fuel Station"; "Petrol Bunk"]);
  ("shopping",
   ["Big Bazaar"; "Reliance Fresh"; "More Supermarket"; "Spencer's";
    "Kirana Store"; "General Store"; "City Mall"; "Local Market";
    "Super Market"; "Mini Mart"; "Grocery Store"; "Provision Store"]);
  ("hospital",
   ["Apollo Hospital"; "Fortis Healthcare"; "Max Hospital"; "AIIMS";
    "Government Hospital"; "Nursing Home"; "Medical Center"; "City Clinic";
    "Health Center"; "Multispecialty Hospital"]);
  ("bank",
   ["State Bank of India"; "HDFC Bank"; "ICICI Bank"; "Axis Bank";
    "Punjab National Bank"; "Bank of Baroda"; "Canara Bank"; "ATM Center";
    "Union Bank"; "Yes Bank"; "Kotak Bank"]);
  ("transport",
   ["Railway Station"; "Bus Stand"; "Metro Station"; "Auto Stand";
    "Taxi Stand"; "Airport"; "ISBT"; "Bus Terminal"; "Train Station"]);
  ("entertainment",
   ["PVR Cinemas"; "INOX"; "Cinepolis"; "City Park"; "Garden"; "Museum";
    "Art Gallery"; "Amusement Park"; "Fun City"; "Entertainment Zone"]);
  ("education",
   ["Government School"; "Private School"; "CBSE School"; "College";
    "University"; "Coaching Center"; "Tuition Classes"; "Study Center";
    "Academy"]);
  ("religious",
   ["Hanuman Temple"; "Shiva Temple"; "Gurudwara"; "Mosque"; "Church";
    "Ashram"; "Mandir"; "Dargah"; "Monastery"]);
  ("government",
   ["Collectorate"; "Tehsil Office"; "Municipal Office"; "Post Office";
    "Police Station"; "Court"; "Government Office"; "District Office"]);
  ("automotive",
   ["Car Service Center"; "Garage"; "Mechanic Shop"; "Spare Parts";
    "Car Wash"; "Tyre Shop"; "Auto Repair"; "Service Station"]);
  ("beauty",
   ["Beauty Parlour"; "Hair Salon"; "Spa Center"; "Barber Shop";
    "Unisex Salon"; "Bridal Makeup"; "Beauty Studio"; "Wellness Center"]);
  ("electronics",
   ["Mobile Shop"; "Electronics Store"; "Computer Shop"; "Laptop Repair";
    "Mobile Repair"; "Gadget Store"; "Tech Store"; "Electronics Hub"]);
  ("clothing",
   ["Cloth Shop"; "Tailor"; "Boutique"; "Saree Center"; "Garment Store";
    "Fashion Hub"; "Textile Shop"; "Dress Material"]);
  ("grocery",
   ["Kirana Store"; "General Store"; "Provision Store"; "Grocery Shop";
    "Supermarket"; "Mini Mart"; "Daily Needs"; "Convenience Store"]);
  ("medical",
   ["Doctor Clinic"; "Dental Clinic"; "Medical Store"; "Pathology Lab";
    "X-Ray Center"; "Pharmacy"; "Diagnostic Center"; "Health Clinic"]);
  ("sports",
   ["Fitness Gym"; "Sports Club"; "Cricket Ground"; "Badminton Court";
    "Football Field"; "Swimming Pool"; "Sports Complex"; "Fitness Center"])
].

Definition getLocationSpecificNames (lat lng : float) : Obj (list string) :=
  let regionalNames : Obj (list string) :=
    if inBox lat lng 28.4 28.9 76.8 77.5 then
      [("restaurant", ["Paranthe Wali Gali"; "Karim's"; "Al Jawahar";
                       "Chandni Chowk Dhaba"]);
       ("cafe", ["Indian Coffee House"; "Cafe Coffee Day CP"; "Starbucks CP"]);
       ("shopping", ["Connaught Place Market"; "Karol Bagh Market";
                     "Lajpat Nagar Market"])]
    else if inBox lat lng 18.8 19.3 72.7 73.2 then
      [("restaurant", ["Trishna"; "Leopold Cafe"; "Britannia & Co";
                       "Bademiya"]);
       ("cafe", ["Cafe Mocha"; "Theobroma"; "Cafe Coffee Day Bandra"]);
       ("shopping", ["Linking Road"; "Colaba Causeway"; "Crawford Market"])]
    else if inBox lat lng 12.8 13.2 77.4 77.8 then
      [("restaurant", ["MTR"; "Vidyarthi Bhavan"; "Koshy's"; "Corner House"]);
       ("cafe", ["Third Wave Coffee"; "Blue Tokai";
                 "Cafe Coffee Day Brigade"]);
       ("shopping", ["Commercial Street"; "Brigade Road"; "Chickpet Market"])]
    else [] in
  map (fun entry =>
         match get regionalNames (fst entry) with
         | Some regional => (fst entry, (regional ++ snd entry)%list)
         | None => entry
         end)
      baseNames.

(** [getMockPlaces(lat, lng, radius = 10)] *)
Definition getMockPlaces (lat lng radius : float) : Outcome PlacesByCategory :=
  let mockNames := getLocationSpecificNames lat lng in
  mapO (fun entry =>
          let categoryKey := fst entry in
          let category := snd entry in
          let names :=
            match get mockNames categoryKey with
            | Some names => names
            | None => [Str.dropLast (Categories.name category)]
            end in
          bindO (generateEnhancedMockData lat lng categoryKey category names
                                          radius)
                (fun places => Returns (categoryKey, places)))
       PLACE_CATEGORIES.

End WithMath.

(** Two lists of places agree in identifiers, names, coordinates,
    distances, addresses, phones, ratings and opening hours. *)
Definition sameFields (places places' : list Place.t) : Prop :=
  map Place.id places = map Place.id places'
  /\ map Place.name places = map Place.name places'
  /\ map Place.lat places = map Place.lat places'
  /\ map Place.lng places = map Place.lng places'
  /\ map Place.distance places = map Place.distance places'
  /\ map Place.address places = map Place.address places'
  /\ map Place.phone places = map Place.phone places'
  /\ map Place.rating places = map Place.rating places'
  /\ map Place.opening_hours places = map Place.opening_hours places'.

(** Two random sources: one that always returns 0, one that always
    returns 0.5. *)
Definition zeros : Env :=
  {| network := fun _ _ => FetchRejects (TypeError "Failed to fetch");
     random := fun _ => 0%float;
     timerWins := fun _ => false |}.

Definition halves : Env :=
  {| network := fun _ _ => FetchRejects (TypeError "Failed to fetch");
     random := fun _ => 0.5%float;
     timerWins := fun _ => false |}.

Definition restaurants : Category :=
  mkCategory "Restaurants & Food" "🍽️"
    ["amenity=restaurant"; "amenity=fast_food"; "cuisine=indian"].

End Seeded.

(* ================================================================== *)
(** * Location acquisition: the IP-based fallback *)
(* ================================================================== *)

Module IpLocation.

Import JsNum.
Open Scope string_scope.

(** The fields of the answers of the three services that
    [tryIPLocation] reads; a field the answer does not have is [None]. *)
Record IpData := {
  latitude : option float;          (* ipapi.co *)
  longitude : option float;
  lat : option float;               (* ip-api.com *)
  lon : option float;
  loc : option string;              (* ipinfo.io: "lat,lng" *)
  city : option string;
  region : option string;
  regionName : option string;
  country : option string;
  country_name : option string
}.

(** What [response.json()] gives: an object, or [null]. *)
Inductive Json :=
  | JsonObject (data : IpData)
  | JsonNull.

(** What a request to a service settles with: a rejection, or a response
    with its [ok] flag and its body ([None] when the body does not
    parse). *)
Inductive Answer :=
  | Rejects
  | Status (ok : bool) (body : option Json).

Definition services : list string := [
  "https://ipapi.co/json/";
  "https://ipinfo.io/json";
  "http://ip-api.com/json/" ].

(** [`${x}`] for a value that may be undefined. *)
Definition text (o : option string) : string :=
  match o with Some v => v | None => "undefined" end.

Definition noLocation : string :=
  "Unable to determine your location. Please enter your address manually for accurate results.".

Section WithMath.

Context (M : MathLib).

(** [parseFloat(s)] for a string that may be undefined. *)
Definition parseFloatOf (s : option string) : float :=
  match s with Some s => parseFloat M s | None => nan end.

(** "Parse different API response formats": [lat], [lng] and [city] after
    the chain of conditions on the service. *)
Definition parse (service : string) (data : IpData)
  : option float * option float * option string :=
  if Str.includes "ipapi.co" service then
    (latitude data, longitude data,
     Some (text (city data) ++ ", " ++ text (region data) ++ ", "
           ++ text (country_name data)))
  else if Str.includes "ip-api.com" service then
    (lat data, lon data,
     Some (text (city data) ++ ", " ++ text (regionName data) ++ ", "
           ++ text (country data)))
  else if Str.includes "ipinfo.io" service then
    let '(la, lo) :=
      match loc data with
      | Some l =>
          if Str.truthy l then
            let parts := Str.split "," l in
            (Some (parseFloatOf (nth_error parts 0)),
             Some (parseFloatOf (nth_error parts 1)))
          else (None, None)
      | None => (None, None)
      end in
    (la, lo,
     Some (text (city data) ++ ", " ++ text (region data) ++ ", "
           ++ text (country data)))
  else (None, None, None).

(** A number that may be undefined, used as a condition. *)
Definition truthyNum (x : option float) : bool :=
  match x with
  | Some x => negb (isNaN x || (x =? 0)%float)
  | None => false
  end.

(** [lat && lng && !isNaN(lat) && !isNaN(lng)] *)
Definition usable (la lo : option float) : option (float * float) :=
  match la, lo with
  | Some x, Some y =>
      if truthyNum la && truthyNum lo && negb (isNaN x) && negb (isNaN y)
      then Some (x, y) else None
  | _, _ => None
  end.

(** One pass of the loop over the services: the location resolved with,
    or [None] when the loop goes on ([continue], or an exception caught by
    the inner [catch]: a rejected request, a body that does not parse, a
    property read on [null]). *)
Definition attempt (service : string) (a : Answer)
  : option Location.LocationFix :=
  match a with
  | Rejects => None
  | Status false _ => None
  | Status true None => None
  | Status true (Some JsonNull) => None
  | Status true (Some (JsonObject data)) =>
      let '(la, lo, place) := parse service data in
      match usable la lo with
      | Some (x, y) =>
          Some {| Location.lat := x;
                  Location.lng := y;
                  Location.fixAccuracy := 5000;
                  Location.method := "ip_location";
                  Location.city := place |}
      | None => None
      end
  end.

(** The loop of [tryIPLocation] from the [n]-th request on: how the
    promise is settled, and the services asked, in order.  (Nothing in the
    outer [try] block throws outside the inner one, so the outer [catch] is
    never entered.) *)
Fixpoint tryServices (net : nat -> string -> Answer) (n : nat)
         (remaining : list string) : Location.Settlement * list string :=
  match remaining with
  | [] => (Location.Rejected noLocation, [])
  | service :: rest =>
      match attempt service (net n service) with
      | Some location => (Location.Fulfilled location, [service])
      | None =>
          let '(outcome, asked) := tryServices net (S n) rest in
          (outcome, service :: asked)
      end
  end.

Definition tryIPLocation (net : nat -> string -> Answer)
  : Location.Settlement * list string :=
  tryServices net 0 services.

End WithMath.

End IpLocation.

(* ================================================================== *)
(** * The address box: recent searches *)
(* ================================================================== *)

Module LocationInput.

Open Scope string_scope.

(** The list saved by [handleSearch] and [handleSuggestionClick]:
    [[searchAddress, ...recentSearches.filter(item => item !== searchAddress)].slice(0, 5)] *)
Definition newRecentSearches (searchAddress : string)
           (recentSearches : list string) : list string :=
  firstn 5
    (searchAddress
     :: filter (fun item => negb (String.eqb item searchAddress))
               recentSearches).

End LocationInput.

(* ================================================================== *)
(** * The places page: filtering, sorting, counting and searching *)
(* ================================================================== *)

Module Finder.

Import JsNum JsArray Eff Categories.
Open Scope string_scope.

(** The state the list functions read. *)
Record View := {
  places : PlacesByCategory;
  selectedCategory : string;
  sortBy : string;
  searchQuery : string;
  viewMode : string
}.

Section WithLocale.

(** [String.prototype.toLowerCase] and [localeCompare] of the runtime. *)
Context (toLowerCase : string -> string)
        (localeCompare : string -> string -> float).

(** The search filter: the query occurs in the name or in the address,
    case-insensitively. *)
Definition matchesQuery (searchQuery : string) (place : Place.t) : bool :=
  Str.includes (toLowerCase searchQuery) (toLowerCase (Place.name place))
  || Str.includes (toLowerCase searchQuery)
                  (toLowerCase (Place.address place)).

(** The comparator of the two [sort] calls. *)
Definition comparePlaces (sortBy : string) (a b : Place.t) : float :=
  if String.eqb sortBy "distance"
  then (Place.distance a - Place.distance b)%float
  else if String.eqb sortBy "rating"
  then (Place.rating b - Place.rating a)%float
  else if String.eqb sortBy "name"
  then localeCompare (Place.name a) (Place.name b)
  else (Place.distance a - Place.distance b)%float.

(** [getFilteredPlaces]: the places of the list view. *)
Definition getFilteredPlaces (v : View) : list Place.t :=
  let allPlaces :=
    if String.eqb (selectedCategory v) "all"
    then List.concat (map snd (places v))
    else placesOf (places v) (selectedCategory v) in
  let allPlaces :=
    if Str.truthy (searchQuery v)
    then filter (matchesQuery (searchQuery v)) allPlaces
    else allPlaces in
  JsArray.sort (comparePlaces (sortBy v)) allPlaces.

(** [getFilteredCategoryPlaces]: the places of one category section. *)
Definition getFilteredCategoryPlaces (v : View) (categoryKey : string)
           (categoryPlaces : list Place.t) : list Place.t :=
  let filteredPlaces := categoryPlaces in
  let filteredPlaces :=
    if Str.truthy (searchQuery v)
    then filter (matchesQuery (searchQuery v)) filteredPlaces
    else filteredPlaces in
  if negb (String.eqb (selectedCategory v) "all")
     && negb (String.eqb (selectedCategory v) categoryKey)
  then []
  else JsArray.sort (comparePlaces (sortBy v)) filteredPlaces.

(** [getFilteredPlacesCount] *)
Definition getFilteredPlacesCount (v : View) : nat :=
  if String.eqb (viewMode v) "categories" then
    fold_left
      (fun total entry =>
         let categoryKey := fst entry in
         let categoryPlaces := placesOf (places v) categoryKey in
         (total + List.length (getFilteredCategoryPlaces v categoryKey
                                                         categoryPlaces))%nat)
      PLACE_CATEGORIES 0%nat
  else List.length (getFilteredPlaces v).

End WithLocale.

(** The selection is one the page offers: ['all'] or a category key. *)
Definition offered (selected : string) : Prop :=
  selected = "all" \/ In selected (keys PLACE_CATEGORIES).

(** ** The search handlers *)

(** The [location] state. *)
Record Located := {
  lat : float;
  lng : float;
  address : option string;           (* spread from the geocoder's result *)
  display_name : string;
  method : string
}.

(** The state the handlers set. *)
Record State := {
  location : option Located;
  radius : float;
  found : PlacesByCategory;          (* the [places] state *)
  loading : bool;
  error : option string;
  animationKey : nat
}.

Definition setLocation (v : Located) (s : State) : State :=
  {| location := Some v; radius := radius s; found := found s;
     loading := loading s; error := error s;
     animationKey := animationKey s |}.

Definition setRadius (v : float) (s : State) : State :=
  {| location := location s; radius := v; found := found s;
     loading := loading s; error := error s;
     animationKey := animationKey s |}.

Definition setPlaces (v : PlacesByCategory) (s : State) : State :=
  {| location := location s; radius := radius s; found := v;
     loading := loading s; error := error s;
     animationKey := animationKey s |}.

Definition setLoading (v : bool) (s : State) : State :=
  {| location := location s; radius := radius s; found := found s;
     loading := v; error := error s;
     animationKey := animationKey s |}.

Definition setError (v : option string) (s : State) : State :=
  {| location := location s; radius := radius s; found := found s;
     loading := loading s; error := v;
     animationKey := animationKey s |}.

(** [setAnimationKey(prev => prev + 1)] *)
Definition bumpAnimationKey (s : State) : State :=
  {| location := location s; radius := radius s; found := found s;
     loading := loading s; error := error s;
     animationKey := S (animationKey s) |}.

(** The argument of [handleAddressSearch]: the text of the address box
    (a string, or nothing), or the object built by a click on a
    suggestion; a coordinate is [Some] when [typeof] gives ['number']. *)
Record Picked := {
  pickedLat : option float;
  pickedLng : option float;
  pickedDisplayName : option string;
  pickedShortName : option string
}.

Inductive Input :=
  | Typed (text : option string)
  | Clicked (suggestion : Picked).

(** [isObject ? (input.display_name || input.short_name || '') : (input || '')] *)
Definition addressText (input : Input) : string :=
  match input with
  | Typed (Some s) => s
  | Typed None => ""
  | Clicked o =>
      match Str.orElse (pickedDisplayName o) (pickedShortName o) with
      | Some s => s
      | None => ""
      end
  end.

Section WithEnv.

Context (env : Env) (M : MathLib) (encodeURIComponent : string -> string).

(** [searchNearbyPlaces]; [wasLoading] is the [loading] state of the
    render the handler belongs to. *)
Definition searchNearbyPlaces (wasLoading : bool)
           (lat lng searchRadius : float) : EffS State unit :=
  tryCatchS
    (bindS (if negb wasLoading then modifyS (setLoading true) else retS tt)
       (fun _ =>
    bindS (modifyS bumpAnimationKey) (fun _ =>
    bindS (modifyS (setPlaces [])) (fun _ =>
    bindS (liftS (Search.fetchNearbyPlaces env M encodeURIComponent
                                           lat lng searchRadius))
       (fun nearbyPlaces =>
    modifyS (setPlaces nearbyPlaces))))))
    (fun _ => modifyS (setPlaces [])).

(** [handleAddressSearch]; [rendered] is the state of the render the
    handler belongs to. *)
Definition handleAddressSearch (rendered : State) (input : Input)
  : EffS State unit :=
  let isObject := match input with Clicked _ => true | Typed _ => false end in
  let addressText := addressText input in
  if negb isObject && negb (Str.truthy (Str.trim addressText)) then retS tt
  else
    bindS (modifyS (setLoading true)) (fun _ =>
    bindS (modifyS (setError None)) (fun _ =>
    bindS (modifyS (setPlaces [])) (fun _ =>
    tryCatchFinallyS
      (bindS
         (match input with
          | Clicked {| pickedLat := Some targetLat;
                       pickedLng := Some targetLng |} =>
              bindS (modifyS (setLocation
                                {| lat := targetLat; lng := targetLng;
                                   address := None;
                                   display_name := addressText;
                                   method := "manual_selection" |}))
                    (fun _ => retS (targetLat, targetLng))
          | _ =>
              bindS (liftS (Nominatim.geocodeAddress env M encodeURIComponent
                                                     addressText))
                (fun geocodedLocation =>
              let targetLat := Nominatim.lat geocodedLocation in
              let targetLng := Nominatim.lng geocodedLocation in
              let targetDisplayName :=
                if Str.truthy (Nominatim.resultDisplayName geocodedLocation)
                then Nominatim.resultDisplayName geocodedLocation
                else addressText in
              bindS (modifyS (setLocation
                                {| lat := targetLat; lng := targetLng;
                                   address :=
                                     Some (Nominatim.address geocodedLocation);
                                   display_name := targetDisplayName;
                                   method := "geocoded" |}))
                    (fun _ => retS (targetLat, targetLng)))
          end)
         (fun target =>
            searchNearbyPlaces (loading rendered) (fst target) (snd target)
                               (radius rendered)))
      (fun err => modifyS (setError (Some (message err))))
      (setLoading false)))).

(** [handleRadiusChange] *)
Definition handleRadiusChange (rendered : State) (newRadius : float)
  : EffS State unit :=
  bindS (modifyS (setRadius newRadius)) (fun _ =>
  match location rendered with
  | Some place =>
      bindS (modifyS (setLoading true)) (fun _ =>
      tryCatchFinallyS
        (searchNearbyPlaces (loading rendered) (lat place) (lng place)
                            newRadius)
        (fun _ => modifyS (setError (Some "Failed to update search radius")))
        (setLoading false))
  | None => retS tt
  end).

End WithEnv.

(** The page before any search. *)
Definition initialState : State :=
  {| location := None; radius := 10; found := []; loading := false;
     error := None; animationKey := 0 |}.

End Finder.

(* ================================================================== *)
(** * Reading computations: requests made, results, state kept *)
(* ================================================================== *)

Module Reading.

Import JsArray Eff Categories.

(** A computation makes at most [n] requests: the request log after it
    is the log before it followed by at most [n] requests, whether it
    returns or throws. *)
Definition within {A : Type} (n : nat) (c : Eff A) : Prop :=
  forall w, exists more,
    requests (snd (c w)) = (requests w ++ more)%list
    /\ (List.length more <= n)%nat.

Definition withinS {S A : Type} (n : nat) (c : EffS S A) : Prop :=
  forall s w, exists more,
    requests (snd (c s w)) = (requests w ++ more)%list
    /\ (List.length more <= n)%nat.

(** Whatever a computation returns satisfies [P]. *)
Definition ensures {A : Type} (P : A -> Prop) (c : Eff A) : Prop :=
  forall w a w', c w = (Returns a, w') -> P a.

(** A handler keeps a property of the component state, whether it
    returns or throws. *)
Definition preserves {S A : Type} (I : S -> Prop) (c : EffS S A) : Prop :=
  forall s w, I s -> I (snd (fst (c s w))).


(** Every place of a result is filed under its own category and is of
    the given kind. *)
Definition filed (kind : Place.Kind) (data : PlacesByCategory) : Prop :=
  forall entry place,
    In entry data -> In place (snd entry) ->
    Place.category place = fst entry /\ Place.type place = kind.

(** Two places that differ at most in address, city, state and
    country. *)
Definition sameButAddress (p q : Place.t) : Prop :=
  exists address city state country,
    q = Verified.withAddress address city state country p.

(** No element of any answer carries a tag value that names a member of
    [Object.prototype]. *)
Definition plainElements (env : Env) : Prop :=
  forall n req r elements element prop,
    network env n req = Responds r ->
    body r = OverpassBody (Some elements) ->
    In element elements ->
    Categorize.determineCategoryFromTags (elTags element)
    <> Categorize.Member prop.

End Reading.

(* ################################################################## *)
(** * Part II: properties *)
(* ################################################################## *)

(* ================================================================== *)
(** * Properties of JavaScript numbers *)
(* ================================================================== *)

Module JsNumFacts.

Import JsNum.
Open Scope float_scope.

(** ** Sign symmetry of the arithmetic operations *)

Lemma binary_round_aux_opp (s : bool) (m e : Z) (l : location) :
  binary_round_aux prec emax (negb s) m e l
  = SFopp (binary_round_aux prec emax s m e l).
Proof.
  unfold binary_round_aux.
  destruct (shr_fexp prec emax m e l) as [mrs' e'].
  destruct (shr_fexp prec emax _ e' loc_Exact) as [mrs'' e''].
  destruct (shr_m mrs''); try reflexivity.
  destruct (e'' <=? emax - prec)%Z; reflexivity.
Qed.

Lemma binary_round_opp (s : bool) (m : positive) (e : Z) :
  binary_round prec emax (negb s) m e = SFopp (binary_round prec emax s m e).
Proof.
  unfold binary_round.
  destruct (shl_align m e _) as [mz ez].
  apply binary_round_aux_opp.
Qed.

Lemma SFopp_involutive (x : spec_float) : SFopp (SFopp x) = x.
Proof. destruct x as [[|]|[|]| |[|] m e]; reflexivity. Qed.

Lemma opp_involutive (x : float) : - - x = x.
Proof.
  apply Prim2SF_inj. rewrite !opp_spec. apply SFopp_involutive.
Qed.

Lemma SFmul_comm (x y : spec_float) : SF64mul x y = SF64mul y x.
Proof.
  unfold SF64mul.
  destruct x as [sx|sx| |sx mx ex], y as [sy|sy| |sy my ey];
    simpl; rewrite ?(xorb_comm sx sy); try reflexivity.
  now rewrite Pos.mul_comm, Z.add_comm.
Qed.

Lemma mul_comm (x y : float) : x * y = y * x.
Proof. apply Prim2SF_inj. rewrite !mul_spec. apply SFmul_comm. Qed.

Lemma SFmul_opp_l (x y : spec_float) :
  SF64mul (SFopp x) y = SFopp (SF64mul x y).
Proof.
  unfold SF64mul.
  destruct x as [sx|sx| |sx mx ex], y as [sy|sy| |sy my ey]; simpl;
    try reflexivity;
    try (destruct sx, sy; reflexivity).
  rewrite <- binary_round_aux_opp. now destruct sx, sy.
Qed.

Lemma mul_opp_l (x y : float) : (- x) * y = - (x * y).
Proof.
  apply Prim2SF_inj. rewrite opp_spec, !mul_spec, opp_spec.
  apply SFmul_opp_l.
Qed.

Lemma mul_opp_r (x y : float) : x * (- y) = - (x * y).
Proof. now rewrite (mul_comm x), mul_opp_l, (mul_comm y). Qed.

Lemma mul_opp_opp (x y : float) : (- x) * (- y) = x * y.
Proof. now rewrite mul_opp_l, mul_opp_r, opp_involutive. Qed.

Lemma SFdiv_opp_l (x y : spec_float) :
  SF64div (SFopp x) y = SFopp (SF64div x y).
Proof.
  unfold SF64div.
  destruct x as [sx|sx| |sx mx ex], y as [sy|sy| |sy my ey]; simpl;
    try reflexivity;
    try (destruct sx, sy; reflexivity).
  destruct (SFdiv_core_binary prec emax (Z.pos mx) ex (Z.pos my) ey)
    as [[mz ez] lz].
  rewrite <- binary_round_aux_opp. now destruct sx, sy.
Qed.

Lemma div_opp_l (x y : float) : (- x) / y = - (x / y).
Proof.
  apply Prim2SF_inj. rewrite opp_spec, !div_spec, opp_spec.
  apply SFdiv_opp_l.
Qed.

Lemma div_nan_r (x : float) : x / nan = nan.
Proof.
  apply Prim2SF_inj. rewrite div_spec.
  change (Prim2SF nan) with S754_nan.
  unfold SF64div, SFdiv.
  destruct (Prim2SF x) as [sx|sx| |sx mx ex]; reflexivity.
Qed.

Lemma binary_normalize_opp (m e : Z) :
  m <> 0%Z ->
  binary_normalize prec emax (- m) e false
  = SFopp (binary_normalize prec emax m e false).
Proof.
  destruct m as [|p|p]; intros Hm; [congruence| |]; simpl.
  - apply (binary_round_opp false).
  - rewrite <- (binary_round_opp true). reflexivity.
Qed.

(** Swapping the operands of a subtraction negates the result, except
    when the result is the zero produced by cancellation (or NaN), which is
    the same both ways. *)
Lemma SFsub_swap (x y : spec_float) :
  SF64sub y x = SFopp (SF64sub x y) \/ SF64sub y x = SF64sub x y.
Proof.
  unfold SF64sub.
  destruct x as [sx|sx| |sx mx ex], y as [sy|sy| |sy my ey]; simpl;
    try (left; reflexivity);
    try (right; reflexivity);
    try (destruct sx, sy; simpl; auto; fail);
    try (destruct sx; simpl; auto; fail);
    try (destruct sy; simpl; auto; fail).
  rewrite (Z.min_comm ey ex).
  set (ez := Z.min ex ey).
  set (X := cond_Zopp sx _). set (Y := cond_Zopp sy _).
  destruct (Z.eq_dec (X - Y) 0) as [E|N].
  - right. replace (Y - X)%Z with 0%Z by lia. now rewrite E.
  - left. replace (Y - X)%Z with (- (X - Y))%Z by lia.
    now apply binary_normalize_opp.
Qed.

Lemma sub_swap (x y : float) : y - x = - (x - y) \/ y - x = x - y.
Proof.
  destruct (SFsub_swap (Prim2SF x) (Prim2SF y)) as [H|H]; [left|right];
    apply Prim2SF_inj; rewrite ?opp_spec, !sub_spec; exact H.
Qed.

(** ** Cancellation *)

Lemma SFsub_diag (x : spec_float) :
  match x with S754_zero _ | S754_finite _ _ _ => True | _ => False end ->
  SF64sub x x = S754_zero false.
Proof.
  destruct x as [[|]|[|]| |s m e]; simpl; try tauto; intros _; try reflexivity.
  unfold SF64sub, SFsub. now rewrite Z.sub_diag.
Qed.

Lemma sub_diag (x : float) : isFinite x = true -> x - x = 0.
Proof.
  unfold isFinite. intros H. apply Prim2SF_inj. rewrite sub_spec.
  rewrite SFsub_diag; [reflexivity|].
  destruct (Prim2SF x); try discriminate; exact I.
Qed.

(** ** Binary digits and right shifts *)

Lemma digits2_pos_size (p : positive) : digits2_pos p = Pos.size p.
Proof. induction p; simpl; congruence. Qed.

Lemma Zdigits2_log2 (p : positive) :
  Zdigits2 (Z.pos p) = (Z.log2 (Z.pos p) + 1)%Z.
Proof.
  simpl. rewrite digits2_pos_size.
  destruct p; simpl; rewrite ?Pos2Z.inj_succ; lia.
Qed.

Lemma Zdigits2_nonneg (z : Z) : (0 <= Zdigits2 z)%Z.
Proof. destruct z; simpl; lia. Qed.

Lemma Zdigits2_mono (a b : Z) :
  (0 <= a <= b)%Z -> (Zdigits2 a <= Zdigits2 b)%Z.
Proof.
  intros [Ha Hab].
  destruct a as [|a|a]; [apply Zdigits2_nonneg| |lia].
  destruct b as [|b|b]; try lia.
  rewrite !Zdigits2_log2.
  apply Z.add_le_mono_r, Z.log2_le_mono. exact Hab.
Qed.

Lemma Zdigits2_succ (a : Z) :
  (0 <= a)%Z -> (Zdigits2 (a + 1) <= Zdigits2 a + 1)%Z.
Proof.
  intros Ha. destruct a as [|a|a]; [simpl; lia| |lia].
  assert (E : (Z.pos a + 1 = Z.pos (a + 1))%Z) by lia.
  rewrite E, !Zdigits2_log2, <- E.
  pose proof (Z.log2_succ_le (Z.pos a)). unfold Z.succ in *. lia.
Qed.

Lemma Zdigits2_mul (a b : positive) :
  (Zdigits2 (Z.pos (a * b)) <= Zdigits2 (Z.pos a) + Zdigits2 (Z.pos b))%Z.
Proof.
  rewrite !Zdigits2_log2, Pos2Z.inj_mul.
  pose proof (Z.log2_mul_above (Z.pos a) (Z.pos b)). lia.
Qed.

Lemma Zdigits2_lower (p : positive) :
  (2 ^ (Zdigits2 (Z.pos p) - 1) <= Z.pos p)%Z.
Proof.
  rewrite Zdigits2_log2. replace (Z.log2 (Z.pos p) + 1 - 1)%Z with
    (Z.log2 (Z.pos p)) by lia.
  apply Z.log2_spec. lia.
Qed.

Lemma Zdigits2_upper (p : positive) :
  (Z.pos p < 2 ^ Zdigits2 (Z.pos p))%Z.
Proof.
  rewrite Zdigits2_log2. apply (Z.log2_spec (Z.pos p)). lia.
Qed.

Lemma shr_1_m (r : shr_record) :
  (0 <= shr_m r)%Z -> shr_m (shr_1 r) = (shr_m r / 2)%Z.
Proof.
  destruct r as [m rr s]. simpl. intros Hm.
  destruct m as [|[p|p|]|p]; simpl; try lia; try reflexivity.
  - apply Z.div_unique with 1%Z; lia.
  - apply Z.div_unique with 0%Z; lia.
Qed.

Lemma pow2_xI (p : positive) :
  (2 ^ Z.pos p~1 = 2 * (2 ^ Z.pos p * 2 ^ Z.pos p))%Z.
Proof.
  change (Z.pos p~1) with (2 * Z.pos p + 1)%Z.
  rewrite Z.pow_add_r, Z.pow_mul_r by lia.
  change (2 ^ 2)%Z with 4%Z. change (2 ^ 1)%Z with 2%Z.
  rewrite <- Z.pow_mul_l. simpl (2 * 2)%Z. lia.
Qed.

Lemma pow2_xO (p : positive) :
  (2 ^ Z.pos p~0 = 2 ^ Z.pos p * 2 ^ Z.pos p)%Z.
Proof.
  change (Z.pos p~0) with (2 * Z.pos p)%Z.
  rewrite Z.pow_mul_r by lia.
  change (2 ^ 2)%Z with 4%Z.
  rewrite <- Z.pow_mul_l. reflexivity.
Qed.

Lemma iter_pos_shr_m (p : positive) :
  forall r, (0 <= shr_m r)%Z ->
  shr_m (iter_pos shr_1 p r) = (shr_m r / 2 ^ Z.pos p)%Z.
Proof.
  assert (P2 : forall q, (0 < 2 ^ Z.pos q)%Z)
    by (intros q; apply Z.pow_pos_nonneg; lia).
  induction p as [p IH|p IH|]; intros r Hr; cbn [iter_pos].
  - assert (H1 : (0 <= shr_m (shr_1 r))%Z)
      by (rewrite shr_1_m by assumption; apply Z.div_pos; lia).
    assert (H2 : (0 <= shr_m (iter_pos shr_1 p (shr_1 r)))%Z)
      by (rewrite IH by assumption; apply Z.div_pos; [assumption|apply P2]).
    rewrite IH, IH, shr_1_m by assumption.
    pose proof (P2 p).
    rewrite !Z.div_div by lia.
    f_equal. rewrite pow2_xI. ring.
  - assert (H2 : (0 <= shr_m (iter_pos shr_1 p r))%Z)
      by (rewrite IH by assumption; apply Z.div_pos; [assumption|apply P2]).
    rewrite IH, IH by assumption.
    pose proof (P2 p).
    rewrite !Z.div_div by lia.
    f_equal. rewrite pow2_xO. ring.
  - rewrite shr_1_m by assumption. reflexivity.
Qed.

Abbreviation fexp64 := (fexp prec emax).
Abbreviation emin64 := (emin prec emax).

(** What [shr_fexp] does to the exponent and the mantissa. *)
Lemma shr_fexp_spec (m e : Z) (l : location) :
  (0 <= m)%Z ->
  let '(r, e') := shr_fexp prec emax m e l in
  e' = Z.max e (fexp64 (Zdigits2 m + e))
  /\ shr_m r = (m / 2 ^ (e' - e))%Z.
Proof.
  intros Hm. unfold shr_fexp, shr.
  assert (Hrec : shr_m (shr_record_of_loc m l) = m)
    by (destruct l as [|[| |]]; reflexivity).
  destruct (fexp64 (Zdigits2 m + e) - e)%Z as [|p|p] eqn:En.
  - split; [lia|]. rewrite Hrec, Z.sub_diag. simpl. now rewrite Z.div_1_r.
  - split; [lia|].
    rewrite iter_pos_shr_m by (rewrite Hrec; exact Hm).
    rewrite Hrec. f_equal. f_equal. lia.
  - split; [lia|]. rewrite Hrec, Z.sub_diag. simpl. now rewrite Z.div_1_r.
Qed.

Lemma round_nearest_even_bounds (m : Z) (l : location) :
  (m <= round_nearest_even m l <= m + 1)%Z.
Proof.
  destruct l as [|[| |]]; simpl; try lia.
  destruct (Z.even m); lia.
Qed.

(** ** Canonical representations *)

Lemma fexp64_eq (k : Z) : fexp64 k = Z.max (k - 53) (-1074).
Proof. reflexivity. Qed.

Lemma valid_finite (x : float) (s : bool) (m : positive) (e : Z) :
  Prim2SF x = S754_finite s m e ->
  fexp64 (Zdigits2 (Z.pos m) + e) = e /\ (e <= 971)%Z.
Proof.
  intros E. pose proof (Prim2SF_valid x) as V. rewrite E in V.
  simpl in V. unfold bounded, canonical_mantissa in V.
  apply andb_true_iff in V. destruct V as [V1 V2].
  apply Z.eqb_eq in V1. apply Z.leb_le in V2. split.
  - exact V1.
  - exact V2.
Qed.

(** A canonical mantissa has at most 53 digits, exactly 53 above the
    smallest exponent, and the exponent is at least [-1074]. *)
Lemma canonical_digits (m : positive) (e : Z) :
  fexp64 (Zdigits2 (Z.pos m) + e) = e ->
  (-1074 <= e)%Z /\ (Zdigits2 (Z.pos m) <= 53)%Z
  /\ ((-1074 < e)%Z -> Zdigits2 (Z.pos m) = 53%Z).
Proof. rewrite fexp64_eq. lia. Qed.

Lemma iter_xO_val (m d : positive) :
  Z.pos (Pos.iter xO m d) = (Z.pos m * 2 ^ Z.pos d)%Z.
Proof.
  induction d as [|d IH] using Pos.peano_ind.
  - simpl. lia.
  - rewrite Pos.iter_succ, Pos2Z.inj_xO, IH, Pos2Z.inj_succ.
    rewrite Z.pow_succ_r by lia. ring.
Qed.

Lemma shl_align_val (m : positive) (e ez : Z) :
  (ez <= e)%Z ->
  Z.pos (fst (shl_align m e ez)) = (Z.pos m * 2 ^ (e - ez))%Z.
Proof.
  intros H. unfold shl_align.
  destruct (ez - e)%Z as [|d|d] eqn:E; simpl fst.
  - replace (e - ez)%Z with 0%Z by lia. simpl. lia.
  - lia.
  - rewrite iter_xO_val. f_equal. f_equal. lia.
Qed.

Lemma pow2_ge_2 (k : Z) : (0 < k)%Z -> (2 <= 2 ^ k)%Z.
Proof.
  intros H. change 2%Z with (2 ^ 1)%Z at 1.
  apply Z.pow_le_mono_r; lia.
Qed.

(** Comparing canonical magnitudes by exponent, then mantissa, agrees
    with comparing the mantissas aligned on the smaller exponent. *)
Lemma mant_compare (m1 m2 : positive) (e1 e2 : Z) :
  fexp64 (Zdigits2 (Z.pos m1) + e1) = e1 ->
  fexp64 (Zdigits2 (Z.pos m2) + e2) = e2 ->
  match (e1 ?= e2)%Z with
  | Lt => Lt
  | Gt => Gt
  | Eq => Pos.compare_cont Eq m1 m2
  end
  = (Z.pos m1 * 2 ^ (e1 - Z.min e1 e2)
     ?= Z.pos m2 * 2 ^ (e2 - Z.min e1 e2))%Z.
Proof.
  intros C1 C2.
  apply canonical_digits in C1. destruct C1 as (L1 & D1 & N1).
  apply canonical_digits in C2. destruct C2 as (L2 & D2 & N2).
  pose proof (Zdigits2_lower m1) as Lo1. pose proof (Zdigits2_upper m1) as Up1.
  pose proof (Zdigits2_lower m2) as Lo2. pose proof (Zdigits2_upper m2) as Up2.
  assert (P53 : forall d, (d <= 53)%Z -> (2 ^ d <= 2 ^ 53)%Z)
    by (intros d Hd; apply Z.pow_le_mono_r; lia).
  destruct (e1 ?= e2)%Z eqn:E.
  - apply Z.compare_eq in E. subst e2.
    rewrite Z.min_id, Z.sub_diag. simpl (2 ^ 0)%Z. rewrite !Z.mul_1_r.
    reflexivity.
  - rewrite Z.compare_lt_iff in E.
    rewrite Z.min_l, Z.sub_diag by lia. simpl (2 ^ 0)%Z. rewrite Z.mul_1_r.
    symmetry. apply Z.compare_lt_iff.
    rewrite N2 in Lo2 by lia. simpl (53 - 1)%Z in Lo2.
    pose proof (P53 _ D1). pose proof (pow2_ge_2 (e2 - e1)).
    change (2 ^ 53)%Z with (2 ^ 52 * 2)%Z in *. nia.
  - rewrite Z.compare_gt_iff in E.
    rewrite Z.min_r, Z.sub_diag by lia. simpl (2 ^ 0)%Z. rewrite Z.mul_1_r.
    symmetry. apply Z.compare_gt_iff.
    rewrite N1 in Lo1 by lia. simpl (53 - 1)%Z in Lo1.
    pose proof (P53 _ D2). pose proof (pow2_ge_2 (e1 - e2)).
    change (2 ^ 53)%Z with (2 ^ 52 * 2)%Z in *. nia.
Qed.

(** ** The shape of a rounded result *)

(** [binary_round_aux] shifts to the canonical exponent, rounds, and
    shifts once more in case rounding carried into a further digit. *)
Lemma binary_round_aux_unfold (s : bool) (m e : Z) (l : location) :
  (0 <= m)%Z ->
  exists m1 e1 m2 e2,
    e1 = Z.max e (fexp64 (Zdigits2 m + e))
    /\ (m / 2 ^ (e1 - e) <= m1 <= m / 2 ^ (e1 - e) + 1)%Z
    /\ e2 = Z.max e1 (fexp64 (Zdigits2 m1 + e1))
    /\ m2 = (m1 / 2 ^ (e2 - e1))%Z
    /\ binary_round_aux prec emax s m e l
       = match m2 with
         | Z0 => S754_zero s
         | Z.pos p => if (e2 <=? emax - prec)%Z then S754_finite s p e2
                      else S754_infinity s
         | Z.neg _ => S754_nan
         end.
Proof.
  intros Hm. unfold binary_round_aux.
  pose proof (shr_fexp_spec m e l Hm) as H1.
  destruct (shr_fexp prec emax m e l) as [r1 e1]. destruct H1 as [E1 M1].
  set (m1 := round_nearest_even (shr_m r1) (loc_of_shr_record r1)).
  pose proof (round_nearest_even_bounds (shr_m r1) (loc_of_shr_record r1))
    as B1. fold m1 in B1. rewrite M1 in B1.
  assert (Hq : (0 <= m / 2 ^ (e1 - e))%Z).
  { apply Z.div_pos; [exact Hm|]. apply Z.pow_pos_nonneg; lia. }
  assert (Hm1 : (0 <= m1)%Z) by lia.
  pose proof (shr_fexp_spec m1 e1 loc_Exact Hm1) as H2.
  destruct (shr_fexp prec emax m1 e1 loc_Exact) as [r2 e2].
  destruct H2 as [E2 M2].
  exists m1, e1, (shr_m r2), e2. repeat split; auto; lia.
Qed.

Lemma shift_pos (m e e1 : Z) :
  (0 < m)%Z -> (-1074 <= e)%Z ->
  e1 = Z.max e (fexp64 (Zdigits2 m + e)) ->
  (0 < m / 2 ^ (e1 - e))%Z /\ (-1074 <= e1)%Z.
Proof.
  intros Hm He E1. rewrite fexp64_eq in E1. split; [|lia].
  destruct m as [|p|p]; try lia.
  pose proof (Zdigits2_lower p) as Lo.
  pose proof (Zdigits2_nonneg (Z.pos p)) as Dn.
  assert (Dp : (1 <= Zdigits2 (Z.pos p))%Z)
    by (rewrite Zdigits2_log2; pose proof (Z.log2_nonneg (Z.pos p)); lia).
  apply Z.div_str_pos. split.
  - apply Z.pow_pos_nonneg; lia.
  - destruct (Z.eq_dec e1 e) as [->|Ne].
    + rewrite Z.sub_diag. simpl. lia.
    + assert (e1 - e = Zdigits2 (Z.pos p) - 53)%Z as -> by lia.
      etransitivity; [|exact Lo]. apply Z.pow_le_mono_r; lia.
Qed.

(** Rounding a positive integer at a representable exponent never
    yields a zero: the result is a number or an infinity of the given
    sign. *)
Lemma binary_round_aux_pos (s : bool) (m e : Z) (l : location) :
  (0 < m)%Z -> (-1074 <= e)%Z ->
  (exists p e', binary_round_aux prec emax s m e l = S754_finite s p e')
  \/ binary_round_aux prec emax s m e l = S754_infinity s.
Proof.
  intros Hm He.
  destruct (binary_round_aux_unfold s m e l) as
    (m1 & e1 & m2 & e2 & E1 & B1 & E2 & M2 & R); [lia|].
  destruct (shift_pos m e e1 Hm He E1) as [P1 L1].
  assert (Hm1 : (0 < m1)%Z) by lia.
  destruct (shift_pos m1 e1 e2 Hm1 L1 E2) as [P2 L2].
  rewrite <- M2 in P2. rewrite R.
  destruct m2 as [|p|p]; try lia.
  destruct (e2 <=? emax - prec)%Z; [left; eauto|right; reflexivity].
Qed.

Lemma binary_round_pos (s : bool) (m : positive) (e : Z) :
  (-1074 <= e)%Z ->
  (exists p e', binary_round prec emax s m e = S754_finite s p e')
  \/ binary_round prec emax s m e = S754_infinity s.
Proof.
  intros He. unfold binary_round.
  destruct (shl_align m e _) as [mz ez] eqn:A.
  apply binary_round_aux_pos; [lia|].
  unfold shl_align in A. rewrite fexp64_eq in A.
  destruct (_ - e)%Z; inversion A; subst; lia.
Qed.

(** The sign of a normalised integer is the sign of the integer. *)
Lemma binary_normalize_pos_iff (m e : Z) :
  (-1074 <= e)%Z ->
  SFltb (S754_zero false) (binary_normalize prec emax m e false)
  = (0 <? m)%Z.
Proof.
  intros He. destruct m as [|p|p]; simpl binary_normalize.
  - reflexivity.
  - destruct (binary_round_pos false p e He) as [(q & e' & ->)| ->];
      reflexivity.
  - destruct (binary_round_pos true p e He) as [(q & e' & ->)| ->];
      reflexivity.
Qed.

(** ** Subtraction as a comparator *)

Lemma SFsub_pos_iff (sx sy : bool) (mx my : positive) (ex ey : Z) :
  fexp64 (Zdigits2 (Z.pos mx) + ex) = ex ->
  fexp64 (Zdigits2 (Z.pos my) + ey) = ey ->
  SFltb (S754_zero false)
        (SF64sub (S754_finite sx mx ex) (S754_finite sy my ey))
  = SFltb (S754_finite sy my ey) (S754_finite sx mx ex).
Proof.
  intros Cx Cy.
  pose proof (canonical_digits _ _ Cx) as (Lx & _ & _).
  pose proof (canonical_digits _ _ Cy) as (Ly & _ & _).
  unfold SF64sub, SFsub.
  rewrite binary_normalize_pos_iff by lia.
  rewrite !shl_align_val by lia.
  pose proof (mant_compare my mx ey ex Cy Cx) as MC.
  rewrite (Z.min_comm ey ex) in MC.
  set (X := (Z.pos mx * 2 ^ (ex - Z.min ex ey))%Z) in *.
  set (Y := (Z.pos my * 2 ^ (ey - Z.min ex ey))%Z) in *.
  assert (HX : (0 < X)%Z)
    by (apply Z.mul_pos_pos; [lia|apply Z.pow_pos_nonneg; lia]).
  assert (HY : (0 < Y)%Z)
    by (apply Z.mul_pos_pos; [lia|apply Z.pow_pos_nonneg; lia]).
  unfold SFltb, SFcompare.
  destruct sx, sy; simpl cond_Zopp.
  - (* both negative *)
    replace (match (ey ?= ex)%Z with
             | Eq => CompOpp (Pos.compare_cont Eq my mx)
             | Lt => Gt
             | Gt => Lt
             end)
      with (CompOpp (match (ey ?= ex)%Z with
                     | Eq => Pos.compare_cont Eq my mx
                     | Lt => Lt
                     | Gt => Gt
                     end))
      by (destruct (ey ?= ex)%Z; reflexivity).
    rewrite MC. destruct (Y ?= X)%Z eqn:C; simpl.
    + apply Z.compare_eq in C. apply Z.ltb_ge. lia.
    + rewrite Z.compare_lt_iff in C. apply Z.ltb_ge. lia.
    + rewrite Z.compare_gt_iff in C. apply Z.ltb_lt. lia.
  - (* x negative, y positive *)
    apply Z.ltb_ge. lia.
  - (* x positive, y negative *)
    apply Z.ltb_lt. lia.
  - (* both positive *)
    rewrite MC. destruct (Y ?= X)%Z eqn:C; simpl.
    + apply Z.compare_eq in C. apply Z.ltb_ge. lia.
    + rewrite Z.compare_lt_iff in C. apply Z.ltb_lt. lia.
    + rewrite Z.compare_gt_iff in C. apply Z.ltb_ge. lia.
Qed.

(** For finite numbers the comparator [a - b] is positive exactly when
    [b < a]: subtraction never rounds a non-zero difference to zero. *)
Lemma sub_pos_iff (x y : float) :
  isFinite x = true -> isFinite y = true ->
  (0 <? x - y) = (y <? x).
Proof.
  unfold isFinite. intros Fx Fy.
  rewrite !ltb_spec, sub_spec.
  change (Prim2SF 0) with (S754_zero false).
  destruct (Prim2SF x) as [sx|sx| |sx mx ex] eqn:Ex; try discriminate;
  destruct (Prim2SF y) as [sy|sy| |sy my ey] eqn:Ey; try discriminate.
  - destruct sx, sy; reflexivity.
  - destruct sy; reflexivity.
  - destruct sx; reflexivity.
  - apply SFsub_pos_iff.
    + exact (proj1 (valid_finite x sx mx ex Ex)).
    + exact (proj1 (valid_finite y sy my ey Ey)).
Qed.

Lemma SFcompare_antisym (x y : spec_float) :
  SFcompare x y = option_map CompOpp (SFcompare y x).
Proof.
  destruct x as [sx|sx| |sx mx ex], y as [sy|sy| |sy my ey]; simpl;
    try reflexivity;
    try (destruct sx, sy; reflexivity);
    try (destruct sx; reflexivity);
    try (destruct sy; reflexivity).
  pose proof (Pos.compare_cont_antisym mx my Eq) as A. simpl in A.
  rewrite <- A, (Z.compare_antisym ex ey).
  destruct sx, sy; simpl; try reflexivity;
    destruct (ex ?= ey)%Z; simpl; try reflexivity;
    now rewrite ?CompOpp_involutive.
Qed.

Lemma not_ltb_leb (x y : float) :
  isFinite x = true -> isFinite y = true ->
  (y <? x) = false -> (x <=? y) = true.
Proof.
  unfold isFinite. rewrite ltb_spec, leb_spec. unfold SFltb, SFleb.
  rewrite (SFcompare_antisym (Prim2SF x) (Prim2SF y)).
  intros Fx Fy.
  destruct (SFcompare (Prim2SF y) (Prim2SF x)) as [[| |]|] eqn:C;
    simpl; try congruence.
  destruct (Prim2SF x) as [sx|sx| |sx mx ex]; try discriminate;
  destruct (Prim2SF y) as [sy|sy| |sy my ey]; discriminate.
Qed.

(** ** Results that do not overflow *)

Lemma Zdigits2_lt_pow (z k : Z) :
  (0 <= z)%Z -> (0 <= k)%Z -> (z < 2 ^ k)%Z -> (Zdigits2 z <= k)%Z.
Proof.
  intros Hz Hk H. destruct z as [|p|p]; [simpl; lia| |lia].
  rewrite Zdigits2_log2.
  assert (Z.log2 (Z.pos p) < k)%Z by (apply Z.log2_lt_pow2; lia). lia.
Qed.

Lemma Zdigits2_shift (z k : Z) :
  (0 <= z)%Z -> (0 <= k)%Z ->
  (Zdigits2 (z / 2 ^ k) <= Z.max 0 (Zdigits2 z - k))%Z.
Proof.
  intros Hz Hk.
  assert (Pk : (0 < 2 ^ k)%Z) by (apply Z.pow_pos_nonneg; lia).
  destruct z as [|p|p]; [rewrite Z.div_0_l by lia; simpl; lia| |lia].
  pose proof (Zdigits2_upper p) as Up.
  set (D := Zdigits2 (Z.pos p)) in *.
  destruct (Z_le_gt_dec k D) as [L|G].
  - rewrite Z.max_r by lia. apply Zdigits2_lt_pow; try lia.
    + apply Z.div_pos; lia.
    + apply Z.div_lt_upper_bound; [lia|].
      rewrite <- Z.pow_add_r by lia. now replace (k + (D - k))%Z with D by lia.
  - rewrite Z.div_small; [simpl; lia|]. split; [lia|].
    eapply Z.lt_le_trans; [exact Up|].
    apply Z.pow_le_mono_r; lia.
Qed.

(** If the exact value [m * 2^e] is below [2^1023], rounding it gives a
    zero or a finite number. *)
Lemma binary_round_aux_finite (s : bool) (m e : Z) (l : location) :
  (0 <= m)%Z -> (Zdigits2 m + e <= 1023)%Z -> (e <= 971)%Z ->
  match binary_round_aux prec emax s m e l with
  | S754_zero s' | S754_finite s' _ _ => s' = s
  | _ => False
  end.
Proof.
  intros Hm HD He.
  destruct (binary_round_aux_unfold s m e l Hm) as
    (n1 & f1 & n2 & f2 & E1 & N1 & E2 & N2 & R).
  rewrite R. clear R.
  rewrite fexp64_eq in E1, E2.
  assert (K1 : (0 <= f1 - e)%Z) by lia.
  pose proof (Zdigits2_shift m (f1 - e) Hm K1) as S1.
  assert (P1 : (0 < 2 ^ (f1 - e))%Z) by (apply Z.pow_pos_nonneg; lia).
  assert (Q1 : (0 <= m / 2 ^ (f1 - e))%Z) by (apply Z.div_pos; lia).
  assert (Dn1 : (Zdigits2 n1 <= Zdigits2 (m / 2 ^ (f1 - e)) + 1)%Z).
  { etransitivity;
      [apply (Zdigits2_mono n1 (m / 2 ^ (f1 - e) + 1)); lia|].
    apply Zdigits2_succ. lia. }
  assert (P2 : (0 < 2 ^ (f2 - f1))%Z) by (apply Z.pow_pos_nonneg; lia).
  assert (Hn2 : (0 <= n2)%Z) by (subst n2; apply Z.div_pos; lia).
  destruct n2 as [|p|p]; try lia; try reflexivity.
  replace (f2 <=? emax - prec)%Z with true; [reflexivity|].
  symmetry. apply Z.leb_le. change (emax - prec)%Z with 971%Z. lia.
Qed.

(** [|C| <= B] for a positive finite bound [B] limits the exponent. *)
Lemma SFabs_le_bound (C : spec_float) (mB : positive) (eB : Z) :
  SFleb (SFabs C) (S754_finite false mB eB) = true ->
  match C with
  | S754_zero _ => True
  | S754_finite _ _ e => (e <= eB)%Z
  | _ => False
  end.
Proof.
  destruct C as [s|s| |s m e]; simpl; try discriminate; auto.
  unfold SFleb, SFcompare.
  destruct (e ?= eB)%Z eqn:E; try discriminate; intros _.
  - apply Z.compare_eq in E. lia.
  - rewrite Z.compare_lt_iff in E. lia.
Qed.

Lemma SFmul_finite (s1 s2 : bool) (m1 m2 : positive) (e1 e2 : Z) :
  fexp64 (Zdigits2 (Z.pos m1) + e1) = e1 ->
  fexp64 (Zdigits2 (Z.pos m2) + e2) = e2 ->
  (e1 + e2 <= 917)%Z ->
  match SF64mul (S754_finite s1 m1 e1) (S754_finite s2 m2 e2) with
  | S754_zero s | S754_finite s _ _ => s = xorb s1 s2
  | _ => False
  end.
Proof.
  intros C1 C2 B.
  apply canonical_digits in C1. destruct C1 as (_ & D1 & _).
  apply canonical_digits in C2. destruct C2 as (_ & D2 & _).
  unfold SF64mul, SFmul.
  pose proof (Zdigits2_mul m1 m2) as Dm.
  apply binary_round_aux_finite; lia.
Qed.

(** A product of two numbers of magnitude at most one is finite. *)
Lemma mul_small_finite (c1 c2 : float) :
  (abs c1 <=? 1) = true -> (abs c2 <=? 1) = true ->
  isFinite (c1 * c2) = true.
Proof.
  rewrite !leb_spec, !abs_spec.
  change (Prim2SF 1) with (S754_finite false 4503599627370496 (-52)).
  intros H1 H2.
  apply SFabs_le_bound in H1. apply SFabs_le_bound in H2.
  unfold isFinite. rewrite mul_spec.
  destruct (Prim2SF c1) as [s1|s1| |s1 m1 e1] eqn:E1; try tauto;
  destruct (Prim2SF c2) as [s2|s2| |s2 m2 e2] eqn:E2; try tauto;
    try reflexivity.
  assert (B : (e1 + e2 <= 917)%Z) by lia.
  pose proof (SFmul_finite s1 s2 m1 m2 e1 e2
                (proj1 (valid_finite _ _ _ _ E1))
                (proj1 (valid_finite _ _ _ _ E2)) B) as F.
  destruct (SF64mul _ _); tauto.
Qed.

(** A finite number times [+0] is a zero of the number's sign. *)
Lemma SFmul_zero_r (C : spec_float) :
  match C with S754_zero _ | S754_finite _ _ _ => True | _ => False end ->
  exists s, SF64mul C (S754_zero false) = S754_zero s
            /\ s = match C with
                   | S754_zero s' | S754_finite s' _ _ => s'
                   | _ => false
                   end.
Proof.
  destruct C as [s|s| |s m e]; simpl; try tauto; intros _;
    exists s; now rewrite xorb_false_r.
Qed.

(** A latitude or longitude within [-180, 180] degrees converts to a
    finite angle in radians. *)
Lemma mul_PI_finite (x : float) :
  (abs x <=? 180) = true -> isFinite (x * PI) = true.
Proof.
  rewrite leb_spec, abs_spec.
  change (Prim2SF 180) with (S754_finite false 6333186975989760 (-45)).
  intros H. apply SFabs_le_bound in H.
  unfold isFinite. rewrite mul_spec.
  change (Prim2SF PI) with (S754_finite false 7074237752028440 (-51)).
  destruct (Prim2SF x) as [s|s| |s m e] eqn:E; try tauto; try reflexivity.
  assert (B : (e + -51 <= 917)%Z) by lia.
  pose proof (SFmul_finite s false m 7074237752028440 e (-51)
                (proj1 (valid_finite _ _ _ _ E)) eq_refl B) as F.
  destruct (SF64mul _ _); tauto.
Qed.

(** Dividing a finite number by 180 gives a finite number. *)
Lemma SFdiv_180_finite (s : bool) (m : positive) (e : Z) :
  fexp64 (Zdigits2 (Z.pos m) + e) = e -> (e <= 971)%Z ->
  match SF64div (S754_finite s m e)
                (S754_finite false 6333186975989760 (-45)) with
  | S754_zero _ | S754_finite _ _ _ => True
  | _ => False
  end.
Proof.
  intros C He. apply canonical_digits in C. destruct C as (Le & D & _).
  unfold SF64div, SFdiv, SFdiv_core_binary.
  change (Zdigits2 6333186975989760) with 53%Z.
  set (d1 := Zdigits2 (Z.pos m)) in *.
  set (e' := Z.min (fexp64 (d1 + e - (53 + -45))) (e - -45)).
  assert (Ee' : (e' <= 963 /\ e' <= e + 45)%Z)
    by (unfold e'; rewrite fexp64_eq; lia).
  remember (e - -45 - e')%Z as sh eqn:Esh.
  assert (Hsh : (0 <= sh)%Z) by lia.
  set (m' := match sh with
             | Z0 => Z.pos m
             | Z.pos _ => Z.shiftl (Z.pos m) sh
             | Z.neg _ => 0%Z
             end).
  assert (Hm' : m' = (Z.pos m * 2 ^ sh)%Z).
  { unfold m'. clear Esh. destruct sh as [|p|p]; try lia.
    now rewrite Z.shiftl_mul_pow2 by lia. }
  destruct (Z.div_eucl m' 6333186975989760) as [q r] eqn:DE.
  assert (Hq : q = (m' / 6333186975989760)%Z)
    by (unfold Z.div; now rewrite DE).
  assert (Psh : (0 < 2 ^ sh)%Z) by (apply Z.pow_pos_nonneg; lia).
  assert (Hq0 : (0 <= q)%Z) by (subst q; apply Z.div_pos; nia).
  pose proof (Zdigits2_upper m) as Up. fold d1 in Up.
  assert (Dp : (1 <= d1)%Z).
  { unfold d1. rewrite Zdigits2_log2.
    pose proof (Z.log2_nonneg (Z.pos m)). lia. }
  assert (Hm'up : (m' < 2 ^ (d1 + sh))%Z).
  { rewrite Hm', Z.pow_add_r by lia. nia. }
  assert (Dq : (Zdigits2 q <= Z.max 0 (d1 + sh - 52))%Z).
  { destruct (Z_le_gt_dec 52 (d1 + sh)) as [L|G].
    - rewrite Z.max_r by lia. apply Zdigits2_lt_pow; try lia.
      rewrite Hq. apply Z.div_lt_upper_bound; [lia|].
      eapply Z.lt_le_trans; [exact Hm'up|].
      replace (d1 + sh)%Z with (52 + (d1 + sh - 52))%Z at 1 by lia.
      rewrite Z.pow_add_r by lia.
      apply Z.mul_le_mono_nonneg_r; [apply Z.pow_nonneg; lia|].
      change (2 ^ 52)%Z with 4503599627370496%Z. lia.
    - assert (q = 0)%Z as ->; [|simpl; lia].
      rewrite Hq. apply Z.div_small. split; [nia|].
      eapply Z.lt_le_trans; [exact Hm'up|].
      etransitivity; [apply (Z.pow_le_mono_r 2 (d1 + sh) 52); lia|].
      change (2 ^ 52)%Z with 4503599627370496%Z. lia. }
  pose proof (binary_round_aux_finite (xorb s false) q e'
                (new_location 6333186975989760 r) Hq0) as F.
  assert (B1 : (Zdigits2 q + e' <= 1023)%Z) by lia.
  assert (B2 : (e' <= 971)%Z) by lia.
  specialize (F B1 B2).
  destruct (binary_round_aux _ _ _ _ _ _); tauto.
Qed.

Lemma div_180_finite (x : float) :
  isFinite x = true -> isFinite (x / 180) = true.
Proof.
  unfold isFinite. rewrite div_spec.
  change (Prim2SF 180) with (S754_finite false 6333186975989760 (-45)).
  destruct (Prim2SF x) as [s|s| |s m e] eqn:E; try discriminate; intros _.
  - reflexivity.
  - pose proof (valid_finite _ _ _ _ E) as [C B].
    pose proof (SFdiv_180_finite s m e C B) as F.
    destruct (SF64div _ _); tauto.
Qed.


Lemma toRadians_finite (deg : float) :
  (abs deg <=? 180) = true -> isFinite (toRadians deg) = true.
Proof.
  intros H. apply div_180_finite, mul_PI_finite, H.
Qed.

Lemma abs_le_trans_90_180 (x : float) :
  (abs x <=? 90) = true -> (abs x <=? 180) = true.
Proof.
  rewrite !leb_spec, abs_spec.
  change (Prim2SF 90) with (S754_finite false 6333186975989760 (-46)).
  change (Prim2SF 180) with (S754_finite false 6333186975989760 (-45)).
  destruct (Prim2SF x) as [s|s| |s m e]; simpl; try discriminate; auto.
  unfold SFleb, SFcompare.
  destruct (e ?= -46)%Z eqn:E1; try discriminate; intros _.
  - apply Z.compare_eq in E1. subst e. reflexivity.
  - rewrite Z.compare_lt_iff in E1.
    assert ((e ?= -45)%Z = Lt) as -> by (apply Z.compare_lt_iff; lia).
    reflexivity.
Qed.

Lemma abs_le_180_finite (x : float) :
  (abs x <=? 180) = true -> isFinite x = true.
Proof.
  rewrite leb_spec, abs_spec.
  change (Prim2SF 180) with (S754_finite false 6333186975989760 (-45)).
  intros H. apply SFabs_le_bound in H. unfold isFinite.
  destruct (Prim2SF x); tauto.
Qed.

(** The square of a number of magnitude at most one, times [+0], is
    [+0]. *)
Lemma square_mul_zero (c : float) :
  (abs c <=? 1) = true -> c * c * 0 = 0.
Proof.
  intros H. apply Prim2SF_inj. rewrite mul_spec.
  change (Prim2SF 0) with (S754_zero false).
  rewrite mul_spec.
  rewrite leb_spec, abs_spec in H.
  change (Prim2SF 1) with (S754_finite false 4503599627370496 (-52)) in H.
  apply SFabs_le_bound in H.
  destruct (Prim2SF c) as [s|s| |s m e] eqn:E; try tauto.
  - now destruct s.
  - assert (B : (e + e <= 917)%Z) by lia.
    pose proof (SFmul_finite s s m m e e
                  (proj1 (valid_finite _ _ _ _ E))
                  (proj1 (valid_finite _ _ _ _ E)) B) as F.
    rewrite xorb_nilpotent in F.
    destruct (SF64mul _ _) as [s'|s'| |s' m' e']; try tauto;
      subst s'; reflexivity.
Qed.

End JsNumFacts.

(* ================================================================== *)
(** * Properties of the geometry utilities *)
(* ================================================================== *)

Module GeoFacts.

Import JsNum JsNumFacts Geo.
Open Scope float_scope.

Section WithMath.

Context (M : MathLib).

(** The half-angle sine of a difference, up to sign, does not depend on
    the order of the operands. *)
Lemma half_sine_swap (p q : float) :
  sin_odd_on M ->
  let s1 := sin M ((q - p) * PI / 180 / 2) in
  let s2 := sin M ((p - q) * PI / 180 / 2) in
  s2 = - s1 \/ s2 = s1.
Proof.
  intros Hodd s1 s2. unfold s1, s2.
  destruct (sub_swap q p) as [E|E]; rewrite E.
  - left. rewrite mul_opp_l, !div_opp_l. apply Hodd.
  - right. reflexivity.
Qed.

Lemma haversine_term_swap (c1 c2 s t : float) :
  t = - s \/ t = s -> c2 * c1 * t * t = c1 * c2 * s * s.
Proof.
  intros [-> | ->]; rewrite (mul_comm c2 c1).
  - now rewrite !mul_opp_r, mul_opp_l, opp_involutive.
  - reflexivity.
Qed.

Lemma calculateDistance_sym (lat1 lng1 lat2 lng2 : float) :
  sin_odd_on M ->
  calculateDistance M lat1 lng1 lat2 lng2
  = calculateDistance M lat2 lng2 lat1 lng1.
Proof.
  intros Hodd. unfold calculateDistance. cbv zeta.
  pose proof (half_sine_swap lat2 lat1 Hodd) as E1.
  pose proof (half_sine_swap lng2 lng1 Hodd) as E2.
  cbv zeta in E1, E2.
  set (s := sin M ((lat1 - lat2) * PI / 180 / 2)) in *.
  set (s' := sin M ((lat2 - lat1) * PI / 180 / 2)) in *.
  set (t := sin M ((lng1 - lng2) * PI / 180 / 2)) in *.
  set (t' := sin M ((lng2 - lng1) * PI / 180 / 2)) in *.
  set (c1 := cos M (lat1 * PI / 180)). set (c2 := cos M (lat2 * PI / 180)).
  assert (A : s' * s' + c1 * c2 * t' * t' = s * s + c2 * c1 * t * t).
  { rewrite (haversine_term_swap c2 c1 t t' E2).
    destruct E1 as [-> | ->]; now rewrite ?mul_opp_opp. }
  now rewrite A.
Qed.

Lemma calculateDistance_same (lat lng : float) :
  MathConforms M -> validCoordinate lat lng = true ->
  calculateDistance M lat lng lat lng = 0.
Proof.
  intros C V. unfold validCoordinate in V.
  apply andb_true_iff in V. destruct V as [Vlat Vlng].
  pose proof (abs_le_trans_90_180 lat Vlat) as Vlat'.
  unfold calculateDistance. cbv zeta.
  rewrite (sub_diag lat) by (now apply abs_le_180_finite).
  rewrite (sub_diag lng) by (now apply abs_le_180_finite).
  change (0 * PI / 180 / 2) with 0.
  rewrite (sin_zero M C).
  change (0 * 0) with 0.
  rewrite square_mul_zero.
  - change (0 * 0) with 0. change (0 + 0) with 0.
    change (sqrt 0) with 0. change (sqrt (1 - 0)) with 1.
    rewrite (atan2_zero_one M C). reflexivity.
  - apply (cos_range M C). apply (toRadians_finite lat Vlat').
Qed.

(** C6.  Haversine distance: the claim that for all valid coordinate
    pairs [calculateDistance(a, b)] equals [calculateDistance(b, a)] fails
    at the nearly antipodal points (2.5, 0) and (-2.5, 180).  With the
    sine and the cosine of 2.5 degrees rounded to the nearest number, the
    haversine term [a] is [1 + 2^-52]; [Math.sqrt(1 - a)] is then NaN, and
    the distance is NaN in both orders, so that [==] between the two
    distances is false.  The hypotheses are the values the [Math] object
    returns at the arguments the code evaluates, and that [Math.atan2] of
    a NaN is NaN. *)
Theorem calculateDistance_nan_near_antipodes :
  sin M radians2_5 = sin2_5 ->
  sin M (- radians2_5) = - sin2_5 ->
  cos M radians2_5 = cos2_5 ->
  cos M (- radians2_5) = cos2_5 ->
  sin M radians90 = 1 ->
  sin M (- radians90) = -1 ->
  (forall y, atan2 M y nan = nan) ->
  validCoordinate 2.5 0 = true
  /\ validCoordinate (-2.5) 180 = true
  /\ calculateDistance M 2.5 0 (-2.5) 180 = nan
  /\ calculateDistance M (-2.5) 180 2.5 0 = nan
  /\ (calculateDistance M 2.5 0 (-2.5) 180
      =? calculateDistance M (-2.5) 180 2.5 0) = false.
Proof.
  intros S S' C C' H H' A.
  assert (There : calculateDistance M 2.5 0 (-2.5) 180 = nan).
  { unfold calculateDistance. cbv zeta.
    change ((-2.5 - 2.5) * PI / 180 / 2) with (- radians2_5).
    change ((180 - 0) * PI / 180 / 2) with radians90.
    change (2.5 * PI / 180) with radians2_5.
    change (-2.5 * PI / 180) with (- radians2_5).
    rewrite S', C, C', H.
    change (sqrt (1 - (- sin2_5 * - sin2_5 + cos2_5 * cos2_5 * 1 * 1)))
      with nan.
    rewrite A. reflexivity. }
  assert (Back : calculateDistance M (-2.5) 180 2.5 0 = nan).
  { unfold calculateDistance. cbv zeta.
    change ((2.5 - -2.5) * PI / 180 / 2) with radians2_5.
    change ((0 - 180) * PI / 180 / 2) with (- radians90).
    change (2.5 * PI / 180) with radians2_5.
    change (-2.5 * PI / 180) with (- radians2_5).
    rewrite S, C, C', H'.
    change (sqrt (1 - (sin2_5 * sin2_5 + cos2_5 * cos2_5 * -1 * -1)))
      with nan.
    rewrite A. reflexivity. }
  split; [reflexivity|]. split; [reflexivity|].
  split; [exact There|]. split; [exact Back|].
  rewrite There, Back. reflexivity.
Qed.

End WithMath.

(** C6 at the sample [Math] instance. *)
Lemma calculateDistance_nan_near_antipodes_witness :
  calculateDistance sampledMath 2.5 0 (-2.5) 180 = nan
  /\ calculateDistance sampledMath (-2.5) 180 2.5 0 = nan
  /\ (calculateDistance sampledMath 2.5 0 (-2.5) 180
      =? calculateDistance sampledMath (-2.5) 180 2.5 0) = false.
Proof.
  destruct (calculateDistance_nan_near_antipodes sampledMath)
    as (_ & _ & There & Back & Differ);
    try reflexivity.
  - intros y. unfold sampledMath. cbn [atan2]. apply JsNumFacts.div_nan_r.
  - split; [exact There|]. split; [exact Back|exact Differ].
Defined.

End GeoFacts.

(* ================================================================== *)
(** * Properties of arrays and objects *)
(* ================================================================== *)

Module JsArrayFacts.

Import JsNum JsNumFacts JsArray.
Open Scope float_scope.

Section Sort.

Context {A : Type} (comparefn : A -> A -> float).

Lemma insert_length (x : A) (l : list A) :
  List.length (insert comparefn x l) = S (List.length l).
Proof.
  induction l as [|y l IH]; simpl; [reflexivity|].
  destruct (0 <? comparefn x y); simpl; congruence.
Qed.

Lemma sort_length (l : list A) :
  List.length (sort comparefn l) = List.length l.
Proof.
  unfold sort. induction l as [|x l IH]; simpl; [reflexivity|].
  now rewrite insert_length, IH.
Qed.

Lemma insert_In (x y : A) (l : list A) :
  In y (insert comparefn x l) <-> y = x \/ In y l.
Proof.
  induction l as [|z l IH]; simpl.
  - intuition congruence.
  - destruct (0 <? comparefn x z); simpl; rewrite ?IH; intuition congruence.
Qed.

Lemma sort_In (y : A) (l : list A) : In y (sort comparefn l) <-> In y l.
Proof.
  unfold sort. induction l as [|x l IH]; simpl; [tauto|].
  rewrite insert_In, IH. intuition congruence.
Qed.

End Sort.

Lemma firstn_incl {A : Type} (n : nat) (l : list A) (x : A) :
  In x (firstn n l) -> In x l.
Proof.
  revert n. induction l as [|y l IH]; intros [|n]; simpl; try tauto.
  intros [H|H]; [now left|right; eauto].
Qed.

Lemma Sorted_firstn {A : Type} (R : A -> A -> Prop) (n : nat) (l : list A) :
  Sorted R l -> Sorted R (firstn n l).
Proof.
  revert n. induction l as [|x l IH]; intros [|n] S; simpl; auto.
  inversion S as [|? ? S' H]; subst. constructor; [now apply IH|].
  destruct l as [|y l]; destruct n; simpl; auto.
  inversion H; subst. now constructor.
Qed.

(** Sorting by a numeric key with the comparator [key a - key b]. *)
Section SortByKey.

Context {A : Type} (key : A -> float).

Abbreviation cmp := (byKey key).
Abbreviation le := (keyLe key).
Abbreviation fin := (keyFinite key).

Lemma ltb_leb (x y : float) : (x <? y) = true -> (x <=? y) = true.
Proof.
  rewrite ltb_spec, leb_spec. unfold SFltb, SFleb.
  destruct (SFcompare _ _) as [[| |]|]; congruence.
Qed.

Lemma insert_sorted (x : A) (l : list A) :
  fin x -> Forall fin l -> Sorted le l -> Sorted le (insert cmp x l).
Proof.
  intros Fx Fl S. induction l as [|y l IH]; simpl.
  - repeat constructor.
  - inversion Fl as [|? ? Fy Fl']; subst.
    inversion S as [|? ? S' H]; subst.
    unfold byKey at 1. rewrite sub_pos_iff by assumption.
    destruct (key y <? key x) eqn:C.
    + constructor; [now apply IH|].
      destruct l as [|z l]; simpl.
      * constructor. now apply ltb_leb.
      * destruct (0 <? cmp x z); constructor.
        -- now inversion H.
        -- now apply ltb_leb.
    + constructor; [assumption|]. constructor.
      now apply not_ltb_leb.
Qed.

Lemma sort_sorted (l : list A) :
  Forall fin l -> Sorted le (sort cmp l).
Proof.
  induction l as [|x l IH]; intros F; [constructor|].
  change (sort cmp (x :: l)) with (insert cmp x (sort cmp l)).
  inversion F as [|? ? Fx Fl]; subst. apply insert_sorted; auto.
  apply Forall_forall. intros y Hy. apply (proj1 (sort_In cmp y l)) in Hy.
  rewrite Forall_forall in Fl. now apply Fl.
Qed.

End SortByKey.

Lemma get_map_keys {V : Type} (f : string -> V) (ks : list string)
      (key : string) :
  In key ks -> get (map (fun k => (k, f k)) ks) key = Some (f key).
Proof.
  induction ks as [|k ks IH]; simpl; [tauto|].
  destruct (String.eqb k key) eqn:E.
  - apply String.eqb_eq in E. now subst.
  - intros [H|H]; [|now apply IH].
    subst. now rewrite String.eqb_refl in E.
Qed.

End JsArrayFacts.

(* ================================================================== *)
(** * Properties of the merge/dedup engine *)
(* ================================================================== *)

Module MergeFacts.

Import JsNum JsNumFacts JsArray JsArrayFacts Categories Merge.
Open Scope float_scope.

Lemma placesOf_merge (realData mockData : PlacesByCategory)
      (categoryKey : string) :
  In categoryKey (keys PLACE_CATEGORIES) ->
  placesOf (mergeRealAndMockData realData mockData) categoryKey
  = mergeCategory (placesOf realData categoryKey)
                  (placesOf mockData categoryKey).
Proof.
  intros H. unfold placesOf at 1, mergeRealAndMockData.
  now rewrite (get_map_keys
                 (fun k => mergeCategory (placesOf realData k)
                                         (placesOf mockData k))).
Qed.

(** Every entry of a merged category is a live entry, or a synthetic
    entry that the proximity rule did not exclude. *)
Lemma mergeCategory_In (realPlaces mockPlaces : list Place.t) (p : Place.t) :
  In p (mergeCategory realPlaces mockPlaces) ->
  In p realPlaces \/ In p (syntheticAvailable realPlaces mockPlaces).
Proof.
  unfold mergeCategory. cbv zeta. intros H.
  apply firstn_incl in H. apply sort_In in H.
  destruct (List.length realPlaces <? targetMinimum)%nat eqn:Lt.
  - destruct (List.length (realPlaces ++ _) =? 0)%nat eqn:Z.
    + apply Nat.eqb_eq in Z. rewrite length_app in Z.
      assert (realPlaces = []) as -> by (destruct realPlaces; simpl in *;
                                         [reflexivity|lia]).
      right. unfold syntheticAvailable. apply filter_In. split; auto.
    + apply in_app_iff in H. destruct H as [H|H]; [now left|right].
      now apply firstn_incl in H.
  - destruct (List.length realPlaces =? 0)%nat eqn:Z; [|now left].
    apply Nat.eqb_eq in Z. apply Nat.ltb_ge in Lt.
    unfold targetMinimum in Lt. lia.
Qed.

Lemma mergeCategory_length (realPlaces mockPlaces : list Place.t) :
  List.length (mergeCategory realPlaces mockPlaces)
  = Nat.min 10
      (Nat.max (List.length realPlaces)
         (Nat.min 6 (List.length realPlaces
                     + List.length (syntheticAvailable realPlaces
                                                       mockPlaces)))).
Proof.
  unfold mergeCategory. cbv zeta.
  rewrite length_firstn, sort_length.
  fold (syntheticAvailable realPlaces mockPlaces).
  set (avail := syntheticAvailable realPlaces mockPlaces).
  unfold targetMinimum.
  destruct (List.length realPlaces <? 6)%nat eqn:Lt.
  - apply Nat.ltb_lt in Lt.
    destruct (List.length (realPlaces ++ firstn _ avail) =? 0)%nat eqn:Z.
    + apply Nat.eqb_eq in Z. rewrite length_app, length_firstn in Z.
      assert (E : realPlaces = [])
        by (destruct realPlaces; simpl in *; [reflexivity|lia]).
      subst realPlaces.
      assert (Ea : avail = mockPlaces).
      { unfold avail, syntheticAvailable. simpl.
        clear. induction mockPlaces; simpl; congruence. }
      clearbody avail. subst avail.
      change (List.length (@nil Place.t)) with 0%nat in *. lia.
    + rewrite length_app, length_firstn. lia.
  - apply Nat.ltb_ge in Lt.
    destruct (List.length realPlaces =? 0)%nat eqn:Z.
    + apply Nat.eqb_eq in Z. lia.
    + lia.
Qed.

Lemma mergeCategory_sorted (realPlaces mockPlaces : list Place.t) :
  Forall finiteDistance (realPlaces ++ mockPlaces) ->
  Sorted distanceLe (mergeCategory realPlaces mockPlaces).
Proof.
  intros F. unfold mergeCategory. cbv zeta.
  apply Sorted_firstn.
  apply (sort_sorted Place.distance).
  rewrite Forall_forall in *. intros p Hp. apply F, in_app_iff.
  destruct (List.length realPlaces <? targetMinimum)%nat.
  - destruct (List.length (realPlaces ++ _) =? 0)%nat; [now right|].
    apply in_app_iff in Hp. destruct Hp as [Hp|Hp]; [now left|right].
    apply firstn_incl in Hp. now apply filter_In in Hp.
  - destruct (List.length realPlaces =? 0)%nat; [now right|now left].
Qed.

(** C1 as stated fails: two live places of one category that are close
    to each other are both returned. *)
Lemma merge_noTwoNear_counterexample :
  ~ (forall realData mockData categoryKey,
        In categoryKey (keys PLACE_CATEGORIES) ->
        noTwoNear (placesOf (mergeRealAndMockData realData mockData)
                            categoryKey)).
Proof.
  intros H.
  specialize (H liveTwo [] "restaurant"%string (or_introl eq_refl)).
  specialize (H 0%nat 1%nat _ _ (fun E => O_S _ E) eq_refl eq_refl).
  vm_compute in H. discriminate H.
Qed.

(** C1 (amended).  Merge/dedup engine: for every category, every entry
    of the per-category list returned by [mergeRealAndMockData] is either a
    live entry of that category or a synthetic entry that lies within 0.002
    degrees in both axes of no live entry of that category.  (Live entries
    are not compared with each other, nor synthetic ones with each
    other.) *)
Theorem merge_synthetic_not_near_live
        (realData mockData : PlacesByCategory) (categoryKey : string)
        (p : Place.t) :
  In categoryKey (keys PLACE_CATEGORIES) ->
  In p (placesOf (mergeRealAndMockData realData mockData) categoryKey) ->
  In p (placesOf realData categoryKey)
  \/ (In p (placesOf mockData categoryKey)
      /\ forall r, In r (placesOf realData categoryKey) -> near r p = false).
Proof.
  intros Hk Hp. rewrite placesOf_merge in Hp by assumption.
  apply mergeCategory_In in Hp. destruct Hp as [Hp|Hp]; [now left|right].
  unfold syntheticAvailable in Hp. apply filter_In in Hp.
  destruct Hp as [Hm Hn]. split; [assumption|].
  intros r Hr. apply negb_true_iff in Hn.
  destruct (near r p) eqn:E; [|reflexivity].
  assert (X : existsb (fun realPlace => near realPlace p)
                      (placesOf realData categoryKey) = true)
    by (apply existsb_exists; eauto).
  congruence.
Qed.

(** The amended C1 on the sample data: the synthetic restaurant at
    (28.62, 77.21) is returned and is near neither live restaurant. *)
Lemma merge_synthetic_not_near_live_witness :
  let p := nth 1 (placesOf syntheticThree "restaurant")
               (samplePlace "" 0 0 0 Place.mock) in
  In p (placesOf liveTwo "restaurant")
  \/ (In p (placesOf syntheticThree "restaurant")
      /\ forall r, In r (placesOf liveTwo "restaurant") -> near r p = false).
Proof.
  intros p.
  apply (merge_synthetic_not_near_live liveTwo syntheticThree "restaurant" p).
  - left. reflexivity.
  - vm_compute. right. right. left. reflexivity.
Defined.

(** C2.  Merge/dedup engine: for every category, with [liveCount] live
    places and [syntheticAvailable] synthetic places not excluded by the
    0.002-degree proximity rule, the returned list has length
    [min(10, max(liveCount, min(6, liveCount + syntheticAvailable)))], and
    it is sorted ascending by distance (distances being finite numbers). *)
Theorem merge_length_and_order
        (realData mockData : PlacesByCategory) (categoryKey : string) :
  In categoryKey (keys PLACE_CATEGORIES) ->
  Forall finiteDistance
         (placesOf realData categoryKey ++ placesOf mockData categoryKey) ->
  let live := placesOf realData categoryKey in
  let synthetic := placesOf mockData categoryKey in
  let liveCount := List.length live in
  let available := List.length (syntheticAvailable live synthetic) in
  let result := placesOf (mergeRealAndMockData realData mockData)
                         categoryKey in
  List.length result
  = Nat.min 10 (Nat.max liveCount (Nat.min 6 (liveCount + available)))
  /\ Sorted distanceLe result.
Proof.
  intros Hk F. cbv zeta. rewrite placesOf_merge by assumption. split.
  - apply mergeCategory_length.
  - now apply mergeCategory_sorted.
Qed.

(** C2 on the sample data: two live and two available synthetic
    restaurants give four entries in ascending order of distance. *)
Lemma merge_length_and_order_witness :
  let result := placesOf (mergeRealAndMockData liveTwo syntheticThree)
                         "restaurant" in
  List.length result = Nat.min 10 (Nat.max 2 (Nat.min 6 (2 + 2)))
  /\ Sorted distanceLe result.
Proof.
  apply (merge_length_and_order liveTwo syntheticThree "restaurant").
  - left. reflexivity.
  - repeat constructor.
Defined.

End MergeFacts.

(* ================================================================== *)
(** * Properties of the categorisation of raw elements *)
(* ================================================================== *)

Module CategorizeFacts.

Import JsArray Categories Categorize.
Open Scope string_scope.

Lemma firstExact_none (tags : Tags) (table : Obj Category) :
  existsb (fun entry =>
             existsb (tagMatches tags) (Categories.tags (snd entry))) table
  = false ->
  firstExact tags table = None.
Proof.
  induction table as [|[categoryKey category] rest IH]; simpl;
    [reflexivity|].
  intros H. apply orb_false_iff in H. destruct H as [H1 H2].
  rewrite H1. now apply IH.
Qed.

Lemma mapped_none (mappings : Obj string) (tags : Tags) (k : string) :
  entryOf mappings tags k = false -> plainValue tags k = true ->
  mapped mappings tags k = None.
Proof.
  unfold entryOf, plainValue, mapped, read.
  destruct (get tags k) as [v|]; [|reflexivity].
  destruct (get mappings v); [discriminate|].
  intros _ P. apply negb_true_iff in P. now rewrite P.
Qed.

(** C7 as stated fails: a shop that no rule mentions is not discarded,
    it becomes a 'shopping' place. *)
Lemma unmatched_discarded_counterexample :
  ~ (forall tags : Tags,
        matchesNoRule tags = true ->
        determineCategoryFromTags (Some tags) = Null).
Proof.
  intros H. specialize (H bakery eq_refl). vm_compute in H. discriminate H.
Qed.

(** C7 (amended).  Aggregator categorisation: a raw element whose tags
    match no rule (neither an exact key=value match against the category
    table nor an entry of the amenity/shop/tourism fallback dictionaries) is
    discarded ([determineCategoryFromTags] returns null) when it carries no
    non-empty shop tag, and is placed in the default category 'shopping'
    when it does.  Tag values naming a member of [Object.prototype] are
    left aside. *)
Theorem unmatched_discarded_unless_shop (tags : Tags) :
  matchesNoRule tags = true ->
  plainValue tags "amenity" = true ->
  plainValue tags "shop" = true ->
  plainValue tags "tourism" = true ->
  determineCategoryFromTags (Some tags)
  = if present tags "shop" then Key "shopping" else Null.
Proof.
  unfold matchesNoRule, matchesFallback. intros H Pa Ps Pt.
  apply andb_true_iff in H. destruct H as [Ht Hf].
  apply negb_true_iff in Ht. apply negb_true_iff in Hf.
  apply orb_false_iff in Hf. destruct Hf as [Hf Htour].
  apply orb_false_iff in Hf. destruct Hf as [Ham Hshop].
  unfold determineCategoryFromTags.
  rewrite (firstExact_none tags PLACE_CATEGORIES Ht).
  rewrite (mapped_none _ _ _ Ham Pa), (mapped_none _ _ _ Hshop Ps),
          (mapped_none _ _ _ Htour Pt).
  destruct (present tags "amenity"), (present tags "shop"),
           (present tags "tourism"); reflexivity.
Qed.

(** The amended C7 on a bench, which has no shop tag: discarded. *)
Lemma unmatched_discarded_unless_shop_witness :
  determineCategoryFromTags (Some bench) = Null.
Proof.
  apply (unmatched_discarded_unless_shop bench); reflexivity.
Defined.

End CategorizeFacts.

(* ================================================================== *)
(** * Properties of the location cascade *)
(* ================================================================== *)

Module LocationFacts.

Import Location.

Ltac pick_stage :=
  unfold atStage; simpl;
  repeat (first [ left; reflexivity | right ]).

Lemma start_atStage (b : Browser) (s0 : State) :
  getCurrentLocation b = SensorCascade s0 -> atStage s0.
Proof.
  unfold getCurrentLocation.
  destruct (negb (supported (checkLocationSupport b))); [discriminate|].
  intros E. inversion E; subst. pick_stage.
Qed.

Lemma step_atStage (s s' : State) (ev : BrowserEvent) :
  atStage s -> step s ev = Some s' -> atStage s'.
Proof.
  destruct s as [fl tr p]. unfold atStage. simpl.
  intros H S.
  repeat (destruct H as [H|H]; [inversion H; subst; clear H|]);
    try contradiction;
    destruct p; try discriminate;
    destruct ev as [[| |] c|[| |] code];
    try discriminate S;
    inversion S; subst; clear S; pick_stage.
Qed.

Lemma run_atStage (evs : list BrowserEvent) :
  forall s s', atStage s -> run s evs = Some s' -> atStage s'.
Proof.
  induction evs as [|ev evs IH]; simpl; intros s s' H R.
  - inversion R; subst. exact H.
  - destruct (step s ev) as [s1|] eqn:S; [|discriminate].
    eapply IH; [|exact R]. eapply step_atStage; eauto.
Qed.

Ltac in_cases :=
  unfold reqA, reqB, reqC in *; simpl in *;
  intuition (try discriminate; try congruence).

Lemma atStage_sequential (s : State) : atStage s -> Sequential s.
Proof.
  destruct s as [fl tr p]. unfold atStage. simpl. intros H.
  repeat (destruct H as [H|H]; [inversion H; subst; clear H|]);
    try contradiction;
    (constructor; simpl;
     [ reflexivity
     | first [ now exists 1%nat | now exists 2%nat | now exists 3%nat ]
     | intros o Ho; in_cases
     | intros o Ho; in_cases
     | in_cases
     | in_cases
     | destruct p; simpl in *; try discriminate; in_cases
     | reflexivity
     | reflexivity
     | lia ]).
Qed.

Ltac fire R :=
  match type of R with
  | run _ [] = Some _ => simpl in R; inversion R; subst; clear R
  | run _ (?ev :: _) = Some _ =>
      simpl in R;
      destruct ev as [[| |] ?coords|[| |] ?code]; simpl in R;
      try discriminate R
  end.

(** One direction of a statement that relates what the trace holds to
    the callbacks that fired. *)
Ltac related :=
  let H := fresh "H" in
  intros H; unfold reqA, reqB, reqC in *; simpl in H |- *;
  first
    [ discriminate H
    | repeat match goal with
             | K : _ \/ _ |- _ => destruct K
             | K : exists _, _ |- _ => destruct K
             | K : False |- _ => contradiction K
             | K : _ = _ |- _ => discriminate K
             end;
      first [ reflexivity | eexists; simpl; eauto 12 | auto 12 ] ].

(** The statements of C3 in one situation of the cascade. *)
Ltac situation :=
  split; [apply atStage_sequential; pick_stage|];
  split; [intros [| |]; split; related|];
  split; [intros [| |]; split; related|];
  split; [split; related|];
  split; [split; related|];
  split; [split; related|];
  split; intros ? K; simpl in K; try discriminate K; reflexivity.

(** C3.  Location acquisition cascade: whenever the sensor API is
    supported, [getCurrentLocation] attempts Tier A (high accuracy, 5 s
    timeout) first; if and only if Tier A's error callback fires it attempts
    Tier B (low accuracy, 3 s); if and only if Tier B's error callback fires
    it attempts Tier C (high accuracy, 15 s); it rejects only after Tier C
    fails; no tier is attempted twice, and none is started before the
    previous tier's error callback has fired.  This holds after every
    sequence [evs] of callbacks the browser may fire: the trace holds the
    error and success callbacks of exactly the events of [evs]; Tier B has
    been requested exactly when [evs] holds a failure of Tier A, and Tier C
    exactly when it holds a failure of Tier B; the promise is rejected
    exactly when [evs] holds a failure of Tier C; and right after a failure
    of Tier A (of Tier B) the request of Tier B (of Tier C) is the one in
    flight. *)
Theorem cascade_sequential (b : Browser) (evs : list BrowserEvent)
        (s0 s : State) :
  supported (checkLocationSupport b) = true ->
  getCurrentLocation b = SensorCascade s0 ->
  run s0 evs = Some s ->
  Sequential s
  /\ (forall tier,
         In (ErrorCallback tier) (trace s)
         <-> exists code, In (Fails tier code) evs)
  /\ (forall tier,
         In (SuccessCallback tier) (trace s)
         <-> exists coords, In (Succeeds tier coords) evs)
  /\ (In attemptSecondTry (requestedTiers (trace s))
      <-> exists code, In (Fails attemptHighAccuracy code) evs)
  /\ (In attemptFinalGPS (requestedTiers (trace s))
      <-> exists code, In (Fails attemptSecondTry code) evs)
  /\ (isRejected (promise s) = true
      <-> exists code, In (Fails attemptFinalGPS code) evs)
  /\ (forall code,
         hd_error (rev evs) = Some (Fails attemptHighAccuracy code) ->
         inFlight s = [attemptSecondTry])
  /\ (forall code,
         hd_error (rev evs) = Some (Fails attemptSecondTry code) ->
         inFlight s = [attemptFinalGPS]).
Proof.
  intros _. unfold getCurrentLocation.
  destruct (negb (supported (checkLocationSupport b))); [discriminate|].
  intros G R. inversion G; subst; clear G.
  destruct evs as [|e1 evs]; [fire R; situation|].
  fire R.
  - (* the first attempt succeeds *)
    destruct evs as [|e2 evs]; [|fire R].
    fire R. situation.
  - (* the first attempt fails *)
    destruct evs as [|e2 evs]; [fire R; situation|].
    fire R.
    + destruct evs as [|e3 evs]; [|fire R].
      fire R. situation.
    + destruct evs as [|e3 evs]; [fire R; situation|].
      fire R.
      * destruct evs as [|e4 evs]; [|fire R].
        fire R. situation.
      * destruct evs as [|e4 evs]; [|fire R].
        fire R. situation.
Qed.

(** With sensor support the cascade does start (the second hypothesis
    of C3 is never vacuous). *)
Lemma supported_starts_cascade (b : Browser) :
  supported (checkLocationSupport b) = true ->
  exists s0, getCurrentLocation b = SensorCascade s0.
Proof.
  intros H. unfold getCurrentLocation. rewrite H. simpl. eauto.
Qed.

(** C3 on a run in which the first two attempts time out and the third
    succeeds: the three tiers have been requested, in their order, and the
    promise is not rejected. *)
Lemma cascade_sequential_witness :
  exists s0 s,
    getCurrentLocation secureBrowser = SensorCascade s0
    /\ run s0 twoTimeouts = Some s
    /\ Sequential s
    /\ requestedTiers (trace s)
       = [attemptHighAccuracy; attemptSecondTry; attemptFinalGPS]
    /\ In attemptSecondTry (requestedTiers (trace s))
    /\ In attemptFinalGPS (requestedTiers (trace s))
    /\ isRejected (promise s) = false.
Proof.
  eexists. eexists. split; [reflexivity|]. split; [reflexivity|].
  destruct (cascade_sequential secureBrowser twoTimeouts _ _
              eq_refl eq_refl eq_refl)
    as (Q & _ & _ & B & C & _).
  split; [exact Q|]. split; [reflexivity|].
  split; [apply B; exists TIMEOUT; simpl; auto|].
  split; [apply C; exists TIMEOUT; simpl; auto|].
  reflexivity.
Defined.

End LocationFacts.

(* ================================================================== *)
(** * Properties of the geocoding adapter and of the suggestions *)
(* ================================================================== *)

Module NominatimFacts.

Import JsNum JsArray Eff Nominatim.
Open Scope string_scope.

Section WithEnv.

Context (env : Env) (M : MathLib) (encodeURIComponent : string -> string).

(** Whatever the input, [geocodeAddress] makes exactly its one request. *)
Lemma geocodeAddress_requests (address : string) (w : World) :
  requests (snd (geocodeAddress env M encodeURIComponent address w))
  = (requests w ++ [geocodeRequest encodeURIComponent address])%list.
Proof.
  unfold geocodeAddress, tryCatch, bind, fetch.
  destruct (network env _ _) as [r|e]; simpl; [|reflexivity].
  destruct (ok r); simpl; [|reflexivity].
  unfold json. destruct (body r) as [[|i l]| | | | |]; reflexivity.
Qed.

Lemma geocodeAddress_not_found (address : string) (w : World) (r : Response) :
  network env (List.length (requests w))
          (geocodeRequest encodeURIComponent address) = Responds r ->
  ok r = true -> body r = SearchBody [] ->
  fst (geocodeAddress env M encodeURIComponent address w)
  = Throws (Error "Address not found").
Proof.
  intros N O B. unfold geocodeAddress, tryCatch, bind, fetch.
  rewrite N. simpl. rewrite O. simpl. unfold json. rewrite B. reflexivity.
Qed.

End WithEnv.

(** The words of C10: null, undefined, empty, or shorter than two
    characters. *)
Lemma tooShort_iff (query : Query) :
  tooShort query = true <->
  query = QNull \/ query = QUndefined
  \/ exists s, query = QString s /\ (String.length s < 2)%nat.
Proof.
  destruct query as [| |s]; simpl.
  - split; [intros _; now left|reflexivity].
  - split; [intros _; right; now left|reflexivity].
  - split.
    + intros H. right. right. exists s. split; [reflexivity|].
      apply orb_true_iff in H. destruct H as [H|H].
      * apply String.eqb_eq in H. subst. simpl. lia.
      * now apply Nat.ltb_lt.
    + intros [H|[H|(s' & E & L)]]; try discriminate.
      inversion E; subst. apply orb_true_iff. right. now apply Nat.ltb_lt.
Qed.

(** C10.  Suggestion guard: for every query that is null, undefined,
    empty, or shorter than 2 characters, [getPlaceSuggestions] returns an
    empty list at once and makes no network request, whatever the [limit]
    and [near] arguments. *)
Theorem suggestions_guard (env : Env) (M : MathLib)
        (encodeURIComponent : string -> string)
        (query : Query) (limit : float) (near : option Near) (w : World) :
  (query = QNull \/ query = QUndefined
   \/ exists s, query = QString s /\ (String.length s < 2)%nat) ->
  getPlaceSuggestions env M encodeURIComponent query limit near w
  = (Returns [], w)
  /\ requestsMade
       (getPlaceSuggestions env M encodeURIComponent query limit near) w
     = 0%nat.
Proof.
  intros H. apply tooShort_iff in H.
  unfold requestsMade, getPlaceSuggestions. rewrite H. simpl.
  split; [reflexivity|lia].
Qed.

(** C10 for the one-letter query "a". *)
Lemma suggestions_guard_witness :
  getPlaceSuggestions emptyResults smallAngleMath (fun s => s)
                      (QString "a") 15 None emptyWorld
  = (Returns [], emptyWorld)
  /\ requestsMade
       (getPlaceSuggestions emptyResults smallAngleMath (fun s => s)
                            (QString "a") 15 None) emptyWorld
     = 0%nat.
Proof.
  apply (suggestions_guard emptyResults smallAngleMath (fun s => s)
                           (QString "a") 15 None emptyWorld).
  right. right. exists "a". split; [reflexivity|]. simpl. lia.
Defined.

End NominatimFacts.

(* ================================================================== *)
(** * Properties of the route engine *)
(* ================================================================== *)

Module DirectionsFacts.

Import JsNum JsArray Eff Directions.
Open Scope string_scope.

Lemma blank_trim (s : string) : Str.isBlank s = true -> Str.trim s = "".
Proof.
  unfold Str.trim. induction s as [|c s IH]; simpl; [reflexivity|].
  intros H. apply andb_true_iff in H. destruct H as [Hc Hs].
  rewrite Hc. now apply IH.
Qed.

Section WithEnv.

Context (env : Env) (M : MathLib).

Lemma tryProvider_fails (req : Request) (errorText : string)
      (routeOf : Body -> option Route.t) (w : World) :
  providerFails routeOf (network env (List.length (requests w)) req) = true ->
  tryProvider env req errorText routeOf w = (Returns None, logged req w).
Proof.
  unfold providerFails, tryProvider, tryCatch, bind, fetch, logged.
  destruct (network env _ req) as [r|e]; [|reflexivity].
  destruct (ok r); simpl; [|reflexivity].
  unfold json. destruct (body r) eqn:B; simpl;
    try (destruct (routeOf _); [discriminate|reflexivity]).
  reflexivity.
Qed.

Lemma middleStep_returns (totalDistance segments : float) (mode : Mode)
      (w : World) :
  turnIndexInRange env M ->
  exists st w',
    middleStep env M totalDistance segments mode w = (Returns st, w').
Proof.
  intros H. unfold middleStep, bind, mathRandom. simpl.
  destruct (H (randomCalls w)) as (k & Hk & Lt).
  unfold at_. change (ofNat 5) with 5%float. rewrite Hk.
  do 5 (destruct k as [|k];
        [destruct mode; simpl; eexists; eexists; reflexivity|]).
  lia.
Qed.

Lemma middleSteps_returns (n : nat) (totalDistance segments : float)
      (mode : Mode) :
  turnIndexInRange env M ->
  forall w, exists l w',
    middleSteps env M n totalDistance segments mode w = (Returns l, w').
Proof.
  intros H. induction n as [|n IH]; intros w; simpl.
  - unfold ret. eauto.
  - unfold bind.
    destruct (middleStep_returns totalDistance segments mode w H)
      as (st & w1 & ->).
    destruct (IH w1) as (l & w2 & ->). unfold ret. eauto.
Qed.

(** The synthesised route: tagged 'enhanced_mock', it starts with a
    depart step and ends with an arrive step. *)
Lemma generateEnhancedMockRoute_shape (start end_ : Endpoint) (mode : Mode)
      (w : World) :
  turnIndexInRange env M ->
  exists route w',
    generateEnhancedMockRoute env M start end_ mode w = (Returns route, w')
    /\ Route.source route = "enhanced_mock"
    /\ Route.steps route <> []
    /\ option_map Step.maneuver (hd_error (Route.steps route))
       = Some "depart"
    /\ option_map Step.maneuver
                  (hd_error (rev (Route.steps route)))
       = Some "arrive".
Proof.
  intros H. unfold generateEnhancedMockRoute. cbv zeta. unfold bind at 1.
  set (d := Geo.calculateDistance M _ _ _ _).
  assert (Hm : exists l w1,
    (if (2 <? d)%float
     then middleSteps env M (loopCount (min 3 (floor M (d / 2))))
                      d (min 3 (floor M (d / 2))) mode
     else ret []) w = (Returns l, w1)).
  { destruct (2 <? d)%float.
    - apply middleSteps_returns, H.
    - unfold ret. eauto. }
  destruct Hm as (l & w1 & ->).
  unfold bind, mathRandom, ret. simpl.
  eexists. eexists. split; [reflexivity|]. simpl.
  repeat split; try discriminate.
  rewrite !rev_app_distr. reflexivity.
Qed.

End WithEnv.

(** C8 as stated fails: with both providers down the route is tagged
    'enhanced_mock', not 'fallback'. *)
Lemma fallback_tag_counterexample :
  ~ (forall env M start end_ mode w,
        providerFails (orsRoute M)
          (network env (List.length (requests w))
                   (orsRequest M start end_ mode)) = true ->
        providerFails (osrmRoute M)
          (network env (S (List.length (requests w)))
                   (osrmRequest M start end_ mode)) = true ->
        exists route w',
          fetchRealRoute env M start end_ mode w = (Returns route, w')
          /\ Route.source route = "fallback").
Proof.
  intros H.
  destruct (H offline smallAngleMath fromPoint toPoint walking emptyWorld
              eq_refl eq_refl) as (route & w' & E & S).
  vm_compute in E. inversion E; subst. vm_compute in S. discriminate S.
Qed.

(** C8 (amended).  Route engine fallback: when both live routing
    providers fail, the route computation returns, for any start, end and
    mode, a result whose provider tag is 'enhanced_mock', whose list of
    steps is not empty, whose first step has a depart maneuver and whose
    last step has an arrive maneuver.  ([Math.random] is taken to return
    numbers in the interval [0, 1).) *)
Theorem fallback_route (env : Env) (M : MathLib) (start end_ : Endpoint)
        (mode : Mode) (w : World) :
  providerFails (orsRoute M)
    (network env (List.length (requests w))
             (orsRequest M start end_ mode)) = true ->
  providerFails (osrmRoute M)
    (network env (S (List.length (requests w)))
             (osrmRequest M start end_ mode)) = true ->
  turnIndexInRange env M ->
  exists route w',
    fetchRealRoute env M start end_ mode w = (Returns route, w')
    /\ Route.source route = "enhanced_mock"
    /\ Route.steps route <> []
    /\ option_map Step.maneuver (hd_error (Route.steps route))
       = Some "depart"
    /\ option_map Step.maneuver (hd_error (rev (Route.steps route)))
       = Some "arrive".
Proof.
  intros F1 F2 R. unfold fetchRealRoute, bind.
  rewrite (tryProvider_fails env _ _ _ w F1).
  assert (L : List.length (requests (logged (orsRequest M start end_ mode) w))
              = S (List.length (requests w)))
    by (unfold logged; simpl; rewrite length_app; simpl; lia).
  rewrite (tryProvider_fails env _ _ _ _ ltac:(rewrite L; exact F2)).
  apply generateEnhancedMockRoute_shape, R.
Qed.

(** The amended C8 for a walk between two points in Delhi with both
    providers down. *)
Lemma fallback_route_witness :
  exists route w',
    fetchRealRoute offline smallAngleMath fromPoint toPoint walking emptyWorld
    = (Returns route, w')
    /\ Route.source route = "enhanced_mock"
    /\ Route.steps route <> []
    /\ option_map Step.maneuver (hd_error (Route.steps route))
       = Some "depart"
    /\ option_map Step.maneuver (hd_error (rev (Route.steps route)))
       = Some "arrive".
Proof.
  apply (fallback_route offline smallAngleMath fromPoint toPoint walking
                        emptyWorld).
  - reflexivity.
  - reflexivity.
  - intros n. exists 0%nat. split; [reflexivity|lia].
Defined.

(** C4 as stated fails: [geocodeAddress] sends its request for the empty
    string as for any other input. *)
Lemma geocode_blank_counterexample :
  ~ (forall env M encodeURIComponent address w,
        Str.isBlank address = true ->
        exists e w',
          Nominatim.geocodeAddress env M encodeURIComponent address w
          = (Throws e, w')
          /\ message e = "Address not found"
          /\ requests w' = requests w).
Proof.
  intros H.
  destruct (H emptyResults smallAngleMath (fun s => s) "" emptyWorld eq_refl)
    as (e & w' & E & _ & R).
  vm_compute in E. inversion E; subst. discriminate R.
Qed.

(** C4 (amended).  Forward geocoding: [geocodeAddress] has no guard of
    its own; for an input that is empty or white space only it makes its one
    network request like for any other input, and fails with the not-found
    error when the provider answers with no result.  Such input is stopped
    before the call, by the handler of the address box
    ([handleSourceAddressSearch]), which returns without a network request
    and without an error. *)
Theorem geocode_blank_guarded_by_caller
        (env : Env) (M : MathLib) (encodeURIComponent : string -> string)
        (address : string) (page : Page) (w : World) :
  Str.isBlank address = true ->
  sourceInput page = address ->
  requests (snd (Nominatim.geocodeAddress env M encodeURIComponent address w))
  = (requests w ++ [Nominatim.geocodeRequest encodeURIComponent address])%list
  /\ (forall r,
        network env (List.length (requests w))
                (Nominatim.geocodeRequest encodeURIComponent address)
        = Responds r ->
        ok r = true -> body r = SearchBody [] ->
        fst (Nominatim.geocodeAddress env M encodeURIComponent address w)
        = Throws (Error "Address not found"))
  /\ handleSourceAddressSearch env M encodeURIComponent page w
     = ((Returns tt, page), w).
Proof.
  intros B E. split; [|split].
  - apply NominatimFacts.geocodeAddress_requests.
  - intros r. apply NominatimFacts.geocodeAddress_not_found.
  - unfold handleSourceAddressSearch, bindS, getS.
    rewrite E, (blank_trim address B). reflexivity.
Qed.

(** The amended C4 for an address box holding three spaces, with a
    provider that finds nothing. *)
Lemma geocode_blank_guarded_by_caller_witness :
  requests (snd (Nominatim.geocodeAddress emptyResults smallAngleMath
                   (fun s => s) "   " emptyWorld))
  = [Nominatim.geocodeRequest (fun s => s) "   "]
  /\ fst (Nominatim.geocodeAddress emptyResults smallAngleMath
            (fun s => s) "   " emptyWorld)
     = Throws (Error "Address not found")
  /\ handleSourceAddressSearch emptyResults smallAngleMath (fun s => s)
                               blankPage emptyWorld
     = ((Returns tt, blankPage), emptyWorld).
Proof.
  destruct (geocode_blank_guarded_by_caller emptyResults smallAngleMath
              (fun s => s) "   " blankPage emptyWorld eq_refl eq_refl)
    as (R & N & G).
  split; [exact R|]. split; [|exact G].
  apply (N {| ok := true; status := 200; body := SearchBody [] |});
    reflexivity.
Defined.

End DirectionsFacts.

(* ================================================================== *)
(** * Computations that never throw *)
(* ================================================================== *)

Module EffFacts.

Import Eff.

Lemma total_ret {A : Type} (a : A) : total (ret a).
Proof. intros w. unfold ret. eauto. Qed.

Lemma total_bind {A B : Type} (c : Eff A) (k : A -> Eff B) :
  total c -> (forall a, total (k a)) -> total (bind c k).
Proof.
  intros Hc Hk w. unfold bind. destruct (Hc w) as (a & w1 & ->).
  apply Hk.
Qed.

Lemma total_tryCatch {A : Type} (c : Eff A) (handler : JsError -> Eff A) :
  (forall e, total (handler e)) -> total (tryCatch c handler).
Proof.
  intros Hh w. unfold tryCatch.
  destruct (c w) as [[a|e] w1]; [eauto|apply Hh].
Qed.

Lemma total_mathRandom (env : Env) : total (mathRandom env).
Proof. intros w. unfold mathRandom. eauto. Qed.

Lemma total_cacheGet (key : string) : total (cacheGet key).
Proof. intros w. unfold cacheGet. eauto. Qed.

Lemma total_cacheSet (key : string) (value : ReverseInfo) :
  total (cacheSet key value).
Proof. intros w. unfold cacheSet. eauto. Qed.

Lemma total_awaitSettled {A : Type} (a : A) : total (awaitSettled (Returns a)).
Proof. intros w. unfold awaitSettled. eauto. Qed.

Lemma totalS_retS {S A : Type} (a : A) : totalS (@retS S A a).
Proof. intros s w. unfold retS. eauto. Qed.

Lemma totalS_bindS {S A B : Type} (c : EffS S A) (k : A -> EffS S B) :
  totalS c -> (forall a, totalS (k a)) -> totalS (bindS c k).
Proof.
  intros Hc Hk s w. unfold bindS.
  destruct (Hc s w) as (a & s1 & w1 & ->). apply Hk.
Qed.

Lemma totalS_tryCatchS {S A : Type} (c : EffS S A)
      (handler : JsError -> EffS S A) :
  (forall e, totalS (handler e)) -> totalS (tryCatchS c handler).
Proof.
  intros Hh s w. unfold tryCatchS.
  destruct (c s w) as [[[a|e] s1] w1]; [eauto|apply Hh].
Qed.

(** The tactic for computations built from the combinators. *)
Ltac totality :=
  repeat first
    [ apply total_ret
    | apply total_mathRandom
    | apply total_cacheGet
    | apply total_cacheSet
    | apply total_awaitSettled
    | apply total_tryCatch; intros ?
    | apply total_bind; [|intros ?]
    | apply totalS_retS
    | apply totalS_tryCatchS; intros ?
    | apply totalS_bindS; [|intros ?]
    | match goal with
      | |- total (match ?x with _ => _ end) => destruct x
      | |- total (if ?b then _ else _) => destruct b
      | |- total (let '(_, _) := ?x in _) => destruct x
      | H : forall _ _ _, total _ |- total _ => apply H
      | H : forall _ _, total _ |- total _ => apply H
      | H : forall _, total _ |- total _ => apply H
      end
    | assumption ].

End EffFacts.

(* ================================================================== *)
(** * Properties of the places search *)
(* ================================================================== *)

Module SearchFacts.

Import JsNum JsArray Eff EffFacts Categories Nominatim Aggregator Verified
       Search.
Open Scope string_scope.

Section WithEnv.

Context (env : Env) (M : MathLib) (encodeURIComponent : string -> string).

Lemma total_reverseGeocodeWithTimeout (lat lng : float) (timeoutMs : Z) :
  total (reverseGeocodeWithTimeout env M lat lng timeoutMs).
Proof. unfold reverseGeocodeWithTimeout. totality. Qed.

Lemma total_forEach {A B : Type} (f : A -> Eff B) (l : list A) :
  (forall x, total (f x)) -> total (forEach f l).
Proof.
  intros Hf. induction l as [|x l IH]; simpl; totality.
Qed.

Lemma total_realisticPlace (categoryKey : string) (category : Category)
      (centerLat centerLng radius : float) (areaInfo : AreaInfo)
      (businessNames : list string) (i : nat) :
  total (realisticPlace env M categoryKey category centerLat centerLng radius
                        areaInfo businessNames i).
Proof.
  unfold realisticPlace, generateAreaBasedAddress, generateRealisticPhone,
    generateRealisticOpeningHours.
  totality.
Qed.

Lemma total_refinePlaces (perCategory : nat) :
  forall places lookups,
    total (refinePlaces env M perCategory places lookups).
Proof.
  pose proof total_reverseGeocodeWithTimeout as R.
  induction perCategory as [|n IH]; intros places lookups;
    cbn [refinePlaces]; totality.
Qed.

Lemma total_refineCategories (data : PlacesByCategory) :
  forall lookups, total (refineCategories env M data lookups).
Proof.
  pose proof total_refinePlaces as R.
  induction data as [|[categoryKey places] rest IH]; intros lookups;
    cbn [refineCategories]; totality.
Qed.

(** The verified-style generator never throws. *)
Lemma total_generateVerifiedMockPlaces (lat lng radius : float) :
  total (generateVerifiedMockPlaces env M lat lng radius).
Proof.
  unfold generateVerifiedMockPlaces.
  apply total_bind; [totality|intros areaInfo].
  apply total_bind.
  - apply total_forEach. intros [categoryKey category].
    apply total_bind; [|intros places; totality].
    unfold generateRealisticPlacesForCategory.
    apply total_bind; [|intros places; totality].
    apply total_forEach. intros i. apply total_realisticPlace.
  - intros verifiedPlaces. apply total_refineCategories.
Qed.

Lemma totalS_tryServer (lat lng radius : float) (serverUrl : string) :
  totalS (tryServer env M encodeURIComponent lat lng radius serverUrl).
Proof. unfold tryServer. totality. Qed.

Lemma totalS_tryServers (lat lng radius : float) (servers : list string) :
  totalS (tryServers env M encodeURIComponent lat lng radius servers).
Proof.
  induction servers as [|serverUrl rest IH]; simpl; [totality|].
  apply totalS_bindS; [apply totalS_tryServer|].
  intros [|]; [totality|exact IH].
Qed.

(** The live search never throws. *)
Lemma total_fetchRealPlacesFromOverpass (lat lng radius : float) :
  total (fetchRealPlacesFromOverpass env M encodeURIComponent lat lng radius).
Proof.
  intros w. unfold fetchRealPlacesFromOverpass.
  destruct (totalS_tryServers lat lng radius OVERPASS_SERVERS
              emptyCategories w) as (a & s' & w' & ->).
  eauto.
Qed.

Lemma total_enhancePlaces (places : list Place.t) :
  forall lookups, total (enhancePlaces env M places lookups).
Proof.
  pose proof total_reverseGeocodeWithTimeout as R.
  induction places as [|place rest IH]; intros lookups;
    cbn [enhancePlaces]; totality.
Qed.

Lemma total_enhanceCategories (data : PlacesByCategory) :
  forall lookups, total (enhanceCategories env M data lookups).
Proof.
  pose proof total_enhancePlaces as R.
  induction data as [|[categoryKey places] rest IH]; intros lookups;
    cbn [enhanceCategories]; totality.
Qed.

(** ** The keys of the results *)

Lemma forEach_keys {V W : Type} (g : string * V -> Eff W)
      (l : Obj V) :
  forall w r w',
    forEach (fun entry => bind (g entry) (fun v => ret (fst entry, v))) l w
    = (Returns r, w') ->
    keys r = keys l.
Proof.
  induction l as [|[k v] l IH]; simpl; intros w r w' E.
  - inversion E. reflexivity.
  - unfold bind at 1 2 in E. unfold ret at 1 in E.
    destruct (g (k, v) w) as [[x|e] w1]; [|discriminate].
    unfold bind at 1 in E.
    destruct (forEach _ l w1) as [[ys|e] w2] eqn:F; [|discriminate].
    unfold ret in E. inversion E; subst. simpl. f_equal. eapply IH, F.
Qed.

Lemma refineCategories_keys (data : PlacesByCategory) :
  forall lookups w r w',
    refineCategories env M data lookups w = (Returns r, w') ->
    keys r = keys data.
Proof.
  induction data as [|[categoryKey places] rest IH];
    cbn [refineCategories]; intros lookups w r w' E.
  - inversion E. reflexivity.
  - unfold bind at 1 in E.
    destruct (refinePlaces env M 2 places lookups w)
      as [[[[places' lookups'] returned]|e] w1]; [|discriminate].
    destruct returned.
    + unfold ret in E. inversion E. reflexivity.
    + unfold bind in E.
      destruct (refineCategories env M rest lookups' w1)
        as [[rest'|e] w2] eqn:F; [|discriminate].
      unfold ret in E. inversion E; subst. simpl. f_equal. eapply IH, F.
Qed.

Lemma generateVerifiedMockPlaces_keys (lat lng radius : float)
      (w w' : World) (r : PlacesByCategory) :
  generateVerifiedMockPlaces env M lat lng radius w = (Returns r, w') ->
  keys r = keys PLACE_CATEGORIES.
Proof.
  unfold generateVerifiedMockPlaces. unfold bind at 1.
  destruct (tryCatch _ _ w) as [[areaInfo|e] w1]; [|discriminate].
  unfold bind at 1.
  destruct (forEach _ PLACE_CATEGORIES w1) as [[verified|e] w2] eqn:F;
    [|discriminate].
  intros E. apply refineCategories_keys in E. rewrite E.
  eapply (forEach_keys
            (fun entry => generateRealisticPlacesForCategory env M
                            (fst entry) (snd entry) lat lng radius areaInfo)).
  exact F.
Qed.

Lemma mergeRealAndMockData_keys (realData mockData : PlacesByCategory) :
  keys (Merge.mergeRealAndMockData realData mockData) = keys PLACE_CATEGORIES.
Proof.
  unfold Merge.mergeRealAndMockData, keys. rewrite map_map. reflexivity.
Qed.

(** ** Mirrors that give no live data *)

Lemma tryServer_fails (lat lng radius : float) (serverUrl : string)
      (results : PlacesByCategory) (w : World) :
  mirrorFails
    (network env (List.length (requests w))
             (overpassRequest M encodeURIComponent lat lng radius serverUrl))
  = true ->
  tryServer env M encodeURIComponent lat lng radius serverUrl results w
  = ((Returns false, results),
     logged (overpassRequest M encodeURIComponent lat lng radius serverUrl) w).
Proof.
  unfold mirrorFails, tryServer, tryCatchS, bindS, liftS, fetch, logged.
  destruct (network env _ _) as [r|e]; [|reflexivity].
  destruct (ok r); simpl; [|reflexivity].
  unfold json.
  destruct (body r) as [items|data|[[|first rest]|]|features|routes|];
    simpl; try reflexivity. discriminate.
Qed.

Lemma tryServers_fail (lat lng radius : float) (servers : list string) :
  forall results w,
    (forall i serverUrl,
        nth_error servers i = Some serverUrl ->
        mirrorFails
          (network env (List.length (requests w) + i)
             (overpassRequest M encodeURIComponent lat lng radius serverUrl))
        = true) ->
    exists w',
      tryServers env M encodeURIComponent lat lng radius servers results w
      = ((Returns false, results), w').
Proof.
  induction servers as [|serverUrl rest IH]; intros results w H; simpl.
  - unfold retS. eauto.
  - unfold bindS. rewrite tryServer_fails.
    + apply IH. intros i s Hi.
      unfold logged. simpl. rewrite length_app. simpl.
      replace (List.length (requests w) + 1 + i)%nat
        with (List.length (requests w) + S i)%nat by lia.
      now apply H.
    + specialize (H 0%nat serverUrl eq_refl).
      now rewrite Nat.add_0_r in H.
Qed.

Lemma totalPlaces_emptyCategories : totalPlaces emptyCategories = 0%nat.
Proof. reflexivity. Qed.

Lemma fetchRealPlacesFromOverpass_fail (lat lng radius : float) (w : World) :
  (forall i serverUrl,
      nth_error OVERPASS_SERVERS i = Some serverUrl ->
      mirrorFails
        (network env (List.length (requests w) + i)
           (overpassRequest M encodeURIComponent lat lng radius serverUrl))
      = true) ->
  exists w',
    fetchRealPlacesFromOverpass env M encodeURIComponent lat lng radius w
    = (Returns emptyCategories, w').
Proof.
  intros H. unfold fetchRealPlacesFromOverpass.
  destruct (tryServers_fail lat lng radius OVERPASS_SERVERS
              emptyCategories w H) as (w' & ->).
  eauto.
Qed.

(** C9.  Places search never errors: for every centre and radius,
    [fetchNearbyPlaces] resolves with a result keyed by the categories and
    never rejects; when every live mirror fails, when the timer of the race
    fires first, or when the live search yields no place, it resolves with
    the synthetic (verified mock) result. *)
Theorem fetchNearbyPlaces_never_rejects (lat lng radius : float) (w : World) :
  exists verifiedMock w1 live w2,
    generateVerifiedMockPlaces env M lat lng radius w
    = (Returns verifiedMock, w1)
    /\ fetchRealPlacesFromOverpass env M encodeURIComponent lat lng radius w1
       = (Returns live, w2)
    /\ exists result w',
         fetchNearbyPlaces env M encodeURIComponent lat lng radius w
         = (Returns result, w')
         /\ keys result = keys PLACE_CATEGORIES
         /\ ((forall i serverUrl,
                 nth_error OVERPASS_SERVERS i = Some serverUrl ->
                 mirrorFails
                   (network env (List.length (requests w1) + i)
                      (overpassRequest M encodeURIComponent lat lng radius
                                       serverUrl))
                 = true) ->
             result = verifiedMock)
         /\ (timerWins env (races w2) = true -> result = verifiedMock)
         /\ (totalPlaces live = 0%nat -> result = verifiedMock).
Proof.
  destruct (total_generateVerifiedMockPlaces lat lng radius w)
    as (mock & w1 & Hmock).
  destruct (total_fetchRealPlacesFromOverpass lat lng radius w1)
    as (live & w2 & Hlive).
  exists mock, w1, live, w2. split; [exact Hmock|]. split; [exact Hlive|].
  pose proof (generateVerifiedMockPlaces_keys _ _ _ _ _ _ Hmock) as Kmock.
  unfold fetchNearbyPlaces. rewrite Hmock.
  unfold tryCatch at 1. unfold bind at 1. unfold tryCatch at 1.
  unfold bind at 1. unfold raceWithTimer. rewrite Hlive.
  destruct (timerWins env (races w2)) eqn:T.
  - (* the timer fires first *)
    unfold bind, awaitSettled, ret. simpl.
    eexists. eexists. split; [reflexivity|]. repeat split; auto.
  - unfold ret at 1. cbv beta iota.
    destruct (0 <? totalPlaces live)%nat eqn:Z.
    + (* live places: merged with the synthetic ones *)
      apply Nat.ltb_lt in Z.
      unfold bind at 1.
      destruct (total_enhanceCategories live 0
                  {| requests := requests w2; randomCalls := randomCalls w2;
                     races := S (races w2);
                     reverseCache := reverseCache w2 |})
        as (live' & w3 & He).
      unfold enhanceRealPlacesWithAddresses. rewrite He.
      unfold bind, awaitSettled, ret.
      eexists. eexists. split; [reflexivity|].
      split; [apply mergeRealAndMockData_keys|].
      split; [|split].
      * intros F.
        destruct (fetchRealPlacesFromOverpass_fail lat lng radius w1 F)
          as (w'' & E).
        rewrite E in Hlive. inversion Hlive; subst.
        rewrite totalPlaces_emptyCategories in Z. lia.
      * discriminate.
      * lia.
    + (* no live place *)
      unfold bind, awaitSettled, ret.
      eexists. eexists. split; [reflexivity|]. repeat split; auto.
Qed.

End WithEnv.

(** C9 with every provider down: the search resolves with the verified
    mock places. *)
Lemma fetchNearbyPlaces_never_rejects_witness :
  exists result w',
    fetchNearbyPlaces offline smallAngleMath (fun s => s)
                      28.6139 77.2090 10 emptyWorld
    = (Returns result, w')
    /\ fst (generateVerifiedMockPlaces offline smallAngleMath
              28.6139 77.2090 10 emptyWorld)
       = Returns result.
Proof.
  destruct (fetchNearbyPlaces_never_rejects offline smallAngleMath
              (fun s => s) 28.6139 77.2090 10 emptyWorld)
    as (mock & w1 & live & w2 & Hm & Hl & result & w' & Hr & K & F & T & Z).
  exists result, w'. split; [exact Hr|].
  rewrite Hm. simpl. f_equal. symmetry. apply F.
  intros i serverUrl _. reflexivity.
Defined.

End SearchFacts.

(* ================================================================== *)
(** * Properties of the deterministic generator *)
(* ================================================================== *)

Module SeededFacts.

Import JsNum JsArray Eff Categories Seeded.
Open Scope string_scope.

(** The generator is a function of its arguments and of the [Math]
    implementation alone: its model takes neither the random source nor the
    world.  The verified-style generator is different: its result changes
    with the random source. *)
Lemma verified_generator_depends_on_random :
  fst (Verified.generateRealisticPlacesForCategory zeros smallAngleMath
         "restaurant" restaurants 28.6139 77.2090 10 Verified.unknownArea
         emptyWorld)
  <> fst (Verified.generateRealisticPlacesForCategory halves smallAngleMath
            "restaurant" restaurants 28.6139 77.2090 10 Verified.unknownArea
            emptyWorld).
Proof. vm_compute. intros E. inversion E. Qed.

(** C5.  Deterministic synthetic generator: two calls of the
    pseudo-random place generator ([getMockPlaces],
    [generateEnhancedMockData]) with identical [lat], [lng], [categoryKey]
    and [radius] return the same outcome, and the returned lists agree in
    every field (names, coordinates, distances, addresses, phones, ratings,
    opening hours). *)
Theorem seeded_generator_deterministic
        (M : MathLib) (lat lng radius lat' lng' radius' : float)
        (categoryKey categoryKey' : string) (category : Category)
        (names : list string) :
  lat = lat' -> lng = lng' -> categoryKey = categoryKey' ->
  radius = radius' ->
  getMockPlaces M lat lng radius = getMockPlaces M lat' lng' radius'
  /\ generateEnhancedMockData M lat lng categoryKey category names radius
     = generateEnhancedMockData M lat' lng' categoryKey' category names
                                radius'
  /\ (forall places places',
         generateEnhancedMockData M lat lng categoryKey category names radius
         = Returns places ->
         generateEnhancedMockData M lat' lng' categoryKey' category names
                                  radius'
         = Returns places' ->
         sameFields places places').
Proof.
  intros Elat Elng Ekey Eradius. subst lat' lng' categoryKey' radius'.
  split; [reflexivity|]. split; [reflexivity|].
  intros places places' H H'. rewrite H in H'.
  inversion H'; subst places'.
  unfold sameFields. repeat split.
Qed.

(** C5 at New Delhi for the restaurants: the generator returns six places,
    and a second call returns the same six. *)
Lemma seeded_generator_deterministic_witness :
  exists places,
    generateEnhancedMockData smallAngleMath 28.6139 77.2090 "restaurant"
      restaurants ["Punjabi Dhaba"; "Biryani House"] 10
    = Returns places
    /\ List.length places = 6%nat
    /\ getMockPlaces smallAngleMath 28.6139 77.2090 10
       = getMockPlaces smallAngleMath 28.6139 77.2090 10
    /\ sameFields places places.
Proof.
  destruct (seeded_generator_deterministic smallAngleMath
              28.6139 77.2090 10 28.6139 77.2090 10
              "restaurant" "restaurant" restaurants
              ["Punjabi Dhaba"; "Biryani House"]
              eq_refl eq_refl eq_refl eq_refl) as (G & _ & H).
  eexists. split; [vm_compute; reflexivity|].
  split; [reflexivity|]. split; [exact G|].
  apply H; vm_compute; reflexivity.
Defined.

End SeededFacts.

(* ================================================================== *)
(** * Objects used as tables *)
(* ================================================================== *)

Module ObjFacts.

Import JsArray.

Lemma get_In_values {V : Type} (o : Obj V) (key : string) (v : V) :
  get o key = Some v -> In v (map snd o).
Proof.
  induction o as [|[k x] o IH]; simpl; [discriminate|].
  destruct (String.eqb k key).
  - intros E. inversion E. now left.
  - intros E. right. now apply IH.
Qed.

Lemma get_of_key {V : Type} (o : Obj V) (k : string) :
  In k (keys o) -> exists v, get o k = Some v.
Proof.
  induction o as [|[k' v] o IH]; simpl; [tauto|].
  destruct (String.eqb k' k) eqn:E; [eauto|].
  intros [H|H]; [|now apply IH].
  subst. now rewrite String.eqb_refl in E.
Qed.

Lemma get_In {V : Type} (o : Obj V) (key : string) (v : V) :
  get o key = Some v -> In (key, v) o.
Proof.
  induction o as [|[k x] o IH]; simpl; [discriminate|].
  destruct (String.eqb k key) eqn:E.
  - apply String.eqb_eq in E. intros H. inversion H; subst. now left.
  - intros H. right. now apply IH.
Qed.

Lemma placesOf_In (data : Categories.PlacesByCategory) (k : string)
      (p : Place.t) :
  In p (Categories.placesOf data k) ->
  exists places, In (k, places) data /\ In p places.
Proof.
  unfold Categories.placesOf.
  destruct (get data k) as [places|] eqn:G; [|contradiction].
  intros H. exists places. split; [now apply get_In|exact H].
Qed.

Lemma placesOf_entry (data : Categories.PlacesByCategory) (k : string) :
  In k (keys data) ->
  exists places, In (k, places) data /\ Categories.placesOf data k = places.
Proof.
  intros H. destruct (get_of_key data k H) as (places & G).
  exists places. split; [now apply get_In|].
  unfold Categories.placesOf. now rewrite G.
Qed.

End ObjFacts.

(* ================================================================== *)
(** * Further properties of the merge engine *)
(* ================================================================== *)

Module MergeMore.

Import JsNum JsArray JsArrayFacts Categories Merge MergeFacts.
Open Scope string_scope.

Lemma syntheticAvailable_nil (mockPlaces : list Place.t) :
  syntheticAvailable [] mockPlaces = mockPlaces.
Proof.
  unfold syntheticAvailable. simpl.
  induction mockPlaces as [|p l IH]; simpl; congruence.
Qed.

Lemma mergeCategory_unfold (realPlaces mockPlaces : list Place.t) :
  mergeCategory realPlaces mockPlaces
  = firstn 10
      (sort byDistance
         (realPlaces
          ++ firstn (6 - List.length realPlaces)
                    (syntheticAvailable realPlaces mockPlaces))).
Proof.
  unfold mergeCategory. cbv zeta.
  fold (syntheticAvailable realPlaces mockPlaces).
  unfold targetMinimum.
  destruct (List.length realPlaces <? 6)%nat eqn:Lt.
  - destruct (List.length (realPlaces ++ _) =? 0)%nat eqn:Z; [|reflexivity].
    apply Nat.eqb_eq in Z. rewrite length_app in Z.
    destruct realPlaces as [|r realPlaces]; [|simpl in Z; lia].
    rewrite syntheticAvailable_nil in *. simpl in Z.
    destruct mockPlaces; [reflexivity|simpl in Z; lia].
  - apply Nat.ltb_ge in Lt.
    replace (6 - List.length realPlaces)%nat with 0%nat by lia.
    simpl. rewrite app_nil_r.
    destruct (List.length realPlaces =? 0)%nat eqn:Z; [|reflexivity].
    apply Nat.eqb_eq in Z. lia.
Qed.

(** X1.  The branch "if still no places, take all mock places" of
    [mergeRealAndMockData] never changes the result: for every category
    the returned list is the live places followed by the first
    [6 - liveCount] synthetic places that are near no live place, sorted by
    distance and cut to 10.  In particular a category without live places
    gets at most 6 synthetic ones, never all of them. *)
Theorem merge_closed_form
        (realData mockData : PlacesByCategory) (categoryKey : string) :
  In categoryKey (keys PLACE_CATEGORIES) ->
  let live := placesOf realData categoryKey in
  let synthetic := placesOf mockData categoryKey in
  placesOf (mergeRealAndMockData realData mockData) categoryKey
  = firstn 10
      (sort byDistance
         (live ++ firstn (6 - List.length live)
                         (syntheticAvailable live synthetic)))
  /\ (live = [] ->
      List.length (placesOf (mergeRealAndMockData realData mockData)
                            categoryKey)
      = Nat.min 6 (List.length synthetic)).
Proof.
  intros Hk live synthetic. rewrite placesOf_merge by assumption.
  fold live synthetic. split; [apply mergeCategory_unfold|].
  intros E. rewrite mergeCategory_unfold, E.
  rewrite length_firstn, sort_length, syntheticAvailable_nil.
  cbn [app List.length]. rewrite length_firstn. lia.
Qed.

(** X1 on the sample data, without live places: of the three synthetic
    restaurants all three are returned, being fewer than six. *)
Lemma merge_closed_form_witness :
  List.length (placesOf (mergeRealAndMockData [] syntheticThree) "restaurant")
  = 3%nat.
Proof.
  destruct (merge_closed_form [] syntheticThree "restaurant"
              (or_introl eq_refl)) as [_ H].
  exact (H eq_refl).
Defined.

(** X2.  The merge never drops a live place in favour of a synthetic
    one: when a category has at most 10 live places, every one of them is
    in the merged list of the category. *)
Theorem merge_keeps_live
        (realData mockData : PlacesByCategory) (categoryKey : string)
        (p : Place.t) :
  In categoryKey (keys PLACE_CATEGORIES) ->
  (List.length (placesOf realData categoryKey) <= 10)%nat ->
  In p (placesOf realData categoryKey) ->
  In p (placesOf (mergeRealAndMockData realData mockData) categoryKey).
Proof.
  intros Hk L Hp. rewrite placesOf_merge by assumption.
  rewrite mergeCategory_unfold.
  rewrite firstn_all2.
  - apply sort_In. apply in_app_iff. now left.
  - rewrite sort_length, length_app, length_firstn. lia.
Qed.

(** X2 on the sample data: the second live restaurant is kept. *)
Lemma merge_keeps_live_witness :
  In (samplePlace "osm_restaurant_2" 28.6140 77.2091 0.02 Place.osm)
     (placesOf (mergeRealAndMockData liveTwo syntheticThree) "restaurant").
Proof.
  apply (merge_keeps_live liveTwo syntheticThree "restaurant").
  - left. reflexivity.
  - simpl. lia.
  - right. left. reflexivity.
Defined.

End MergeMore.

(* ================================================================== *)
(** * Further properties of the categorisation *)
(* ================================================================== *)

Module CategorizeMore.

Import JsArray ObjFacts Categories Categorize Eff Aggregator.
Open Scope string_scope.

Lemma firstExact_key (tags : Tags) (table : Obj Category) (k : string) :
  firstExact tags table = Some k -> In k (keys table).
Proof.
  induction table as [|[categoryKey category] rest IH]; simpl;
    [discriminate|].
  destruct (existsb _ _).
  - intros E. inversion E. now left.
  - intros E. right. now apply IH.
Qed.

Lemma mapped_key (mappings : Obj string) (tags : Tags) (k c : string) :
  mapped mappings tags k = Some (Key c) -> In c (map snd mappings).
Proof.
  unfold mapped, read.
  destruct (get tags k) as [v|]; [|discriminate].
  destruct (get mappings v) as [c'|] eqn:G.
  - destruct (Str.truthy c'); [|discriminate].
    intros E. inversion E; subst. eapply get_In_values, G.
  - destruct (isInherited v); discriminate.
Qed.

Lemma known_values (mappings : Obj string) (c : string) :
  forallb (fun v => existsb (String.eqb v) (keys PLACE_CATEGORIES))
          (map snd mappings) = true ->
  In c (map snd mappings) -> In c (keys PLACE_CATEGORIES).
Proof.
  intros F H. rewrite forallb_forall in F. apply F in H.
  apply existsb_exists in H. destruct H as (k & Hk & E).
  apply String.eqb_eq in E. now subst.
Qed.

Lemma determineCategoryFromTags_known (tags : option Tags) (k : string) :
  determineCategoryFromTags tags = Key k -> In k (keys PLACE_CATEGORIES).
Proof.
  unfold determineCategoryFromTags.
  destruct tags as [tags|]; [|discriminate].
  destruct (firstExact tags PLACE_CATEGORIES) as [k'|] eqn:F.
  - intros E. inversion E; subst. eapply firstExact_key, F.
  - destruct (present tags "amenity").
    + destruct (mapped amenityMappings tags "amenity") as [r|] eqn:A.
      * intros E. subst r.
        eapply known_values; [|eapply mapped_key, A]. reflexivity.
      * destruct (present tags "shop").
        -- destruct (mapped shopMappings tags "shop") as [r|] eqn:S.
           ++ intros E. subst r.
              eapply known_values; [|eapply mapped_key, S]. reflexivity.
           ++ intros E. inversion E. vm_compute. tauto.
        -- destruct (present tags "tourism"); [|discriminate].
           destruct (mapped tourismMappings tags "tourism") as [r|] eqn:T;
             [|discriminate].
           intros E. subst r.
           eapply known_values; [|eapply mapped_key, T]. reflexivity.
    + destruct (present tags "shop").
      * destruct (mapped shopMappings tags "shop") as [r|] eqn:S.
        -- intros E. subst r.
           eapply known_values; [|eapply mapped_key, S]. reflexivity.
        -- intros E. inversion E. vm_compute. tauto.
      * destruct (present tags "tourism"); [|discriminate].
        destruct (mapped tourismMappings tags "tourism") as [r|] eqn:T;
          [|discriminate].
        intros E. subst r.
        eapply known_values; [|eapply mapped_key, T]. reflexivity.
Qed.

(** X3.  Every category key that [determineCategoryFromTags] returns,
    by the category table, by one of the three fallback dictionaries or by
    the shop default, is a key of [PLACE_CATEGORIES]: the lookups
    [PLACE_CATEGORIES[categoryKey]] and [results[categoryKey]] that follow
    it in the aggregator always find their entry. *)
Theorem category_is_known (tags : option Tags) (categoryKey : string) :
  determineCategoryFromTags tags = Key categoryKey ->
  In categoryKey (keys PLACE_CATEGORIES)
  /\ exists category, get PLACE_CATEGORIES categoryKey = Some category.
Proof.
  intros H. apply determineCategoryFromTags_known in H.
  split; [assumption|]. now apply get_of_key.
Qed.

(** X3 on the bakery, which the shop default files under 'shopping'. *)
Lemma category_is_known_witness :
  In "shopping" (keys PLACE_CATEGORIES)
  /\ exists category, get PLACE_CATEGORIES "shopping" = Some category.
Proof.
  apply (category_is_known (Some bakery) "shopping"). reflexivity.
Defined.

Section WithEnv.

Context (env : Env) (M : JsNum.MathLib).

Lemma processElement_plain
      (lat lng radius : float) (element : Element)
      (results : PlacesByCategory) (w : World) :
  (forall prop, determineCategoryFromTags (elTags element) <> Member prop) ->
  exists results' w',
    processElement env M lat lng radius element results w
    = ((Returns tt, results'), w')
    /\ requests w' = requests w.
Proof.
  intros NM. unfold processElement.
  destruct (orNum (elLat element) _) as [elementLat|];
    [|unfold retS; eauto].
  destruct (orNum (elLon element) _) as [elementLng|];
    [|unfold retS; eauto].
  destruct (negb (truthyNum elementLat) || negb (truthyNum elementLng));
    [unfold retS; eauto|].
  destruct (_ <? _)%float; [unfold retS; eauto|].
  destruct (determineCategoryFromTags (elTags element)) as [|k|prop] eqn:D.
  - unfold retS; eauto.
  - destruct (get_of_key PLACE_CATEGORIES k
                (determineCategoryFromTags_known _ _ D)) as (category & G).
    rewrite G.
    destruct (elTags element) as [tags|]; [|discriminate D].
    unfold bindS, liftS, mathRandom, modifyS. simpl. eauto.
  - exfalso. now apply (NM prop).
Qed.

(** X4.  The callback that processes one raw element throws in one
    case only: when a tag value of the element names a member of
    [Object.prototype] (such as 'constructor'), which the dictionaries
    then return in place of a category.  For every other element it
    returns, and it makes no network request. *)
Theorem processElement_throws_only_on_member
        (lat lng radius : float) (element : Element)
        (results : PlacesByCategory) (w : World) :
  (forall prop, determineCategoryFromTags (elTags element) <> Member prop) ->
  exists results' w',
    processElement env M lat lng radius element results w
    = ((Returns tt, results'), w')
    /\ requests w' = requests w.
Proof. apply processElement_plain. Qed.

End WithEnv.

(** X4 on a raw bakery next to the centre. *)
Lemma processElement_throws_only_on_member_witness :
  exists results' w',
    processElement offline JsNum.smallAngleMath 28.6139 77.2090 10
      {| elId := 7; elType := "node"; elLat := Some 28.6140%float;
         elLon := Some 77.2091%float; elCenter := None;
         elTags := Some bakery |}
      emptyCategories emptyWorld
    = ((Returns tt, results'), w')
    /\ requests w' = requests emptyWorld.
Proof.
  apply (processElement_throws_only_on_member offline JsNum.smallAngleMath).
  intros prop. vm_compute. discriminate.
Defined.

End CategorizeMore.

(* ================================================================== *)
(** * Properties of the address formatter *)
(* ================================================================== *)

Module AddressFacts.

Import JsArray Categories Aggregator Search.
Open Scope string_scope.

Lemma tag_nonempty (tags : Obj string) (k v : string) :
  tag tags k = Some v -> v <> "".
Proof.
  unfold tag. destruct (get tags k) as [x|]; [|discriminate].
  unfold Str.truthy. destruct (String.eqb x "") eqn:E; simpl; [discriminate|].
  intros H. inversion H; subst. now apply String.eqb_neq.
Qed.

Lemma join_nonempty (sep : string) (l : list string) :
  Forall (fun v => v <> "") l -> l <> [] -> Str.join sep l <> "".
Proof.
  intros F N. destruct l as [|x l]; [congruence|].
  inversion F; subst. unfold Str.join. simpl.
  destruct l; [assumption|].
  destruct x; [congruence|discriminate].
Qed.

Lemma part_nonempty (tags : Obj string) (k : string) :
  Forall (fun v => v <> "")
         (match tag tags k with Some v => [v] | None => [] end).
Proof.
  destruct (tag tags k) as [v|] eqn:E; constructor; [|constructor].
  eapply tag_nonempty, E.
Qed.

(** X5.  [formatOSMAddress] never returns the empty string: a place
    built by the aggregator always has some address text to show, the
    text 'Address not available' at worst. *)
Theorem formatOSMAddress_never_empty (tags : option (Obj string)) :
  formatOSMAddress tags <> "".
Proof.
  unfold formatOSMAddress. destruct tags as [tags|]; [|discriminate].
  cbv zeta beta.
  match goal with
  | |- context [(0 <? List.length ?l)%nat] => set (parts := l)
  end.
  destruct (0 <? List.length parts)%nat eqn:L.
  - apply join_nonempty.
    + unfold parts.
      do 4 (apply Forall_app; split; [apply part_nonempty|]).
      apply part_nonempty.
    + intros E. rewrite E in L. discriminate L.
  - destruct (tag tags "name"); [discriminate|].
    destruct (tag tags "addr:city") as [c|] eqn:C; [|discriminate].
    eapply tag_nonempty, C.
Qed.

(** X6.  An element that carries none of the five [addr:*] tags gets
    the address 'Near <name>' or 'Address not available', and such an
    address does not pass the test of [enhanceRealPlacesWithAddresses] for
    a decent address: the place is one of those sent to reverse
    geocoding. *)
Theorem address_without_parts_is_not_decent
        (tags : Obj string) (place : Place.t) :
  Place.address place = formatOSMAddress (Some tags) ->
  tag tags "addr:housenumber" = None ->
  tag tags "addr:street" = None ->
  tag tags "addr:suburb" = None ->
  tag tags "addr:city" = None ->
  tag tags "addr:state" = None ->
  Place.address place
  = match tag tags "name" with
    | Some n => "Near " ++ n
    | None => "Address not available"
    end
  /\ hasDecentAddress place = false.
Proof.
  intros E A B C D S. unfold hasDecentAddress. rewrite E.
  unfold formatOSMAddress. cbv zeta beta. rewrite A, B, C, D, S. simpl.
  destruct (tag tags "name") as [n|]; split; reflexivity.
Qed.

(** X6 on the bakery, which has a name and no address tag. *)
Lemma address_without_parts_is_not_decent_witness :
  let place :=
    Merge.samplePlace "osm_shopping_7" 28.6140 77.2091 0.01 Place.osm in
  let place :=
    Verified.withAddress (formatOSMAddress (Some Categorize.bakery))
                         None None None place in
  Place.address place = "Near Modern Bakery"
  /\ hasDecentAddress place = false.
Proof.
  intros p place.
  apply (address_without_parts_is_not_decent Categorize.bakery place);
    reflexivity.
Defined.

End AddressFacts.

(* ================================================================== *)
(** * Properties of the cached reverse lookup *)
(* ================================================================== *)

Module ReverseFacts.

Import JsNum JsArray Eff Nominatim Reading.
Open Scope string_scope.






Lemma reverse_lookup_step
      (env : Env) (M : MathLib) (lat lng : float) (timeoutMs : Z)
      (w : World) :
  exists info w' more,
    reverseGeocodeWithTimeout env M lat lng timeoutMs w = (Returns info, w')
    /\ requests w' = (requests w ++ more)%list
    /\ (List.length more <= 1)%nat
    /\ (info = None ->
        reverseCache w' = reverseCache w /\ List.length more = 1%nat).
Proof.
  unfold reverseGeocodeWithTimeout, bind, cacheGet.
  destruct (get (reverseCache w) _) as [cached|] eqn:G.
  - unfold ret. eexists. eexists. exists []. split; [reflexivity|].
    rewrite app_nil_r. split; [reflexivity|]. split; [simpl; lia|discriminate].
  - unfold tryCatch, bind, fetch.
    match goal with
    | |- context [network env ?n ?r] =>
        set (req := r); destruct (network env n req) as [r'|e]
    end.
    + destruct (ok r'); simpl.
      * unfold json.
        destruct (body r') as [items|[dn [a|]]|elements|features|routes|];
          unfold ret, throw, bind, cacheSet; simpl;
          (eexists; eexists; exists [req]; split; [reflexivity|]; simpl;
           split; [reflexivity|]; split; [lia|]; intros E;
           first [discriminate E | split; reflexivity]).
      * unfold ret. eexists. eexists. exists [req].
        split; [reflexivity|]. simpl. split; [reflexivity|].
        split; [lia|]. intros _. split; reflexivity.
    + unfold ret. eexists. eexists. exists [req].
      split; [reflexivity|]. simpl. split; [reflexivity|].
      split; [lia|]. intros _. split; reflexivity.
Qed.

(** X8.  [reverseGeocodeWithTimeout] never throws and makes at most one
    request; when it returns [null] it has made exactly one request and has
    left the cache as it was, so a failed lookup is tried again the next
    time. *)
Theorem reverse_lookup_never_throws
        (env : Env) (M : MathLib) (lat lng : float) (timeoutMs : Z)
        (w : World) :
  exists info w',
    reverseGeocodeWithTimeout env M lat lng timeoutMs w = (Returns info, w')
    /\ (List.length (requests w') <= S (List.length (requests w)))%nat
    /\ (info = None ->
        reverseCache w' = reverseCache w
        /\ List.length (requests w') = S (List.length (requests w))).
Proof.
  destruct (reverse_lookup_step env M lat lng timeoutMs w)
    as (info & w' & more & E & R & L & N).
  exists info, w'. split; [exact E|]. rewrite R, length_app.
  split; [lia|]. intros H. destruct (N H) as [C L1]. split; [exact C|lia].
Qed.

(** X8 for a lookup with the network down. *)
Lemma reverse_lookup_never_throws_witness :
  exists w',
    reverseGeocodeWithTimeout offline smallAngleMath 28.6139 77.2090 2000
                              emptyWorld
    = (Returns None, w')
    /\ reverseCache w' = reverseCache emptyWorld
    /\ List.length (requests w') = 1%nat.
Proof.
  destruct (reverse_lookup_never_throws offline smallAngleMath
              28.6139 77.2090 2000 emptyWorld) as (info & w' & E & _ & H).
  assert (N : info = None).
  { vm_compute in E. inversion E. reflexivity. }
  exists w'. split; [now rewrite <- N|]. exact (H N).
Defined.

End ReverseFacts.

(* ================================================================== *)
(** * Further properties of location acquisition *)
(* ================================================================== *)

Module LocationMore.

Import JsNum Location.
Open Scope string_scope.

Ltac run_event R :=
  match type of R with
  | run _ [] = Some _ => simpl in R; inversion R; subst; clear R
  | run _ (?ev :: _) = Some _ =>
      simpl in R;
      destruct ev as [[| |] ?coords|[| |] ?code]; simpl in R;
      try discriminate R
  end.

(** X9.  The sensor cascade always settles, and within three callbacks:
    while the promise is pending exactly one request is in flight; it is
    fulfilled by the first success callback, with the coordinates the
    browser reported and the method label of the attempt; it is rejected
    by the error callback of the third attempt only, with the message
    belonging to that error's code; once it is settled no request is in
    flight. *)
Theorem cascade_settles (b : Browser) (evs : list BrowserEvent)
        (s0 s : State) :
  getCurrentLocation b = SensorCascade s0 ->
  run s0 evs = Some s ->
  (List.length evs <= 3)%nat
  /\ match promise s with
     | Pending => List.length (inFlight s) = 1%nat
     | Fulfilled location =>
         inFlight s = []
         /\ exists earlier tier coords,
              evs = (earlier ++ [Succeeds tier coords])%list
              /\ location = onSuccess tier coords
     | Rejected message =>
         inFlight s = []
         /\ exists first second code,
              evs = [Fails attemptHighAccuracy first;
                     Fails attemptSecondTry second;
                     Fails attemptFinalGPS code]
              /\ message = failureMessage code
     end.
Proof.
  unfold getCurrentLocation.
  destruct (negb (supported (checkLocationSupport b))); [discriminate|].
  intros G R. inversion G; subst; clear G.
  destruct evs as [|e1 evs]; [run_event R; simpl; split; [lia|reflexivity]|].
  run_event R.
  - (* the first attempt succeeds *)
    destruct evs as [|e2 evs]; [|run_event R].
    run_event R. simpl. split; [lia|]. split; [reflexivity|].
    exists [], attemptHighAccuracy, coords. split; reflexivity.
  - (* the first attempt fails *)
    destruct evs as [|e2 evs];
      [run_event R; simpl; split; [lia|reflexivity]|].
    run_event R.
    + destruct evs as [|e3 evs]; [|run_event R].
      run_event R. simpl. split; [lia|]. split; [reflexivity|].
      exists [Fails attemptHighAccuracy code], attemptSecondTry, coords.
      split; reflexivity.
    + destruct evs as [|e3 evs];
        [run_event R; simpl; split; [lia|reflexivity]|].
      run_event R.
      * destruct evs as [|e4 evs]; [|run_event R].
        run_event R. simpl. split; [lia|]. split; [reflexivity|].
        exists [Fails attemptHighAccuracy code; Fails attemptSecondTry code0],
               attemptFinalGPS, coords.
        split; reflexivity.
      * destruct evs as [|e4 evs]; [|run_event R].
        run_event R. simpl. split; [lia|]. split; [reflexivity|].
        exists code, code0, code1. split; reflexivity.
Qed.

(** X9 on the run in which two attempts time out and the third
    succeeds. *)
Lemma cascade_settles_witness :
  exists s0 s location,
    getCurrentLocation secureBrowser = SensorCascade s0
    /\ run s0 twoTimeouts = Some s
    /\ promise s = Fulfilled location
    /\ method location = "gps_final_attempt".
Proof.
  eexists. eexists. eexists.
  split; [reflexivity|]. split; [reflexivity|].
  destruct (cascade_settles secureBrowser twoTimeouts _ _ eq_refl eq_refl)
    as [_ [_ (earlier & tier & coords & E & H)]].
  split; [reflexivity|]. reflexivity.
Defined.

Section WithMath.

Context (M : MathLib).

Lemma usable_sound (la lo : option float) (x y : float) :
  IpLocation.usable la lo = Some (x, y) ->
  la = Some x /\ lo = Some y
  /\ isNaN x = false /\ isNaN y = false
  /\ (x =? 0)%float = false /\ (y =? 0)%float = false.
Proof.
  unfold IpLocation.usable, IpLocation.truthyNum.
  destruct la as [a|]; [|discriminate]. destruct lo as [c|]; [|discriminate].
  destruct (isNaN a) eqn:Na, (isNaN c) eqn:Nc, (a =? 0)%float eqn:Za,
           (c =? 0)%float eqn:Zc;
    simpl; try discriminate.
  intros E. inversion E; subst. repeat split; assumption.
Qed.

Lemma attempt_sound (service : string) (a : IpLocation.Answer)
      (location : LocationFix) :
  IpLocation.attempt M service a = Some location ->
  method location = "ip_location"
  /\ fixAccuracy location = 5000%float
  /\ isNaN (lat location) = false /\ isNaN (lng location) = false
  /\ (lat location =? 0)%float = false /\ (lng location =? 0)%float = false.
Proof.
  unfold IpLocation.attempt.
  destruct a as [|[|] [[data|]|]]; try discriminate.
  destruct (IpLocation.parse M service data) as [[la lo] place].
  destruct (IpLocation.usable la lo) as [[x y]|] eqn:U; [|discriminate].
  apply usable_sound in U. intros E. inversion E; subst. simpl. tauto.
Qed.

(** X10.  The IP fallback always settles the promise, asks the three
    services in their order and stops at the first usable answer.  It
    resolves only with method 'ip_location', accuracy 5000 and coordinates
    that are neither NaN nor zero; it rejects, with the message asking for a
    manual address, only after all three services gave nothing usable. *)
Theorem ip_location_settles (net : nat -> string -> IpLocation.Answer) :
  exists n,
    (1 <= n <= 3)%nat
    /\ snd (IpLocation.tryIPLocation M net) = firstn n IpLocation.services
    /\ match fst (IpLocation.tryIPLocation M net) with
       | Pending => False
       | Fulfilled location =>
           method location = "ip_location"
           /\ fixAccuracy location = 5000%float
           /\ isNaN (lat location) = false /\ isNaN (lng location) = false
           /\ (lat location =? 0)%float = false
           /\ (lng location =? 0)%float = false
           /\ (forall i service,
                  (i < n - 1)%nat ->
                  nth_error IpLocation.services i = Some service ->
                  IpLocation.attempt M service (net i service) = None)
       | Rejected message =>
           message = IpLocation.noLocation
           /\ n = 3%nat
           /\ (forall i service,
                  nth_error IpLocation.services i = Some service ->
                  IpLocation.attempt M service (net i service) = None)
       end.
Proof.
  unfold IpLocation.tryIPLocation, IpLocation.services.
  cbn [IpLocation.tryServices].
  destruct (IpLocation.attempt M _ (net 0%nat _)) as [l0|] eqn:A0.
  { exists 1%nat. simpl. split; [lia|]. split; [reflexivity|].
    pose proof (attempt_sound _ _ _ A0). intuition. lia. }
  destruct (IpLocation.attempt M _ (net 1%nat _)) as [l1|] eqn:A1.
  { exists 2%nat. simpl. split; [lia|]. split; [reflexivity|].
    pose proof (attempt_sound _ _ _ A1) as H.
    repeat (split; [apply H|]).
    intros [|i] service Hi E; [|lia]. simpl in E. inversion E; subst.
    exact A0. }
  destruct (IpLocation.attempt M _ (net 2%nat _)) as [l2|] eqn:A2.
  { exists 3%nat. simpl. split; [lia|]. split; [reflexivity|].
    pose proof (attempt_sound _ _ _ A2) as H.
    repeat (split; [apply H|]).
    intros [|[|i]] service Hi E; try lia; simpl in E; inversion E; subst;
      assumption. }
  exists 3%nat. simpl. split; [lia|]. split; [reflexivity|].
  split; [reflexivity|]. split; [reflexivity|].
  intros [|[|[|i]]] service E; simpl in E; try (inversion E; subst; assumption).
  destruct i; discriminate.
Qed.

End WithMath.

End LocationMore.

(* ================================================================== *)
(** * Properties of the recent searches *)
(* ================================================================== *)

Module LocationInputFacts.

Import LocationInput JsArrayFacts.
Open Scope string_scope.

Lemma NoDup_firstn {A : Type} (n : nat) (l : list A) :
  NoDup l -> NoDup (firstn n l).
Proof.
  revert n. induction l as [|x l IH]; intros [|n] H; simpl;
    try constructor.
  - inversion H; subst. intros I. apply firstn_incl in I. contradiction.
  - inversion H; subst. now apply IH.
Qed.

(** X11.  The list of recent searches kept by the address box: after a
    search the searched text is first, the list has at most five entries,
    every other entry was in the list before, and a list without
    repetition stays without repetition. *)
Theorem recent_searches_invariant
        (searchAddress : string) (recentSearches : list string) :
  hd_error (newRecentSearches searchAddress recentSearches)
  = Some searchAddress
  /\ (List.length (newRecentSearches searchAddress recentSearches) <= 5)%nat
  /\ (forall item,
         In item (newRecentSearches searchAddress recentSearches) ->
         item = searchAddress \/ In item recentSearches)
  /\ (NoDup recentSearches ->
      NoDup (newRecentSearches searchAddress recentSearches)).
Proof.
  unfold newRecentSearches. split; [reflexivity|].
  split; [rewrite length_firstn; lia|]. split.
  - intros item H. apply firstn_incl in H. destruct H as [H|H]; [now left|].
    right. now apply filter_In in H.
  - intros N. apply NoDup_firstn. constructor.
    + intros H. apply filter_In in H. destruct H as [_ H].
      now rewrite String.eqb_refl in H.
    + now apply NoDup_filter.
Qed.

End LocationInputFacts.

(* ================================================================== *)
(** * Properties of the list functions of the places page *)
(* ================================================================== *)

Module FinderFacts.

Import JsNum JsArray JsArrayFacts Categories Finder.
Open Scope string_scope.

Lemma fold_left_sum {A : Type} (f : A -> nat) (l : list A) (a : nat) :
  fold_left (fun total e => (total + f e)%nat) l a
  = (a + list_sum (map f l))%nat.
Proof.
  revert a. induction l as [|x l IH]; intros a; simpl; [lia|].
  rewrite IH. lia.
Qed.

Lemma placesOf_by_keys (o : PlacesByCategory) :
  NoDup (keys o) -> map (placesOf o) (keys o) = map snd o.
Proof.
  induction o as [|[k v] o IH]; simpl; [reflexivity|].
  intros N. inversion N as [|? ? Hk N']; subst.
  unfold placesOf at 1. simpl. rewrite String.eqb_refl. f_equal.
  rewrite <- (IH N'). apply map_ext_in. intros k' Hk'.
  unfold placesOf. simpl.
  destruct (String.eqb k k') eqn:E; [|reflexivity].
  apply String.eqb_eq in E. subst. contradiction.
Qed.

Lemma list_sum_single (g : string -> nat) (c : string) (l : list string) :
  NoDup l -> In c l -> (forall k, k <> c -> g k = 0%nat) ->
  list_sum (map g l) = g c.
Proof.
  intros N I Z. induction l as [|k l IH]; simpl; [contradiction|].
  inversion N as [|? ? Hk N']; subst.
  destruct I as [I|I].
  - subst k.
    assert (E : list_sum (map g l) = 0%nat).
    { clear IH N N'. induction l as [|k l IH]; simpl; [reflexivity|].
      rewrite Z, IH; [reflexivity| |].
      - intros H. apply Hk. now right.
      - intros ->. apply Hk. now left. }
    lia.
  - rewrite (IH N' I), Z; [reflexivity|].
    intros ->. contradiction.
Qed.

Lemma list_sum_zero {A : Type} (g : A -> nat) (l : list A) :
  (forall x, g x = 0%nat) -> list_sum (map g l) = 0%nat.
Proof.
  intros Z. induction l as [|x l IH]; simpl; [reflexivity|].
  now rewrite Z, IH.
Qed.

Lemma NoDup_category_keys : NoDup (keys PLACE_CATEGORIES).
Proof.
  apply (NoDup_count_occ' string_dec). intros k H.
  simpl in H.
  repeat (destruct H as [H|H];
          [subst k; vm_compute; reflexivity|]).
  contradiction.
Qed.

Section WithLocale.

Context (toLowerCase : string -> string)
        (localeCompare : string -> string -> float).

Abbreviation filteredCategoryPlaces :=
  (getFilteredCategoryPlaces toLowerCase localeCompare).
Abbreviation filteredPlacesCount :=
  (getFilteredPlacesCount toLowerCase localeCompare).

(** X12.  What a category section shows: a place is in the list
    returned by [getFilteredCategoryPlaces] exactly when it is one of the
    places of the category, the category is the selected one (or 'all' is
    selected), and, if a search query is set, the query occurs in its name
    or in its address.  Sorting adds and removes nothing. *)
Theorem filtered_category_places_spec
        (v : View) (categoryKey : string) (categoryPlaces : list Place.t)
        (p : Place.t) :
  In p (filteredCategoryPlaces v categoryKey categoryPlaces)
  <-> In p categoryPlaces
      /\ (selectedCategory v = "all" \/ selectedCategory v = categoryKey)
      /\ (searchQuery v <> "" ->
          matchesQuery toLowerCase (searchQuery v) p = true).
Proof.
  unfold getFilteredCategoryPlaces. cbv zeta. unfold Str.truthy.
  destruct (String.eqb_spec (selectedCategory v) "all") as [A|A];
    destruct (String.eqb_spec (selectedCategory v) categoryKey) as [C|C];
    destruct (String.eqb_spec (searchQuery v) "") as [Q|Q]; simpl;
    rewrite ?sort_In, ?filter_In; intuition congruence.
Qed.

Lemma count_shown (v : View) (categoryKey : string)
      (categoryPlaces : list Place.t) :
  List.length (filteredCategoryPlaces v categoryKey categoryPlaces)
  = if negb (String.eqb (selectedCategory v) "all")
       && negb (String.eqb (selectedCategory v) categoryKey)
    then 0%nat
    else List.length
           (if Str.truthy (searchQuery v)
            then filter (matchesQuery toLowerCase (searchQuery v))
                        categoryPlaces
            else categoryPlaces).
Proof.
  unfold getFilteredCategoryPlaces. cbv zeta.
  destruct (negb _ && negb _); [reflexivity|apply sort_length].
Qed.

(** X13.  The number of places announced is the same in the category
    view and in the list view: for the empty [places] state and for a
    state keyed by the categories (such as every result of the search), and
    whatever category is selected, [getFilteredPlacesCount] gives the same
    count in both view modes. *)
Theorem filtered_count_agrees
        (found : PlacesByCategory) (selected sort query : string) :
  found = [] \/ keys found = keys PLACE_CATEGORIES ->
  offered selected ->
  filteredPlacesCount
    {| places := found; selectedCategory := selected; sortBy := sort;
       searchQuery := query; viewMode := "categories" |}
  = filteredPlacesCount
      {| places := found; selectedCategory := selected; sortBy := sort;
         searchQuery := query; viewMode := "list" |}.
Proof.
  intros K O. unfold getFilteredPlacesCount. cbv zeta.
  cbn [viewMode places].
  change ("categories" =? "categories") with true.
  change ("list" =? "categories") with false.
  cbv iota.
  rewrite fold_left_sum, Nat.add_0_l.
  rewrite <- (map_map fst
                (fun k => List.length
                            (filteredCategoryPlaces _ k (placesOf found k)))).
  fold (keys PLACE_CATEGORIES).
  unfold getFilteredPlaces. cbv zeta.
  cbn [places selectedCategory sortBy searchQuery].
  rewrite sort_length.
  erewrite map_ext; [|intros k; apply count_shown].
  cbn [places selectedCategory sortBy searchQuery].
  destruct (String.eqb selected "all") eqn:A; cbn [negb andb].
  - (* every category is shown *)
    destruct K as [->|K].
    + rewrite list_sum_zero; [destruct (Str.truthy query); reflexivity|].
      intros k. now destruct (Str.truthy query).
    + rewrite <- K.
      rewrite <- (map_map (placesOf found)
                    (fun l => List.length
                                (if Str.truthy query
                                 then filter (matchesQuery toLowerCase query) l
                                 else l))).
      rewrite placesOf_by_keys
        by (rewrite K; apply NoDup_category_keys).
      destruct (Str.truthy query).
      * rewrite <- concat_filter_map, length_concat, !map_map. reflexivity.
      * now rewrite length_concat.
  - (* one category is selected *)
    destruct O as [->|O]; [discriminate A|].
    rewrite (list_sum_single _ selected).
    + now rewrite String.eqb_refl.
    + apply NoDup_category_keys.
    + exact O.
    + intros k Hk. apply String.eqb_neq in Hk.
      rewrite String.eqb_sym in Hk. now rewrite Hk.
Qed.

End WithLocale.

(** X13 on the merged sample data, with the query 'food' and every
    category shown: four places in both views. *)
Lemma filtered_count_agrees_witness :
  let found := Merge.mergeRealAndMockData Merge.liveTwo Merge.syntheticThree in
  getFilteredPlacesCount Str.toLowerCase (fun _ _ => 0%float)
    {| places := found; selectedCategory := "all"; sortBy := "distance";
       searchQuery := "food"; viewMode := "categories" |}
  = 4%nat
  /\ getFilteredPlacesCount Str.toLowerCase (fun _ _ => 0%float)
       {| places := found; selectedCategory := "all"; sortBy := "distance";
          searchQuery := "food"; viewMode := "list" |}
     = 4%nat.
Proof.
  intros found.
  pose proof (filtered_count_agrees Str.toLowerCase (fun _ _ => 0%float)
                found "all" "distance" "food"
                (or_intror eq_refl) (or_introl eq_refl)) as E.
  split; [vm_compute; reflexivity|].
  rewrite <- E. vm_compute. reflexivity.
Defined.

End FinderFacts.

(* ================================================================== *)
(** * Requests made, results and state kept: the combinators *)
(* ================================================================== *)

Module ReadingFacts.

Import Eff Reading.

Lemma within_le {A : Type} (n m : nat) (c : Eff A) :
  within n c -> (n <= m)%nat -> within m c.
Proof.
  intros H L w. destruct (H w) as (more & E & B). exists more.
  split; [exact E|lia].
Qed.

Lemma within_ret {A : Type} (n : nat) (a : A) : within n (ret a).
Proof. intros w. exists []. simpl. rewrite app_nil_r. split; [reflexivity|lia]. Qed.

Lemma within_throw {A : Type} (n : nat) (e : JsError) :
  within n (@throw A e).
Proof. intros w. exists []. simpl. rewrite app_nil_r. split; [reflexivity|lia]. Qed.

Lemma within_mathRandom (env : Env) (n : nat) : within n (mathRandom env).
Proof. intros w. exists []. simpl. rewrite app_nil_r. split; [reflexivity|lia]. Qed.

Lemma within_cacheGet (n : nat) (key : string) : within n (cacheGet key).
Proof. intros w. exists []. simpl. rewrite app_nil_r. split; [reflexivity|lia]. Qed.

Lemma within_cacheSet (n : nat) (key : string) (value : ReverseInfo) :
  within n (cacheSet key value).
Proof. intros w. exists []. simpl. rewrite app_nil_r. split; [reflexivity|lia]. Qed.

Lemma within_awaitSettled {A : Type} (n : nat) (o : Outcome A) :
  within n (awaitSettled o).
Proof. intros w. exists []. simpl. rewrite app_nil_r. split; [reflexivity|lia]. Qed.

Lemma within_json (n : nat) (r : Response) : within n (json r).
Proof.
  unfold json. destruct (body r); first [apply within_ret|apply within_throw].
Qed.

Lemma within_fetch (env : Env) (n : nat) (req : Request) :
  within (S n) (fetch env req).
Proof.
  intros w. exists [req]. unfold fetch.
  destruct (network env _ req); simpl; (split; [reflexivity|lia]).
Qed.

Lemma within_bind {A B : Type} (n m : nat) (c : Eff A) (k : A -> Eff B) :
  within n c -> (forall a, within m (k a)) -> within (n + m) (bind c k).
Proof.
  intros Hc Hk w. unfold bind. destruct (Hc w) as (more & E & L).
  destruct (c w) as [[a|e] w1]; simpl in E.
  - destruct (Hk a w1) as (more' & E' & L'). exists (more ++ more')%list.
    rewrite E', E, app_assoc, length_app. split; [reflexivity|lia].
  - exists more. simpl. split; [exact E|lia].
Qed.

Lemma within_tryCatch {A : Type} (n m : nat) (c : Eff A)
      (handler : JsError -> Eff A) :
  within n c -> (forall e, within m (handler e)) ->
  within (n + m) (tryCatch c handler).
Proof.
  intros Hc Hh w. unfold tryCatch. destruct (Hc w) as (more & E & L).
  destruct (c w) as [[a|e] w1]; simpl in E.
  - exists more. simpl. split; [exact E|lia].
  - destruct (Hh e w1) as (more' & E' & L'). exists (more ++ more')%list.
    rewrite E', E, app_assoc, length_app. split; [reflexivity|lia].
Qed.

Lemma within_raceWithTimer {A : Type} (env : Env) (n : nat) (p : Eff A)
      (timeoutError : JsError) :
  within n p -> within n (raceWithTimer env p timeoutError).
Proof.
  intros H w. unfold raceWithTimer. destruct (H w) as (more & E & L).
  destruct (p w) as [o w1]. simpl in E. exists more.
  destruct (timerWins env (races w1)); simpl; (split; [exact E|exact L]).
Qed.

(** Requests of a computation built from the combinators, top down: a
    step that makes no request leaves the bound to the rest, a step that
    may make one takes one from it. *)
Ltac budget :=
  repeat first
    [ apply within_ret
    | apply within_throw
    | apply within_mathRandom
    | apply within_cacheGet
    | apply within_cacheSet
    | apply within_awaitSettled
    | apply within_json
    | apply within_fetch
    | assumption
    | match goal with
      | H : forall _ _ _ _, within _ _ |- within _ _ => apply H
      | H : forall _ _ _, within _ _ |- within _ _ => apply H
      | H : forall _ _, within _ _ |- within _ _ => apply H
      | H : forall _, within _ _ |- within _ _ => apply H
      end
    | apply (within_tryCatch _ 0); [|intros ?; solve [budget]]
    | apply (within_bind 0); [solve [budget]|intros ?]
    | apply (within_bind 1); [solve [budget]|intros ?]
    | match goal with
      | |- within _ (match ?x with _ => _ end) => destruct x
      | |- within _ (if ?b then _ else _) => destruct b
      | |- within _ (let '(_, _) := ?x in _) => destruct x
      end ].

Lemma ensures_ret {A : Type} (P : A -> Prop) (a : A) :
  P a -> ensures P (ret a).
Proof. intros H w a' w' E. inversion E; subst. exact H. Qed.

Lemma ensures_throw {A : Type} (P : A -> Prop) (e : JsError) :
  ensures P (throw e).
Proof. intros w a w' E. discriminate E. Qed.

Lemma ensures_bind {A B : Type} (P : B -> Prop) (c : Eff A)
      (k : A -> Eff B) :
  (forall a, ensures P (k a)) -> ensures P (bind c k).
Proof.
  intros Hk w b w' E. unfold bind in E.
  destruct (c w) as [[a|e] w1]; [|discriminate E].
  eapply Hk, E.
Qed.

Lemma ensures_tryCatch {A : Type} (P : A -> Prop) (c : Eff A)
      (handler : JsError -> Eff A) :
  ensures P c -> (forall e, ensures P (handler e)) ->
  ensures P (tryCatch c handler).
Proof.
  intros Hc Hh w a w' E. unfold tryCatch in E.
  destruct (c w) as [[a'|e] w1] eqn:C.
  - inversion E; subst. eapply Hc, C.
  - eapply Hh, E.
Qed.

Lemma preserves_retS {S A : Type} (I : S -> Prop) (a : A) :
  preserves I (@retS S A a).
Proof. intros s w H. exact H. Qed.

Lemma preserves_throwS {S A : Type} (I : S -> Prop) (e : JsError) :
  preserves I (@throwS S A e).
Proof. intros s w H. exact H. Qed.

Lemma preserves_liftS {S A : Type} (I : S -> Prop) (c : Eff A) :
  preserves I (@liftS S A c).
Proof. intros s w H. unfold liftS. destruct (c w). exact H. Qed.

Lemma preserves_modifyS {S : Type} (I : S -> Prop) (f : S -> S) :
  (forall s, I s -> I (f s)) -> preserves I (modifyS f).
Proof. intros Hf s w H. simpl. now apply Hf. Qed.

Lemma preserves_bindS {S A B : Type} (I : S -> Prop) (c : EffS S A)
      (k : A -> EffS S B) :
  preserves I c -> (forall a, preserves I (k a)) -> preserves I (bindS c k).
Proof.
  intros Hc Hk s w H. unfold bindS. specialize (Hc s w H).
  destruct (c s w) as [[[a|e] s1] w1]; simpl in Hc.
  - now apply Hk.
  - exact Hc.
Qed.

Lemma preserves_tryCatchS {S A : Type} (I : S -> Prop) (c : EffS S A)
      (handler : JsError -> EffS S A) :
  preserves I c -> (forall e, preserves I (handler e)) ->
  preserves I (tryCatchS c handler).
Proof.
  intros Hc Hh s w H. unfold tryCatchS. specialize (Hc s w H).
  destruct (c s w) as [[[a|e] s1] w1]; simpl in Hc.
  - exact Hc.
  - now apply Hh.
Qed.

Lemma preserves_forEachS {S A : Type} (I : S -> Prop)
      (f : A -> EffS S unit) (arr : list A) :
  (forall x, In x arr -> preserves I (f x)) -> preserves I (forEachS f arr).
Proof.
  induction arr as [|x rest IH]; intros Hf; simpl.
  - apply preserves_retS.
  - apply preserves_bindS.
    + apply Hf. now left.
    + intros _. apply IH. intros y Hy. apply Hf. now right.
Qed.

Lemma withinS_retS {S A : Type} (n : nat) (a : A) : withinS n (@retS S A a).
Proof. intros s w. exists []. simpl. rewrite app_nil_r. split; [reflexivity|lia]. Qed.

Lemma withinS_throwS {S A : Type} (n : nat) (e : JsError) :
  withinS n (@throwS S A e).
Proof. intros s w. exists []. simpl. rewrite app_nil_r. split; [reflexivity|lia]. Qed.

Lemma withinS_modifyS {S : Type} (n : nat) (f : S -> S) :
  withinS n (modifyS f).
Proof. intros s w. exists []. simpl. rewrite app_nil_r. split; [reflexivity|lia]. Qed.

Lemma withinS_getS {S : Type} (n : nat) : withinS n (@getS S).
Proof. intros s w. exists []. simpl. rewrite app_nil_r. split; [reflexivity|lia]. Qed.

Lemma withinS_liftS {S A : Type} (n : nat) (c : Eff A) :
  within n c -> withinS n (@liftS S A c).
Proof.
  intros H s w. unfold liftS. destruct (H w) as (more & E & L).
  destruct (c w) as [o w1]. exists more. split; [exact E|exact L].
Qed.

Lemma withinS_bindS {S A B : Type} (n m : nat) (c : EffS S A)
      (k : A -> EffS S B) :
  withinS n c -> (forall a, withinS m (k a)) -> withinS (n + m) (bindS c k).
Proof.
  intros Hc Hk s w. unfold bindS. destruct (Hc s w) as (more & E & L).
  destruct (c s w) as [[[a|e] s1] w1]; simpl in E.
  - destruct (Hk a s1 w1) as (more' & E' & L'). exists (more ++ more')%list.
    rewrite E', E, app_assoc, length_app. split; [reflexivity|lia].
  - exists more. simpl. split; [exact E|lia].
Qed.

Lemma withinS_tryCatchS {S A : Type} (n m : nat) (c : EffS S A)
      (handler : JsError -> EffS S A) :
  withinS n c -> (forall e, withinS m (handler e)) ->
  withinS (n + m) (tryCatchS c handler).
Proof.
  intros Hc Hh s w. unfold tryCatchS. destruct (Hc s w) as (more & E & L).
  destruct (c s w) as [[[a|e] s1] w1]; simpl in E.
  - exists more. simpl. split; [exact E|lia].
  - destruct (Hh e s1 w1) as (more' & E' & L'). exists (more ++ more')%list.
    rewrite E', E, app_assoc, length_app. split; [reflexivity|lia].
Qed.

Lemma withinS_tryCatchFinallyS {S : Type} (n m : nat) (c : EffS S unit)
      (handler : JsError -> EffS S unit) (finalizer : S -> S) :
  withinS n c -> (forall e, withinS m (handler e)) ->
  withinS (n + m) (tryCatchFinallyS c handler finalizer).
Proof.
  intros Hc Hh s w. unfold tryCatchFinallyS.
  destruct (Hc s w) as (more & E & L).
  destruct (c s w) as [[[a|e] s1] w1]; simpl in E.
  - exists more. simpl. split; [exact E|lia].
  - destruct (Hh e s1 w1) as (more' & E' & L').
    destruct (handler e s1 w1) as [[o s2] w2]. simpl in *.
    exists (more ++ more')%list.
    rewrite E', E, app_assoc, length_app. split; [reflexivity|lia].
Qed.

Lemma withinS_forEachS {S A : Type} (f : A -> EffS S unit) (arr : list A) :
  (forall x, withinS 0 (f x)) -> withinS 0 (forEachS f arr).
Proof.
  intros Hf. induction arr as [|x rest IH]; simpl.
  - apply withinS_retS.
  - apply (withinS_bindS 0 0); [apply Hf|intros _; exact IH].
Qed.

Lemma totalS_tryCatchFinallyS {S : Type} (c : EffS S unit)
      (handler : JsError -> EffS S unit) (finalizer : S -> S) :
  (forall e, totalS (handler e)) ->
  totalS (tryCatchFinallyS c handler finalizer).
Proof.
  intros Hh s w. unfold tryCatchFinallyS.
  destruct (c s w) as [[[a|e] s1] w1]; [eauto|].
  destruct (Hh e s1 w1) as (a & s2 & w2 & ->). eauto.
Qed.

Lemma tryCatchFinallyS_cases {S : Type} (c : EffS S unit)
      (handler : JsError -> EffS S unit) (finalizer : S -> S)
      (s : S) (w : World) :
  (exists s1 w1,
      c s w = ((Returns tt, s1), w1)
      /\ tryCatchFinallyS c handler finalizer s w
         = ((Returns tt, finalizer s1), w1))
  \/ (exists e s1 w1 o s2 w2,
         c s w = ((Throws e, s1), w1)
         /\ handler e s1 w1 = ((o, s2), w2)
         /\ tryCatchFinallyS c handler finalizer s w
            = ((o, finalizer s2), w2)).
Proof.
  unfold tryCatchFinallyS.
  destruct (c s w) as [[[[]|e] s1] w1].
  - left. eauto.
  - right. destruct (handler e s1 w1) as [[o s2] w2] eqn:Hh.
    exists e, s1, w1, o, s2, w2. auto.
Qed.

Lemma totalS_modifyS {S : Type} (f : S -> S) : totalS (modifyS f).
Proof. intros s w. unfold modifyS. eauto. Qed.

Lemma totalS_getS {S : Type} : totalS (@getS S).
Proof. intros s w. unfold getS. eauto. Qed.

Lemma totalS_liftS {S A : Type} (c : Eff A) : total c -> totalS (@liftS S A c).
Proof.
  intros H s w. unfold liftS. destruct (H w) as (a & w1 & ->). eauto.
Qed.

End ReadingFacts.

(* ================================================================== *)
(** * Further properties of the place suggestions *)
(* ================================================================== *)

Module SuggestionFacts.

Import JsNum JsArray JsArrayFacts Eff EffFacts Reading ReadingFacts Nominatim.
Open Scope string_scope.

Section WithEnv.

Context (env : Env) (M : MathLib) (encodeURIComponent : string -> string).

Lemma total_getPlaceSuggestions (query : Query) (limit : float)
      (near : option Near) :
  total (getPlaceSuggestions env M encodeURIComponent query limit near).
Proof.
  unfold getPlaceSuggestions. destruct (tooShort query); [apply total_ret|].
  apply total_tryCatch. intros _. apply total_ret.
Qed.

Lemma within_getPlaceSuggestions (query : Query) (limit : float)
      (near : option Near) :
  within 2 (getPlaceSuggestions env M encodeURIComponent query limit near).
Proof.
  unfold getPlaceSuggestions. destruct (tooShort query); [apply within_ret|].
  apply (within_tryCatch 2 0); [|intros _; apply within_ret].
  destruct (match hasCoordinates near with Some _ => _ | None => _ end)
    as [viewboxParam boundedParam].
  budget.
Qed.

(** X14.  [getPlaceSuggestions] never rejects, whatever the provider
    does: it resolves with a list (the empty list when anything fails), and
    it makes at most two requests, the second being the retry without the
    country filter. *)
Theorem suggestions_never_reject (query : Query) (limit : float)
        (near : option Near) (w : World) :
  exists suggestions w' more,
    getPlaceSuggestions env M encodeURIComponent query limit near w
    = (Returns suggestions, w')
    /\ requests w' = (requests w ++ more)%list
    /\ (List.length more <= 2)%nat.
Proof.
  destruct (total_getPlaceSuggestions query limit near w) as (l & w' & E).
  destruct (within_getPlaceSuggestions query limit near w) as (more & R & L).
  rewrite E in R. simpl in R. exists l, w', more. auto.
Qed.

(** X15.  When [near] carries coordinates, the suggestions returned are
    in ascending order of their distance to that point (for suggestions
    whose distance is a finite number). *)
Theorem suggestions_sorted_by_distance
        (query : Query) (limit : float) (near : option Near)
        (n : Near) (nlat nlng : float) (w w' : World)
        (suggestions : list Suggestion) :
  hasCoordinates near = Some (n, nlat, nlng) ->
  getPlaceSuggestions env M encodeURIComponent query limit near w
  = (Returns suggestions, w') ->
  let distance :=
    fun s => Geo.calculateDistance M nlat nlng (sLat s) (sLng s) in
  Forall (keyFinite distance) suggestions ->
  Sorted (keyLe distance) suggestions.
Proof.
  intros Hn E distance. revert w suggestions w' E.
  change (ensures (fun l => Forall (keyFinite distance) l ->
                            Sorted (keyLe distance) l)
                  (getPlaceSuggestions env M encodeURIComponent query limit
                                       near)).
  unfold getPlaceSuggestions. rewrite Hn.
  destruct (tooShort query); [apply ensures_ret; constructor|].
  apply ensures_tryCatch; [|intros _; apply ensures_ret; constructor].
  cbv iota beta.
  apply ensures_bind. intros response.
  destruct (negb (ok response)); [apply ensures_ret; constructor|].
  apply ensures_bind. intros data0.
  apply ensures_bind. intros data.
  destruct data as [[|item items]|data|elements|features|routes|];
    try apply ensures_throw.
  - apply ensures_ret. constructor.
  - apply ensures_ret. intros F.
    apply (sort_sorted distance).
    apply Forall_forall. intros s Hs.
    rewrite Forall_forall in F. apply F.
    apply (sort_In _ s). exact Hs.
Qed.

End WithEnv.

(** X15 with a provider that knows two places called Delhi. *)
Lemma suggestions_sorted_by_distance_witness :
  let item (ident : Z) (label : string) : SearchItem :=
    {| place_id := ident; itemName := Some label; display_name := label;
       itemLat := "28.65"; itemLon := "77.23"; itemType := "city";
       itemClass := "place"; itemImportance := "0.8"; itemAddress := None;
       itemOsmId := ident; itemOsmType := "node"; boundingbox := [] |} in
  let twoPlaces : Env :=
    {| network := fun _ _ =>
         Responds {| ok := true; status := 200;
                     body := SearchBody [item 1%Z "Delhi"; item 2%Z "New Delhi"] |};
       random := fun _ => 0%float;
       timerWins := fun _ => false |} in
  let centre := {| nearLat := Some 28.6%float; nearLng := Some 77.2%float;
                   radiusKm := Some 25%float |} in
  exists suggestions w',
    getPlaceSuggestions twoPlaces smallAngleMath (fun s => s)
                        (QString "delhi") 15 (Some centre) emptyWorld
    = (Returns suggestions, w')
    /\ List.length suggestions = 2%nat
    /\ Sorted (keyLe (fun s => Geo.calculateDistance smallAngleMath 28.6 77.2
                                 (sLat s) (sLng s)))
              suggestions.
Proof.
  intros item twoPlaces centre. eexists. eexists.
  split; [vm_compute; reflexivity|]. split; [reflexivity|].
  eapply (suggestions_sorted_by_distance twoPlaces smallAngleMath (fun s => s)
            (QString "delhi") 15 (Some centre) centre 28.6 77.2 emptyWorld).
  - reflexivity.
  - vm_compute. reflexivity.
  - repeat constructor.
Defined.

End SuggestionFacts.

(* ================================================================== *)
(** * Further properties of the route engine *)
(* ================================================================== *)

Module DirectionsMore.

Import JsNum JsNumFacts JsArray Eff EffFacts Reading ReadingFacts Directions
       DirectionsFacts.
Open Scope string_scope.

(** [Math.min(3, x)] leaves room for three passes of a counting loop at
    most. *)
Lemma loopCount_le_3 (x : float) :
  (3 <? x)%float = false -> (loopCount x <= 3)%nat.
Proof.
  rewrite ltb_spec. unfold SFltb, loopCount.
  destruct (Prim2SF x) as [s|s| |[|] m e] eqn:E; try lia.
  assert (E3 : Prim2SF 3 = S754_finite false 6755399441055744 (-51))
    by (vm_compute; reflexivity).
  rewrite E3. unfold SFcompare.
  destruct (valid_finite x false m e E) as [C _].
  apply canonical_digits in C. destruct C as (_ & D & _).
  pose proof (Zdigits2_upper m) as U.
  assert (B : (Z.pos m < 9007199254740992)%Z).
  { eapply Z.lt_le_trans; [exact U|].
    change 9007199254740992%Z with (2 ^ 53)%Z.
    apply Z.pow_le_mono_r; lia. }
  clear U D E E3.
  destruct (Z.compare_spec (-51) e) as [Ee|Lt|Gt]; try discriminate.
  - (* the exponent of 3 *)
    subst e. intros Cm. clear B.
    assert (Lm : (Z.pos m <= 6755399441055744)%Z).
    { destruct (Pos.compare_cont Eq 6755399441055744 m) eqn:Cc;
        try discriminate Cm.
      - apply Pos.compare_eq in Cc. rewrite <- Cc. apply Z.le_refl.
      - apply Pos.compare_gt_iff in Cc. apply Pos2Z.pos_lt_pos in Cc.
        apply Z.lt_le_incl. exact Cc. }
    clear Cm.
    change (2 ^ Z.pos 51)%Z with 2251799813685248%Z.
    apply Nat2Z.inj_le. rewrite Z2Nat.id by (apply Z.div_pos; lia).
    change (Z.of_nat 3) with 3%Z.
    apply Z.lt_succ_r. apply Z.div_lt_upper_bound; lia.
  - (* a smaller exponent *)
    intros _. destruct e as [|p|p]; try lia.
    assert (P : (4503599627370496 <= 2 ^ Z.pos p)%Z).
    { change 4503599627370496%Z with (2 ^ 52)%Z.
      apply Z.pow_le_mono_r; lia. }
    clear Gt. set (q := (2 ^ Z.pos p)%Z) in *. clearbody q.
    apply Nat2Z.inj_le. rewrite Z2Nat.id by (apply Z.div_pos; lia).
    change (Z.of_nat 3) with 3%Z.
    apply Z.lt_succ_r. apply Z.div_lt_upper_bound; lia.
Qed.

Lemma loopCount_min_3 (x : float) : (loopCount (min 3 x) <= 3)%nat.
Proof.
  unfold min.
  destruct (isNaN 3 || isNaN x); [vm_compute; lia|].
  destruct (3 <? x)%float eqn:A; [vm_compute; lia|].
  destruct (x <? 3)%float; [now apply loopCount_le_3|].
  assert (E3 : Prim2SF 3 = S754_finite false 6755399441055744 (-51))
    by (vm_compute; reflexivity).
  rewrite E3. now apply loopCount_le_3.
Qed.

Section WithEnv.

Context (env : Env) (M : MathLib).

Lemma middleSteps_length (n : nat) (totalDistance segments : float)
      (mode : Mode) :
  forall w l w',
    middleSteps env M n totalDistance segments mode w = (Returns l, w') ->
    List.length l = n.
Proof.
  induction n as [|n IH]; simpl; intros w l w' E.
  - inversion E. reflexivity.
  - unfold bind at 1 in E.
    destruct (middleStep env M totalDistance segments mode w)
      as [[st|e] w1]; [|discriminate E].
    unfold bind at 1 in E.
    destruct (middleSteps env M n totalDistance segments mode w1)
      as [[rest|e] w2] eqn:R; [|discriminate E].
    inversion E; subst. simpl. f_equal. eapply IH, R.
Qed.

Lemma within_middleStep (totalDistance segments : float) (mode : Mode) :
  within 0 (middleStep env M totalDistance segments mode).
Proof. unfold middleStep. budget. Qed.

Lemma within_middleSteps (n : nat) (totalDistance segments : float)
      (mode : Mode) :
  within 0 (middleSteps env M n totalDistance segments mode).
Proof.
  pose proof within_middleStep as S.
  induction n as [|n IH]; simpl; budget.
Qed.

Lemma within_generateEnhancedMockRoute (start end_ : Endpoint)
      (mode : Mode) :
  within 0 (generateEnhancedMockRoute env M start end_ mode).
Proof.
  pose proof within_middleSteps as S.
  unfold generateEnhancedMockRoute. cbv zeta. budget.
Qed.

(** X16.  The synthesised route has between four and seven steps: the
    depart step, the initial heading, at most three middle segments, the
    final approach and the arrive step; and building it makes no request.
    ([Math.random] is taken to return numbers in the interval [0, 1).) *)
Theorem mock_route_has_4_to_7_steps
        (start end_ : Endpoint) (mode : Mode) (w : World) :
  turnIndexInRange env M ->
  exists route w',
    generateEnhancedMockRoute env M start end_ mode w = (Returns route, w')
    /\ (4 <= List.length (Route.steps route) <= 7)%nat
    /\ requests w' = requests w.
Proof.
  intros H. unfold generateEnhancedMockRoute. cbv zeta. unfold bind at 1.
  set (d := Geo.calculateDistance M _ _ _ _).
  assert (Hm : exists l w1,
    (if (2 <? d)%float
     then middleSteps env M (loopCount (min 3 (floor M (d / 2))))
                      d (min 3 (floor M (d / 2))) mode
     else ret []) w = (Returns l, w1)
    /\ (List.length l <= 3)%nat
    /\ requests w1 = requests w).
  { destruct (2 <? d)%float.
    - destruct (middleSteps_returns env M
                  (loopCount (min 3 (floor M (d / 2)))) d
                  (min 3 (floor M (d / 2))) mode H w) as (l & w1 & E).
      exists l, w1. split; [exact E|]. split.
      + rewrite (middleSteps_length _ _ _ _ _ _ _ E).
        apply loopCount_min_3.
      + destruct (within_middleSteps
                    (loopCount (min 3 (floor M (d / 2)))) d
                    (min 3 (floor M (d / 2))) mode w) as (more & R & L).
        rewrite E in R. simpl in R.
        destruct more; [|simpl in L; lia]. now rewrite app_nil_r in R.
    - exists [], w. split; [reflexivity|]. split; [simpl; lia|reflexivity]. }
  destruct Hm as (l & w1 & -> & Ll & Rm).
  unfold bind, mathRandom, ret.
  eexists. eexists. split; [reflexivity|].
  cbn [Route.steps requests]. split; [|exact Rm].
  rewrite length_app, length_app. simpl. lia.
Qed.

Lemma tryProvider_logs (req : Request) (errorText : string)
      (routeOf : Body -> option Route.t) (w : World) :
  exists result,
    tryProvider env req errorText routeOf w = (Returns result, logged req w)
    /\ (providerFails routeOf (network env (List.length (requests w)) req)
        = false ->
        exists r, network env (List.length (requests w)) req = Responds r
                  /\ routeOf (body r) = result /\ result <> None).
Proof.
  unfold providerFails, tryProvider, tryCatch, bind, fetch, logged.
  destruct (network env _ req) as [r|e];
    [|eexists; split; [reflexivity|discriminate]].
  destruct (ok r); simpl;
    [|eexists; split; [reflexivity|discriminate]].
  unfold json.
  destruct (body r) eqn:B; simpl;
    try (eexists; split; [reflexivity|];
         destruct (routeOf _) eqn:Ro; [|discriminate];
         intros _; exists r; rewrite B, Ro;
         repeat split; congruence).
  eexists. split; [reflexivity|discriminate].
Qed.

(** X17.  [fetchRealRoute] asks the providers in order and no more than
    needed: its requests are the one to OpenRouteService, followed by the
    one to OSRM exactly when OpenRouteService gave no route; the synthesised
    route costs no request.  When OpenRouteService gives a route, that
    route is returned, tagged 'openrouteservice'. *)
Theorem providers_asked_in_order
        (start end_ : Endpoint) (mode : Mode) (w : World) :
  let first :=
    network env (List.length (requests w)) (orsRequest M start end_ mode) in
  requests (snd (fetchRealRoute env M start end_ mode w))
  = (requests w
     ++ if providerFails (orsRoute M) first
        then [orsRequest M start end_ mode; osrmRequest M start end_ mode]
        else [orsRequest M start end_ mode])%list
  /\ (providerFails (orsRoute M) first = false ->
      exists route,
        fst (fetchRealRoute env M start end_ mode w) = Returns route
        /\ Route.source route = "openrouteservice").
Proof.
  intros first. unfold fetchRealRoute, bind.
  destruct (tryProvider_logs (orsRequest M start end_ mode)
              "OpenRouteService failed" (orsRoute M) w)
    as (r1 & T1 & S1).
  rewrite T1. fold first in S1.
  destruct (providerFails (orsRoute M) first) eqn:F.
  - split; [|discriminate].
    assert (r1 = None) as ->.
    { pose proof (tryProvider_fails env (orsRequest M start end_ mode)
                    "OpenRouteService failed" (orsRoute M) w F) as T.
      congruence. }
    destruct (tryProvider_logs (osrmRequest M start end_ mode)
                "OSRM failed" (osrmRoute M)
                (logged (orsRequest M start end_ mode) w))
      as (r2 & -> & _).
    destruct r2 as [route|].
    + unfold ret, logged. simpl. now rewrite <- app_assoc.
    + destruct (within_generateEnhancedMockRoute start end_ mode
                  (logged (osrmRequest M start end_ mode)
                          (logged (orsRequest M start end_ mode) w)))
        as (more & R & L).
      destruct more; [|simpl in L; lia].
      rewrite R. unfold logged. simpl.
      now rewrite app_nil_r, <- app_assoc.
  - destruct (S1 eq_refl) as (r & N & Ro & Nn).
    destruct r1 as [route|]; [|congruence].
    unfold ret. simpl. split; [reflexivity|].
    exists route. split; [reflexivity|].
    unfold orsRoute in Ro.
    destruct (body r) as [| | |[|f fs]| |]; try discriminate Ro.
    inversion Ro. reflexivity.
Qed.

Lemma routeOf_source (data : Body) (route : Route.t) :
  orsRoute M data = Some route \/ osrmRoute M data = Some route ->
  Route.source route = "openrouteservice" \/ Route.source route = "osrm".
Proof.
  unfold orsRoute, osrmRoute.
  destruct data as [| | |[|f fs]|[|f fs]|]; intros [H|H];
    try discriminate H; inversion H; auto.
Qed.

Lemma tryProvider_source (req : Request) (errorText : string)
      (routeOf : Body -> option Route.t) (w w' : World) (route : Route.t) :
  tryProvider env req errorText routeOf w = (Returns (Some route), w') ->
  exists data, routeOf data = Some route.
Proof.
  unfold tryProvider, tryCatch, bind, fetch.
  destruct (network env _ req) as [r|e]; [|unfold ret; discriminate].
  destruct (ok r); simpl; [|unfold ret; discriminate].
  unfold json.
  destruct (body r) eqn:B; simpl; unfold ret;
    intros E; inversion E; eauto.
Qed.

Lemma fetchRealRoute_returns (start end_ : Endpoint) (mode : Mode)
      (w : World) :
  turnIndexInRange env M ->
  exists route w',
    fetchRealRoute env M start end_ mode w = (Returns route, w')
    /\ (Route.source route = "openrouteservice"
        \/ Route.source route = "osrm"
        \/ Route.source route = "enhanced_mock").
Proof.
  intros H. unfold fetchRealRoute, bind.
  destruct (tryProvider env (orsRequest M start end_ mode) _ _ w)
    as [[[route|]|e] w1] eqn:T1.
  - unfold ret. eexists. eexists. split; [reflexivity|].
    apply tryProvider_source in T1. destruct T1 as (data & D).
    destruct (routeOf_source data route (or_introl D)); auto.
  - destruct (tryProvider env (osrmRequest M start end_ mode) _ _ w1)
      as [[[route|]|e] w2] eqn:T2.
    + unfold ret. eexists. eexists. split; [reflexivity|].
      apply tryProvider_source in T2. destruct T2 as (data & D).
      destruct (routeOf_source data route (or_intror D)); auto.
    + destruct (generateEnhancedMockRoute_shape env M start end_ mode w2 H)
        as (route & w3 & E & S & _).
      exists route, w3. split; [exact E|]. auto.
    + destruct (tryProvider_logs (osrmRequest M start end_ mode)
                  "OSRM failed" (osrmRoute M) w1) as (r & T & _).
      congruence.
  - destruct (tryProvider_logs (orsRequest M start end_ mode)
                "OpenRouteService failed" (orsRoute M) w) as (r & T & _).
    congruence.
Qed.

(** X18.  [calculateRoute] always ends with [loading] switched off,
    whether the route computation returns or throws.  When [Math.random]
    returns numbers in [0, 1) it never throws, it leaves a route on the
    page, and the tag of that route is 'openrouteservice', 'osrm' or
    'enhanced_mock': the 'fallback' route of the [catch] branch is never
    shown. *)
Theorem calculateRoute_settles
        (start end_ : Endpoint) (page : Page) (w : World) :
  loading (snd (fst (calculateRoute env M start end_ page w))) = false
  /\ (turnIndexInRange env M ->
      exists page' w' route,
        calculateRoute env M start end_ page w = ((Returns tt, page'), w')
        /\ routeInfo page' = Some route
        /\ Route.source route <> "fallback").
Proof.
  split.
  - unfold calculateRoute, bindS at 1, getS.
    match goal with
    | |- context [tryCatchFinallyS ?c ?h ?f ?s ?w] =>
        destruct (tryCatchFinallyS_cases c h f s w)
          as [(s1 & w1 & _ & ->)|(e & s1 & w1 & o & s2 & w2 & _ & _ & ->)]
    end; reflexivity.
  - intros H.
    destruct (fetchRealRoute_returns start end_ (travelMode page)
                (* the world in which the request is made *) w H)
      as (route & w' & E & S).
    unfold calculateRoute, bindS, getS, tryCatchFinallyS, modifyS, liftS.
    rewrite E. eexists. eexists. exists route.
    split; [reflexivity|]. split; [reflexivity|].
    destruct S as [S|[S|S]]; rewrite S; discriminate.
Qed.

(** X19.  [handleSourceAddressSearch] never throws.  For an address that
    is not blank it ends with [locationLoading] switched off; and when the
    geocoder fails it shows the geocoder's message after 'Unable to find
    the specified address: ', keeps the source location and the route it
    had, and has made the one geocoding request and no routing request. *)
Theorem address_search_reports_failure
        (encodeURIComponent : string -> string) (page : Page) (w : World) :
  Str.trim (sourceInput page) <> "" ->
  exists page' w',
    handleSourceAddressSearch env M encodeURIComponent page w
    = ((Returns tt, page'), w')
    /\ locationLoading page' = false
    /\ (forall e w1,
           Nominatim.geocodeAddress env M encodeURIComponent
                                    (sourceInput page) w
           = (Throws e, w1) ->
           error page'
           = Some ("Unable to find the specified address: " ++ message e)
           /\ sourceLocation page' = sourceLocation page
           /\ routeInfo page' = routeInfo page
           /\ requests w'
              = (requests w
                 ++ [Nominatim.geocodeRequest encodeURIComponent
                                              (sourceInput page)])%list).
Proof.
  intros NB. unfold handleSourceAddressSearch, bindS at 1, getS.
  assert (T : Str.truthy (Str.trim (sourceInput page)) = true).
  { unfold Str.truthy. apply negb_true_iff. now apply String.eqb_neq. }
  rewrite T. cbn [negb].
  match goal with
  | |- context [tryCatchFinallyS ?c ?h ?f ?s ?w] =>
      destruct (tryCatchFinallyS_cases c h f s w)
        as [(s1 & w1 & C & ->)|(e & s1 & w1 & o & s2 & w2 & C & Hh & ->)]
  end.
  - eexists. eexists. split; [reflexivity|]. split; [reflexivity|].
    intros e' w1' G. exfalso. revert C.
    unfold bindS, modifyS, liftS. rewrite G. discriminate.
  - unfold modifyS in Hh. inversion Hh; subst; clear Hh.
    eexists. eexists. split; [reflexivity|].
    split; [reflexivity|].
    intros e' w1' G. revert C.
    unfold bindS, modifyS, liftS. rewrite G.
    intros C. inversion C; subst. simpl.
    repeat split.
    pose proof (NominatimFacts.geocodeAddress_requests env M
                  encodeURIComponent (sourceInput page) w) as R.
    rewrite G in R. exact R.
Qed.

End WithEnv.

(** X17 with both providers down: two requests, in order. *)
Lemma providers_asked_in_order_witness :
  requests (snd (fetchRealRoute offline smallAngleMath fromPoint toPoint
                                walking emptyWorld))
  = [orsRequest smallAngleMath fromPoint toPoint walking;
     osrmRequest smallAngleMath fromPoint toPoint walking].
Proof.
  destruct (providers_asked_in_order offline smallAngleMath fromPoint toPoint
              walking emptyWorld) as [R _].
  exact R.
Defined.

(** X16 for a walk between two points in Delhi. *)
Lemma mock_route_has_4_to_7_steps_witness :
  exists route w',
    generateEnhancedMockRoute offline smallAngleMath fromPoint toPoint
                              walking emptyWorld
    = (Returns route, w')
    /\ (4 <= List.length (Route.steps route) <= 7)%nat
    /\ requests w' = requests emptyWorld.
Proof.
  apply (mock_route_has_4_to_7_steps offline smallAngleMath fromPoint
                                     toPoint walking emptyWorld).
  intros n. exists 0%nat. split; [reflexivity|lia].
Defined.

(** X18 with both providers down. *)
Lemma calculateRoute_settles_witness :
  exists page' w' route,
    calculateRoute offline smallAngleMath fromPoint toPoint blankPage
                   emptyWorld
    = ((Returns tt, page'), w')
    /\ routeInfo page' = Some route
    /\ Route.source route <> "fallback".
Proof.
  destruct (calculateRoute_settles offline smallAngleMath fromPoint toPoint
              blankPage emptyWorld) as [_ H].
  apply H. intros n. exists 0%nat. split; [reflexivity|lia].
Defined.

(** X19 for the address 'Nowhere' with the geocoder down. *)
Lemma address_search_reports_failure_witness :
  let page :=
    {| sourceInput := "Nowhere"; sourceLocation := None;
       destination := Some toPoint; travelMode := walking; routeInfo := None;
       loading := false; locationLoading := false;
       useCurrentLocation := false; error := None |} in
  exists page' w',
    handleSourceAddressSearch offline smallAngleMath (fun s => s) page
                              emptyWorld
    = ((Returns tt, page'), w')
    /\ locationLoading page' = false
    /\ error page'
       = Some "Unable to find the specified address: Failed to fetch"
    /\ List.length (requests w') = 1%nat.
Proof.
  intros page.
  destruct (address_search_reports_failure offline smallAngleMath
              (fun s => s) page emptyWorld) as (page' & w' & E & L & F).
  { vm_compute. discriminate. }
  exists page', w'. split; [exact E|]. split; [exact L|].
  destruct (F (TypeError "Failed to fetch")
              (logged (Nominatim.geocodeRequest (fun s => s) "Nowhere")
                      emptyWorld) eq_refl) as (Er & _ & _ & R).
  split; [exact Er|]. now rewrite R.
Defined.

End DirectionsMore.

(* ================================================================== *)
(** * Properties of the live search (Overpass) *)
(* ================================================================== *)

Module OverpassFacts.

Import JsNum JsArray JsArrayFacts ObjFacts Eff EffFacts Reading ReadingFacts
       Categories Categorize CategorizeMore Aggregator.
Open Scope string_scope.

Lemma within0_same {S A : Type} (c : EffS S A) (s : S) (w : World) :
  withinS 0 c -> requests (snd (c s w)) = requests w.
Proof.
  intros H. destruct (H s w) as (more & E & L).
  destruct more; [|simpl in L; lia]. now rewrite app_nil_r in E.
Qed.

Lemma fetch_then {S A : Type} (env : Env) (req : Request)
      (k : Response -> EffS S A) (handler : JsError -> EffS S A)
      (s : S) (w : World) :
  (forall r, withinS 0 (k r)) -> (forall e, withinS 0 (handler e)) ->
  requests (snd (tryCatchS (bindS (liftS (fetch env req)) k) handler s w))
  = (requests w ++ [req])%list.
Proof.
  intros Hk Hh. unfold tryCatchS, bindS, liftS, fetch.
  destruct (network env _ req) as [r|e].
  - match goal with
    | |- context [k r s ?w1] =>
        pose proof (within0_same (k r) s w1 (Hk r)) as E;
        destruct (k r s w1) as [[[a|e] s'] w'] eqn:K
    end; simpl in E.
    + simpl. exact E.
    + rewrite (within0_same (handler e) s' w' (Hh e)). exact E.
  - match goal with
    | |- context [handler e s ?w1] =>
        rewrite (within0_same (handler e) s w1 (Hh e))
    end.
    reflexivity.
Qed.

(** Lists of at most eight places. *)
Lemma sortAndLimit_limit (results : PlacesByCategory)
      (entry : string * list Place.t) :
  In entry (sortAndLimit results) -> (List.length (snd entry) <= 8)%nat.
Proof.
  unfold sortAndLimit. intros H. apply in_map_iff in H.
  destruct H as (e & <- & _). cbn [snd]. rewrite length_firstn. lia.
Qed.

Lemma placesOf_limit (results : PlacesByCategory) (k : string) :
  (forall entry, In entry results -> (List.length (snd entry) <= 8)%nat) ->
  (List.length (placesOf results k) <= 8)%nat.
Proof.
  intros H. unfold placesOf.
  destruct (get results k) as [places|] eqn:G; [|simpl; lia].
  apply get_In in G. exact (H _ G).
Qed.

Lemma keys_push (k : string) (place : Place.t) (results : PlacesByCategory) :
  keys (push k place results) = keys results.
Proof.
  unfold push, keys. rewrite map_map. apply map_ext.
  intros [k' l]. simpl. now destruct (String.eqb k' k).
Qed.

Lemma keys_sortAndLimit (results : PlacesByCategory) :
  keys (sortAndLimit results) = keys results.
Proof. unfold sortAndLimit, keys. now rewrite map_map. Qed.

Lemma filed_push (k : string) (place : Place.t) (results : PlacesByCategory) :
  Place.category place = k -> Place.type place = Place.osm ->
  filed Place.osm results -> filed Place.osm (push k place results).
Proof.
  intros C T F entry p He Hp. unfold push in He.
  apply in_map_iff in He. destruct He as ([k' l] & <- & Hin).
  simpl in *. destruct (String.eqb k' k) eqn:E; simpl in *.
  - apply in_app_iff in Hp. destruct Hp as [Hp|[<-|[]]].
    + exact (F _ _ Hin Hp).
    + apply String.eqb_eq in E. subst. auto.
  - exact (F _ _ Hin Hp).
Qed.

Lemma filed_sortAndLimit (results : PlacesByCategory) :
  filed Place.osm results -> filed Place.osm (sortAndLimit results).
Proof.
  intros F entry p He Hp. unfold sortAndLimit in He.
  apply in_map_iff in He. destruct He as ([k l] & <- & Hin).
  cbn [fst snd] in *. apply firstn_incl in Hp. apply sort_In in Hp.
  exact (F _ _ Hin Hp).
Qed.

Lemma filed_emptyCategories : filed Place.osm emptyCategories.
Proof.
  intros entry p He Hp. unfold emptyCategories in He.
  apply in_map_iff in He. destruct He as (k & <- & _). contradiction.
Qed.

Lemma emptyCategories_limit (entry : string * list Place.t) :
  In entry emptyCategories -> (List.length (snd entry) <= 8)%nat.
Proof.
  unfold emptyCategories. intros He.
  apply in_map_iff in He. destruct He as (k & <- & _). simpl. lia.
Qed.

Lemma keys_emptyCategories : keys emptyCategories = keys PLACE_CATEGORIES.
Proof. unfold emptyCategories, keys. rewrite map_map. apply map_id. Qed.

Section WithEnv.

Context (env : Env) (M : MathLib) (encodeURIComponent : string -> string).

(** The results stay keyed by the categories and filed. *)
Abbreviation keyedAndFiled :=
  (fun results : PlacesByCategory =>
     keys results = keys PLACE_CATEGORIES /\ filed Place.osm results).

Lemma withinS_processElement (lat lng radius : float) (element : Element) :
  withinS 0 (processElement env M lat lng radius element).
Proof.
  unfold processElement. cbv zeta.
  repeat match goal with
         | |- withinS _ (match ?x with _ => _ end) => destruct x
         | |- withinS _ (if ?b then _ else _) => destruct b
         end;
    first [ apply withinS_retS
          | apply withinS_throwS
          | apply (withinS_bindS 0 0);
            [apply withinS_liftS, within_mathRandom
            |intros r; apply withinS_modifyS] ].
Qed.

Lemma preserves_processElement (lat lng radius : float) (element : Element) :
  preserves keyedAndFiled (processElement env M lat lng radius element).
Proof.
  unfold processElement. cbv zeta.
  repeat match goal with
         | |- preserves _ (match ?x with _ => _ end) => destruct x eqn:?
         | |- preserves _ (if ?b then _ else _) => destruct b
         end;
    first [ apply preserves_retS
          | apply preserves_throwS
          | apply preserves_bindS;
            [apply preserves_liftS|intros r; apply preserves_modifyS] ].
  intros results [K F]. split.
  - now rewrite keys_push.
  - apply filed_push; [reflexivity|reflexivity|exact F].
Qed.

Lemma tryServer_requests (lat lng radius : float) (serverUrl : string)
      (results : PlacesByCategory) (w : World) :
  requests (snd (tryServer env M encodeURIComponent lat lng radius serverUrl
                           results w))
  = (requests w
     ++ [overpassRequest M encodeURIComponent lat lng radius serverUrl])%list.
Proof.
  unfold tryServer. apply fetch_then.
  - intros r. destruct (negb (ok r)); [apply withinS_retS|].
    apply (withinS_bindS 0 0); [apply withinS_liftS, within_json|].
    intros data.
    destruct data as [| |[[|first rest]|]| | |]; try apply withinS_retS.
    apply (withinS_bindS 0 0).
    + apply withinS_forEachS. intros x. apply withinS_processElement.
    + intros _. apply (withinS_bindS 0 0); [apply withinS_modifyS|].
      intros _. apply withinS_retS.
  - intros e. apply withinS_retS.
Qed.

Lemma preserves_tryServer (lat lng radius : float) (serverUrl : string) :
  preserves keyedAndFiled
            (tryServer env M encodeURIComponent lat lng radius serverUrl).
Proof.
  unfold tryServer. apply preserves_tryCatchS; [|intros e; apply preserves_retS].
  apply preserves_bindS; [apply preserves_liftS|]. intros r.
  destruct (negb (ok r)); [apply preserves_retS|].
  apply preserves_bindS; [apply preserves_liftS|]. intros data.
  destruct data as [| |[[|first rest]|]| | |]; try apply preserves_retS.
  apply preserves_bindS.
  - apply preserves_forEachS. intros x _. apply preserves_processElement.
  - intros _. apply preserves_bindS; [|intros _; apply preserves_retS].
    apply preserves_modifyS. intros s [K F]. split.
    + now rewrite keys_sortAndLimit.
    + now apply filed_sortAndLimit.
Qed.

Lemma preserves_tryServers (lat lng radius : float) (servers : list string) :
  preserves keyedAndFiled
            (tryServers env M encodeURIComponent lat lng radius servers).
Proof.
  induction servers as [|serverUrl rest IH]; simpl.
  - apply preserves_retS.
  - apply preserves_bindS; [apply preserves_tryServer|].
    intros [|]; [apply preserves_retS|exact IH].
Qed.

Lemma tryServers_requests (lat lng radius : float) (servers : list string) :
  forall results w,
  exists n,
    (servers <> [] -> 1 <= n)%nat /\ (n <= List.length servers)%nat
    /\ requests (snd (tryServers env M encodeURIComponent lat lng radius
                                 servers results w))
       = (requests w
          ++ map (overpassRequest M encodeURIComponent lat lng radius)
                 (firstn n servers))%list.
Proof.
  induction servers as [|serverUrl rest IH]; intros results w; simpl.
  - exists 0%nat. simpl. rewrite app_nil_r. repeat split; [congruence|lia].
  - unfold bindS.
    pose proof (tryServer_requests lat lng radius serverUrl results w) as R.
    destruct (SearchFacts.totalS_tryServer env M encodeURIComponent
                lat lng radius serverUrl results w) as (b & s1 & w1 & E).
    rewrite E in *. simpl in R. destruct b.
    + exists 1%nat. simpl. repeat split; [lia|lia|exact R].
    + destruct (IH s1 w1) as (n & _ & L & Rn). exists (S n). simpl.
      repeat split; [lia|lia|].
      rewrite Rn, R, <- app_assoc. reflexivity.
Qed.

(** X20.  The live search asks the mirrors in the order of
    [OVERPASS_SERVERS], one request each, and stops at the first mirror
    that delivers elements: its requests are those to the first [n]
    mirrors, for some [n] from 1 to 3. *)
Theorem mirrors_asked_in_order (lat lng radius : float) (w : World) :
  exists n,
    (1 <= n <= 3)%nat
    /\ requests (snd (fetchRealPlacesFromOverpass env M encodeURIComponent
                                                  lat lng radius w))
       = (requests w
          ++ map (overpassRequest M encodeURIComponent lat lng radius)
                 (firstn n OVERPASS_SERVERS))%list.
Proof.
  destruct (tryServers_requests lat lng radius OVERPASS_SERVERS
              emptyCategories w) as (n & L1 & L2 & R).
  exists n. split; [split; [apply L1; discriminate|exact L2]|].
  unfold fetchRealPlacesFromOverpass.
  destruct (tryServers _ _ _ _ _ _ _ _ _) as [[[b|e] s1] w1]; exact R.
Qed.

(** X21.  Whatever the mirrors answer, the live search returns a result
    keyed by the categories of [PLACE_CATEGORIES], in which every place is
    filed under its own category and is of type 'osm'. *)
Theorem live_places_are_filed (lat lng radius : float) (w : World) :
  exists live w',
    fetchRealPlacesFromOverpass env M encodeURIComponent lat lng radius w
    = (Returns live, w')
    /\ keys live = keys PLACE_CATEGORIES
    /\ (forall categoryKey place,
           In place (placesOf live categoryKey) ->
           Place.category place = categoryKey
           /\ Place.type place = Place.osm).
Proof.
  destruct (SearchFacts.total_fetchRealPlacesFromOverpass env M
              encodeURIComponent lat lng radius w) as (live & w' & E).
  exists live, w'. split; [exact E|].
  pose proof (preserves_tryServers lat lng radius OVERPASS_SERVERS
                emptyCategories w
                (conj keys_emptyCategories filed_emptyCategories)) as [K F].
  unfold fetchRealPlacesFromOverpass in E.
  destruct (tryServers _ _ _ _ _ _ _ _ _) as [[[b|e] s1] w1];
    [|discriminate E].
  inversion E; subst. simpl in K, F. split; [exact K|].
  intros k p Hp. apply placesOf_In in Hp. destruct Hp as (places & Hin & Hp).
  exact (F _ _ Hin Hp).
Qed.

Lemma forEachS_returns {S A : Type} (f : A -> EffS S unit) (arr : list A) :
  (forall x, In x arr ->
             forall s w, exists s' w', f x s w = ((Returns tt, s'), w')) ->
  forall s w, exists s' w', forEachS f arr s w = ((Returns tt, s'), w').
Proof.
  induction arr as [|x rest IH]; intros Hf s w; simpl.
  - unfold retS. eauto.
  - unfold bindS. destruct (Hf x (or_introl eq_refl) s w) as (s1 & w1 & ->).
    apply IH. intros y Hy. apply Hf. now right.
Qed.

Lemma tryServer_plain (lat lng radius : float) (serverUrl : string)
      (results : PlacesByCategory) (w : World) :
  plainElements env ->
  exists b results' w',
    tryServer env M encodeURIComponent lat lng radius serverUrl results w
    = ((Returns b, results'), w')
    /\ (results' = results \/ exists s1, results' = sortAndLimit s1).
Proof.
  intros P. unfold tryServer, tryCatchS, bindS at 1, liftS at 1, fetch.
  destruct (network env _ _) as [r|e] eqn:N;
    [|unfold retS; eexists; eexists; eexists; split; [reflexivity|now left]].
  destruct (negb (ok r));
    [unfold retS; eexists; eexists; eexists; split; [reflexivity|now left]|].
  unfold bindS at 1, liftS at 1, json.
  destruct (body r) as [| |[[|first rest]|]| | |] eqn:B;
    try (unfold ret, throw, retS; simpl;
         eexists; eexists; eexists; split; [reflexivity|now left]).
  unfold ret. unfold bindS at 1.
  match goal with
  | |- context [forEachS ?f ?arr ?st ?w1] =>
      destruct (fun H => forEachS_returns f arr H st w1)
        as (s1 & w2 & ->)
  end.
  - intros x Hx s0 w0.
    destruct (processElement_plain env M lat lng radius x s0 w0)
      as (s' & w' & E & _); [|eauto].
    intros prop. eapply P; eauto.
  - unfold bindS, modifyS, retS.
    eexists. eexists. eexists. split; [reflexivity|]. right. eauto.
Qed.

Lemma tryServers_plain (lat lng radius : float) (servers : list string) :
  plainElements env ->
  forall results w,
    (forall entry, In entry results ->
                   (List.length (snd entry) <= 8)%nat) ->
    forall entry,
      In entry (snd (fst (tryServers env M encodeURIComponent lat lng radius
                                     servers results w))) ->
      (List.length (snd entry) <= 8)%nat.
Proof.
  intros P. induction servers as [|serverUrl rest IH];
    intros results w J; simpl; [exact J|].
  unfold bindS.
  destruct (tryServer_plain lat lng radius serverUrl results w P)
    as (b & s1 & w1 & -> & C).
  assert (J1 : forall entry, In entry s1 ->
                             (List.length (snd entry) <= 8)%nat).
  { destruct C as [->|(s0 & ->)]; [exact J|].
    intros entry. apply sortAndLimit_limit. }
  destruct b; [exact J1|]. now apply IH.
Qed.

(** X22.  When no element carries a tag value naming a member of
    [Object.prototype], the live search returns at most eight places in
    each category. *)
Theorem live_places_limit (lat lng radius : float) (w : World) :
  plainElements env ->
  exists live w',
    fetchRealPlacesFromOverpass env M encodeURIComponent lat lng radius w
    = (Returns live, w')
    /\ forall categoryKey,
         (List.length (placesOf live categoryKey) <= 8)%nat.
Proof.
  intros P.
  destruct (SearchFacts.total_fetchRealPlacesFromOverpass env M
              encodeURIComponent lat lng radius w) as (live & w' & E).
  exists live, w'. split; [exact E|].
  pose proof (tryServers_plain lat lng radius OVERPASS_SERVERS P
                emptyCategories w emptyCategories_limit) as J.
  unfold fetchRealPlacesFromOverpass in E.
  destruct (tryServers _ _ _ _ _ _ _ _ _) as [[[b|e] s1] w1];
    [|discriminate E].
  inversion E; subst. cbn [fst snd] in J.
  intros k. apply placesOf_limit. exact J.
Qed.

End WithEnv.

(** X22 with a first mirror that knows one bakery. *)
Lemma live_places_limit_witness :
  let mirror : Env :=
    {| network := fun _ _ =>
         Responds
           {| ok := true; status := 200;
              body := OverpassBody
                        (Some [{| elId := 7; elType := "node";
                                  elLat := Some 28.6140%float;
                                  elLon := Some 77.2091%float;
                                  elCenter := None;
                                  elTags := Some bakery |}]) |};
       random := fun _ => 0%float;
       timerWins := fun _ => false |} in
  exists live w',
    fetchRealPlacesFromOverpass mirror smallAngleMath (fun s => s)
                                28.6139 77.2090 10 emptyWorld
    = (Returns live, w')
    /\ List.length (placesOf live "shopping") = 1%nat
    /\ forall categoryKey,
         (List.length (placesOf live categoryKey) <= 8)%nat.
Proof.
  intros mirror.
  destruct (live_places_limit mirror smallAngleMath (fun s => s)
              28.6139 77.2090 10 emptyWorld) as (live & w' & E & L).
  - intros n req r elements element prop N B I.
    inversion N; subst; clear N. simpl in B. inversion B; subst; clear B.
    destruct I as [<-|[]]. vm_compute. discriminate.
  - exists live, w'. split; [exact E|]. split; [|exact L].
    vm_compute in E. inversion E. reflexivity.
Defined.

End OverpassFacts.

(* ================================================================== *)
(** * Properties of the address lookups and of the verified generator *)
(* ================================================================== *)

Module LookupFacts.

Import JsNum JsArray JsArrayFacts ObjFacts Eff EffFacts Reading ReadingFacts
       Categories Nominatim Verified Search ReverseFacts.
Open Scope string_scope.

Lemma sameButAddress_refl (p : Place.t) : sameButAddress p p.
Proof.
  destruct p. unfold sameButAddress, withAddress. simpl.
  eexists. eexists. eexists. eexists. reflexivity.
Qed.

Lemma sameButAddress_all (l : list Place.t) : Forall2 sameButAddress l l.
Proof. induction l; constructor; auto using sameButAddress_refl. Qed.

Lemma sameButAddress_fields (p q : Place.t) :
  sameButAddress p q ->
  Place.id q = Place.id p /\ Place.name q = Place.name p
  /\ Place.category q = Place.category p /\ Place.type q = Place.type p
  /\ Place.lat q = Place.lat p /\ Place.lng q = Place.lng p
  /\ Place.distance q = Place.distance p.
Proof.
  intros (a & c & s & co & ->). simpl. repeat split.
Qed.

(** What a pass over places may do to them: change the address fields of
    a place, and nothing of a place that has a decent address. *)
Abbreviation enhanced :=
  (fun p q : Place.t =>
     sameButAddress p q /\ (hasDecentAddress p = true -> q = p)).

Lemma enhanced_all (l : list Place.t) : Forall2 enhanced l l.
Proof.
  induction l; constructor; auto. split; auto using sameButAddress_refl.
Qed.

Section WithEnv.

Context (env : Env) (M : MathLib).

Lemma enhancePlaces_spec (places : list Place.t) :
  forall lookups w,
  exists places' lookups' stopped w' more,
    enhancePlaces env M places lookups w
    = (Returns (places', lookups', stopped), w')
    /\ requests w' = (requests w ++ more)%list
    /\ (lookups <= lookups')%nat
    /\ (List.length more <= lookups' - lookups)%nat
    /\ (lookups' <= Nat.max lookups 15)%nat
    /\ Forall2 enhanced places places'.
Proof.
  induction places as [|place rest IH]; intros lookups w;
    cbn [enhancePlaces].
  - unfold ret. exists [], lookups, false, w, [].
    rewrite app_nil_r. simpl. repeat split; try lia. constructor.
  - destruct (hasDecentAddress place) eqn:D.
    + destruct (IH lookups w)
        as (rest' & lookups' & stopped & w' & more & E & R & L1 & L2 & L3 & F).
      unfold bind. rewrite E. unfold ret.
      exists (place :: rest'), lookups', stopped, w', more.
      repeat split; auto. constructor; [|exact F].
      split; [apply sameButAddress_refl|reflexivity].
    + destruct (15 <=? lookups)%nat eqn:C.
      * unfold ret. exists (place :: rest), lookups, true, w, [].
        rewrite app_nil_r. simpl. repeat split; try lia.
        apply enhanced_all.
      * apply Nat.leb_gt in C. cbv zeta. unfold bind at 1.
        destruct (reverse_lookup_step env M (Place.lat place)
                    (Place.lng place) 2000 w)
          as (info & w1 & more1 & E1 & R1 & L1 & _).
        rewrite E1.
        destruct (IH (S lookups) w1)
          as (rest' & lookups' & stopped & w' & more & E & R & La & Lb & Lc
              & F).
        unfold bind. rewrite E. unfold ret.
        eexists. exists lookups', stopped, w', (more1 ++ more)%list.
        split; [reflexivity|].
        rewrite R, R1, <- app_assoc, length_app.
        repeat split; try lia.
        constructor; [|exact F]. split; [|congruence].
        destruct info as [info|]; [|apply sameButAddress_refl].
        destruct (Str.truthy (infoAddress info));
          [|apply sameButAddress_refl].
        unfold sameButAddress. eauto.
Qed.

Lemma enhanceCategories_spec (data : PlacesByCategory) :
  forall lookups w,
  exists result w' more,
    enhanceCategories env M data lookups w = (Returns result, w')
    /\ requests w' = (requests w ++ more)%list
    /\ (List.length more <= Nat.max lookups 15 - lookups)%nat
    /\ Forall2 (fun e e' => fst e' = fst e
                            /\ Forall2 enhanced (snd e) (snd e'))
               data result.
Proof.
  induction data as [|[categoryKey places] rest IH]; intros lookups w;
    cbn [enhanceCategories].
  - unfold ret. exists [], w, []. rewrite app_nil_r. simpl.
    repeat split; try lia. constructor.
  - destruct (enhancePlaces_spec places lookups w)
      as (places' & lookups' & stopped & w1 & more1 & E1 & R1 & La & Lb & Lc
          & F1).
    unfold bind at 1. rewrite E1. destruct stopped.
    + unfold ret. eexists. exists w1, more1. split; [reflexivity|].
      repeat split; [exact R1|lia|].
      constructor; [split; [reflexivity|exact F1]|].
      clear. induction rest as [|e rest IH]; constructor; auto.
      split; [reflexivity|apply enhanced_all].
    + destruct (IH lookups' w1) as (rest' & w' & more & E & R & L & F).
      unfold bind. rewrite E. unfold ret.
      eexists. exists w', (more1 ++ more)%list. split; [reflexivity|].
      rewrite R, R1, <- app_assoc, length_app.
      repeat split; [lia|].
      constructor; [split; [reflexivity|exact F1]|exact F].
Qed.

(** X23.  [enhanceRealPlacesWithAddresses] never throws and makes at
    most fifteen requests.  It returns the same categories with the same
    places in the same order; each place keeps its identifier, name,
    category, type, coordinates and distance, and a place that already had
    a decent address is returned unchanged. *)
Theorem enhance_keeps_places
        (realPlaces : PlacesByCategory) (centerLat centerLng : float)
        (w : World) :
  exists result w' more,
    enhanceRealPlacesWithAddresses env M realPlaces centerLat centerLng w
    = (Returns result, w')
    /\ requests w' = (requests w ++ more)%list
    /\ (List.length more <= 15)%nat
    /\ Forall2
         (fun e e' =>
            fst e' = fst e
            /\ Forall2 (fun p q =>
                          Place.id q = Place.id p
                          /\ Place.name q = Place.name p
                          /\ Place.category q = Place.category p
                          /\ Place.type q = Place.type p
                          /\ Place.lat q = Place.lat p
                          /\ Place.lng q = Place.lng p
                          /\ Place.distance q = Place.distance p
                          /\ (hasDecentAddress p = true -> q = p))
                       (snd e) (snd e'))
         realPlaces result.
Proof.
  unfold enhanceRealPlacesWithAddresses.
  destruct (enhanceCategories_spec realPlaces 0 w)
    as (result & w' & more & E & R & L & F).
  exists result, w', more. split; [exact E|]. split; [exact R|].
  split; [simpl in L; lia|].
  eapply Forall2_impl; [|exact F]. intros e e' [K Fe]. split; [exact K|].
  eapply Forall2_impl; [|exact Fe]. intros p q [S D].
  apply sameButAddress_fields in S. tauto.
Qed.

Lemma refinePlaces_spec (perCategory : nat) :
  forall places lookups w,
  exists places' lookups' returned w' more,
    refinePlaces env M perCategory places lookups w
    = (Returns (places', lookups', returned), w')
    /\ requests w' = (requests w ++ more)%list
    /\ (lookups <= lookups')%nat
    /\ (List.length more <= lookups' - lookups)%nat
    /\ (lookups' <= Nat.max lookups 12)%nat
    /\ Forall2 sameButAddress places places'.
Proof.
  induction perCategory as [|n IH]; intros places lookups w;
    cbn [refinePlaces].
  - unfold ret. exists places, lookups, false, w, [].
    rewrite app_nil_r. simpl. repeat split; try lia.
    apply sameButAddress_all.
  - destruct places as [|place rest].
    + unfold ret. exists [], lookups, false, w, [].
      rewrite app_nil_r. simpl. repeat split; try lia. constructor.
    + destruct (12 <=? lookups)%nat eqn:C.
      * unfold ret. exists (place :: rest), lookups, true, w, [].
        rewrite app_nil_r. simpl. repeat split; try lia.
        apply sameButAddress_all.
      * apply Nat.leb_gt in C. cbv zeta. unfold bind at 1.
        destruct (reverse_lookup_step env M (Place.lat place)
                    (Place.lng place) 2000 w)
          as (info & w1 & more1 & E1 & R1 & L1 & _).
        rewrite E1.
        destruct (IH rest (S lookups) w1)
          as (rest' & lookups' & returned & w' & more & E & R & La & Lb & Lc
              & F).
        unfold bind. rewrite E. unfold ret.
        eexists. exists lookups', returned, w', (more1 ++ more)%list.
        split; [reflexivity|].
        rewrite R, R1, <- app_assoc, length_app.
        repeat split; try lia.
        constructor; [|exact F].
        destruct info as [info|]; [|apply sameButAddress_refl].
        destruct (Str.truthy (infoAddress info));
          [|apply sameButAddress_refl].
        unfold sameButAddress. eauto.
Qed.

Lemma refineCategories_spec (data : PlacesByCategory) :
  forall lookups w,
  exists result w' more,
    refineCategories env M data lookups w = (Returns result, w')
    /\ requests w' = (requests w ++ more)%list
    /\ (List.length more <= Nat.max lookups 12 - lookups)%nat
    /\ Forall2 (fun e e' => fst e' = fst e
                            /\ Forall2 sameButAddress (snd e) (snd e'))
               data result.
Proof.
  induction data as [|[categoryKey places] rest IH]; intros lookups w;
    cbn [refineCategories].
  - unfold ret. exists [], w, []. rewrite app_nil_r. simpl.
    repeat split; try lia. constructor.
  - destruct (refinePlaces_spec 2 places lookups w)
      as (places' & lookups' & returned & w1 & more1 & E1 & R1 & La & Lb & Lc
          & F1).
    unfold bind at 1. rewrite E1. destruct returned.
    + unfold ret. eexists. exists w1, more1. split; [reflexivity|].
      repeat split; [exact R1|lia|].
      constructor; [split; [reflexivity|exact F1]|].
      clear. induction rest as [|e rest IH]; constructor; auto.
      split; [reflexivity|apply sameButAddress_all].
    + destruct (IH lookups' w1) as (rest' & w' & more & E & R & L & F).
      unfold bind. rewrite E. unfold ret.
      eexists. exists w', (more1 ++ more)%list. split; [reflexivity|].
      rewrite R, R1, <- app_assoc, length_app.
      repeat split; [lia|].
      constructor; [split; [reflexivity|exact F1]|exact F].
Qed.

End WithEnv.

End LookupFacts.

(* ================================================================== *)
(** * Further properties of the places search *)
(* ================================================================== *)

Module SearchMore.

Import JsNum JsArray JsArrayFacts ObjFacts Eff EffFacts Reading ReadingFacts
       Categories Nominatim Aggregator Verified Search MergeFacts MergeMore
       LookupFacts OverpassFacts.
Open Scope string_scope.

Lemma ensures_bind_with {A B : Type} (Q : A -> Prop) (P : B -> Prop)
      (c : Eff A) (k : A -> Eff B) :
  ensures Q c -> (forall a, Q a -> ensures P (k a)) -> ensures P (bind c k).
Proof.
  intros Hc Hk w b w' E. unfold bind in E.
  destruct (c w) as [[a|e] w1] eqn:C; [|discriminate E].
  eapply Hk; [eapply Hc, C|exact E].
Qed.

Lemma forEach_ensures {A B : Type} (R : A -> B -> Prop) (f : A -> Eff B)
      (l : list A) :
  (forall x, ensures (R x) (f x)) -> ensures (Forall2 R l) (forEach f l).
Proof.
  intros Hf. induction l as [|x l IH]; simpl.
  - apply ensures_ret. constructor.
  - eapply ensures_bind_with; [apply Hf|]. intros y Hy.
    eapply ensures_bind_with; [exact IH|]. intros ys Hys.
    apply ensures_ret. now constructor.
Qed.

Lemma forEach_within {A B : Type} (f : A -> Eff B) (l : list A) :
  (forall x, within 0 (f x)) -> within 0 (forEach f l).
Proof.
  intros Hf. induction l as [|x l IH]; simpl; budget.
Qed.

(** A category of the verified generator: eight places, filed under the
    category, of type 'verified_mock'. *)
Abbreviation eightVerified :=
  (fun entry : string * list Place.t =>
     List.length (snd entry) = 8%nat
     /\ forall p, In p (snd entry) ->
                  Place.category p = fst entry
                  /\ Place.type p = Place.verified_mock).

Section WithEnv.

Context (env : Env) (M : MathLib) (encodeURIComponent : string -> string).

Lemma realisticPlace_ensures (categoryKey : string) (category : Category)
      (centerLat centerLng radius : float) (areaInfo : AreaInfo)
      (businessNames : list string) (i : nat) :
  ensures (fun p => Place.category p = categoryKey
                    /\ Place.type p = Place.verified_mock)
          (realisticPlace env M categoryKey category centerLat centerLng
                          radius areaInfo businessNames i).
Proof.
  unfold realisticPlace. cbv zeta.
  repeat (apply ensures_bind; intros ?).
  apply ensures_ret. split; reflexivity.
Qed.

Lemma within_realisticPlace (categoryKey : string) (category : Category)
      (centerLat centerLng radius : float) (areaInfo : AreaInfo)
      (businessNames : list string) (i : nat) :
  within 0 (realisticPlace env M categoryKey category centerLat centerLng
                           radius areaInfo businessNames i).
Proof.
  unfold realisticPlace, generateAreaBasedAddress, generateRealisticPhone,
    generateRealisticOpeningHours.
  cbv zeta. budget.
Qed.

Lemma generateRealisticPlacesForCategory_ensures
      (categoryKey : string) (category : Category)
      (centerLat centerLng radius : float) (areaInfo : AreaInfo) :
  ensures (fun places => eightVerified (categoryKey, places))
          (generateRealisticPlacesForCategory env M categoryKey category
             centerLat centerLng radius areaInfo).
Proof.
  unfold generateRealisticPlacesForCategory. cbv zeta.
  eapply ensures_bind_with.
  - apply (forEach_ensures
             (fun (_ : nat) p => Place.category p = categoryKey
                                 /\ Place.type p = Place.verified_mock)).
    intros i. apply realisticPlace_ensures.
  - intros places F. apply ensures_ret. cbn [fst snd]. split.
    + rewrite sort_length. apply Forall2_length in F.
      rewrite <- F. reflexivity.
    + intros p Hp. apply sort_In in Hp.
      clear - F Hp. induction F as [|i q l l' Hq F IH]; [contradiction|].
      destruct Hp as [<-|Hp]; auto.
Qed.

Lemma within_generateRealisticPlacesForCategory
      (categoryKey : string) (category : Category)
      (centerLat centerLng radius : float) (areaInfo : AreaInfo) :
  within 0 (generateRealisticPlacesForCategory env M categoryKey category
              centerLat centerLng radius areaInfo).
Proof.
  unfold generateRealisticPlacesForCategory. cbv zeta.
  apply (within_bind 0 0); [|intros places; apply within_ret].
  apply forEach_within. intros i. apply within_realisticPlace.
Qed.

Lemma eightVerified_kept (data result : PlacesByCategory) :
  Forall2 (fun e e' => fst e' = fst e
                       /\ Forall2 sameButAddress (snd e) (snd e'))
          data result ->
  Forall eightVerified data -> Forall eightVerified result.
Proof.
  intros F. induction F as [|e e' data result [K Fe] F IH]; intros G;
    [constructor|].
  inversion G as [|? ? [L Q] G']; subst. constructor; [|now apply IH].
  split.
  - apply Forall2_length in Fe. lia.
  - intros q Hq. rewrite K.
    clear - Fe Hq Q. induction Fe as [|p q' l l' S Fe IH]; [contradiction|].
    destruct Hq as [<-|Hq].
    + apply sameButAddress_fields in S.
      destruct (Q p (or_introl eq_refl)) as [C T].
      split; [now rewrite <- C|now rewrite <- T]; tauto.
    + apply IH; [|exact Hq]. intros p' Hp'. apply Q. now right.
Qed.

Lemma generateVerifiedMockPlaces_ensures (lat lng radius : float) :
  ensures (fun result => keys result = keys PLACE_CATEGORIES
                         /\ Forall eightVerified result)
          (generateVerifiedMockPlaces env M lat lng radius).
Proof.
  unfold generateVerifiedMockPlaces.
  apply ensures_bind. intros areaInfo.
  eapply ensures_bind_with.
  - apply (forEach_ensures
             (fun (entry : string * Category) (e' : string * list Place.t) =>
                fst e' = fst entry /\ eightVerified e')).
    intros entry.
    eapply ensures_bind_with;
      [apply generateRealisticPlacesForCategory_ensures|].
    intros places G. apply ensures_ret. split; [reflexivity|exact G].
  - intros verified F w result w' E.
    unfold refineVerifiedMockAddresses in E.
    destruct (refineCategories_spec env M verified 0 w)
      as (result' & w'' & more & E' & _ & _ & F').
    rewrite E in E'. inversion E'; subst result' w''. split.
    + transitivity (keys verified).
      * clear - F'. unfold keys.
        induction F' as [|e e' l l' [K _] F' IH]; simpl; congruence.
      * clear - F. unfold keys.
        induction F as [|e e' l l' [K _] F IH]; simpl; congruence.
    + apply (eightVerified_kept verified result F').
      clear - F. induction F as [|e e' l l' [_ G] F IH]; constructor; auto.
Qed.

Lemma within_generateVerifiedMockPlaces (lat lng radius : float) :
  within 13 (generateVerifiedMockPlaces env M lat lng radius).
Proof.
  unfold generateVerifiedMockPlaces.
  apply (within_bind 1 12).
  - apply (within_tryCatch 1 0); [|intros e; apply within_ret].
    apply within_raceWithTimer.
    unfold reverseGeocode.
    apply (within_tryCatch 1 0); [|intros e; apply within_throw].
    budget.
  - intros areaInfo. apply (within_bind 0 12).
    + apply forEach_within. intros entry.
      apply (within_bind 0 0); [|intros places; apply within_ret].
      apply within_generateRealisticPlacesForCategory.
    + intros verified w. unfold refineVerifiedMockAddresses.
      destruct (refineCategories_spec env M verified 0 w)
        as (result & w' & more & E & R & L & _).
      exists more. rewrite E. simpl. split; [exact R|simpl in L; lia].
Qed.

Lemma eightVerified_placesOf (result : PlacesByCategory) (k : string) :
  keys result = keys PLACE_CATEGORIES -> Forall eightVerified result ->
  In k (keys PLACE_CATEGORIES) ->
  List.length (placesOf result k) = 8%nat
  /\ forall p, In p (placesOf result k) ->
               Place.category p = k /\ Place.type p = Place.verified_mock.
Proof.
  intros K G Hk. rewrite <- K in Hk.
  destruct (placesOf_entry result k Hk) as (places & Hin & ->).
  rewrite Forall_forall in G. exact (G _ Hin).
Qed.

(** X24.  The verified generator always returns, for each category of
    [PLACE_CATEGORIES], exactly eight places, each filed under that
    category and of type 'verified_mock'; the address lookups that follow
    the generation change neither the number nor the category of the
    places.  It makes at most thirteen requests: one for the area and at
    most twelve address lookups. *)
Theorem verified_places_eight_per_category
        (lat lng radius : float) (w : World) :
  exists verifiedPlaces w' more,
    generateVerifiedMockPlaces env M lat lng radius w
    = (Returns verifiedPlaces, w')
    /\ requests w' = (requests w ++ more)%list
    /\ (List.length more <= 13)%nat
    /\ keys verifiedPlaces = keys PLACE_CATEGORIES
    /\ forall categoryKey,
         In categoryKey (keys PLACE_CATEGORIES) ->
         List.length (placesOf verifiedPlaces categoryKey) = 8%nat
         /\ forall p, In p (placesOf verifiedPlaces categoryKey) ->
                      Place.category p = categoryKey
                      /\ Place.type p = Place.verified_mock.
Proof.
  destruct (SearchFacts.total_generateVerifiedMockPlaces env M lat lng
              radius w) as (result & w' & E).
  destruct (within_generateVerifiedMockPlaces lat lng radius w)
    as (more & R & L).
  rewrite E in R. simpl in R.
  destruct (generateVerifiedMockPlaces_ensures lat lng radius w result w' E)
    as [K G].
  exists result, w', more.
  split; [exact E|]. split; [exact R|]. split; [exact L|].
  split; [exact K|].
  intros k Hk. now apply eightVerified_placesOf.
Qed.

(** How [fetchNearbyPlaces] is put together. *)
Lemma fetchNearbyPlaces_cases (lat lng radius : float) (w : World) :
  exists verifiedMock w1 live w2 result w' more,
    generateVerifiedMockPlaces env M lat lng radius w
    = (Returns verifiedMock, w1)
    /\ fetchRealPlacesFromOverpass env M encodeURIComponent lat lng radius w1
       = (Returns live, w2)
    /\ fetchNearbyPlaces env M encodeURIComponent lat lng radius w
       = (Returns result, w')
    /\ requests w' = (requests w2 ++ more)%list
    /\ (List.length more <= 15)%nat
    /\ (result = verifiedMock
        \/ exists live',
             result = Merge.mergeRealAndMockData live' verifiedMock).
Proof.
  destruct (SearchFacts.total_generateVerifiedMockPlaces env M lat lng
              radius w) as (mock & w1 & Hmock).
  destruct (SearchFacts.total_fetchRealPlacesFromOverpass env M
              encodeURIComponent lat lng radius w1) as (live & w2 & Hlive).
  exists mock, w1, live, w2.
  unfold fetchNearbyPlaces. rewrite Hmock.
  unfold tryCatch at 1. unfold bind at 1. unfold tryCatch at 1.
  unfold bind at 1. unfold raceWithTimer. rewrite Hlive.
  destruct (timerWins env (races w2)).
  - unfold bind, awaitSettled, ret. simpl.
    eexists. eexists. exists [].
    repeat split; [now rewrite app_nil_r|simpl; lia|now left].
  - unfold ret at 1. cbv beta iota.
    destruct (0 <? totalPlaces live)%nat.
    + unfold bind at 1.
      destruct (enhanceCategories_spec env M live 0
                  {| requests := requests w2; randomCalls := randomCalls w2;
                     races := S (races w2);
                     reverseCache := reverseCache w2 |})
        as (live' & w3 & more & He & R & L & _).
      unfold enhanceRealPlacesWithAddresses. rewrite He.
      unfold bind, awaitSettled, ret.
      eexists. eexists. exists more.
      repeat split; [exact R|simpl in L; lia|]. right. eauto.
    + unfold bind, awaitSettled, ret.
      eexists. eexists. exists [].
      repeat split; [simpl; now rewrite app_nil_r|simpl; lia|now left].
Qed.

(** What [fetchNearbyPlaces] returns has between one and ten places in
    each category. *)
Lemma fetchNearbyPlaces_fills (lat lng radius : float) (w : World)
      (result : PlacesByCategory) (w' : World) (categoryKey : string) :
  fetchNearbyPlaces env M encodeURIComponent lat lng radius w
  = (Returns result, w') ->
  In categoryKey (keys PLACE_CATEGORIES) ->
  (1 <= List.length (placesOf result categoryKey) <= 10)%nat.
Proof.
  intros E Hk.
  destruct (fetchNearbyPlaces_cases lat lng radius w)
    as (mock & w1 & live & w2 & result' & w'' & more
        & Hm & _ & E' & _ & _ & C).
  rewrite E in E'. inversion E'; subst result' w''.
  destruct (generateVerifiedMockPlaces_ensures lat lng radius w mock w1 Hm)
    as [K G].
  destruct (eightVerified_placesOf mock categoryKey K G Hk) as [L8 _].
  destruct C as [->|(live' & ->)]; [lia|].
  rewrite placesOf_merge by exact Hk.
  rewrite mergeCategory_length.
  destruct (placesOf live' categoryKey) as [|p l] eqn:El.
  - rewrite syntheticAvailable_nil, L8. simpl. lia.
  - simpl List.length. lia.
Qed.

(** X25.  A search never leaves a category empty: [fetchNearbyPlaces]
    always returns between one and ten places in each category of
    [PLACE_CATEGORIES], whatever the providers answer. *)
Theorem search_fills_every_category (lat lng radius : float) (w : World) :
  exists result w',
    fetchNearbyPlaces env M encodeURIComponent lat lng radius w
    = (Returns result, w')
    /\ forall categoryKey,
         In categoryKey (keys PLACE_CATEGORIES) ->
         (1 <= List.length (placesOf result categoryKey) <= 10)%nat.
Proof.
  destruct (fetchNearbyPlaces_cases lat lng radius w)
    as (mock & w1 & live & w2 & result & w' & more & _ & _ & E & _).
  exists result, w'. split; [exact E|]. intros k Hk.
  exact (fetchNearbyPlaces_fills lat lng radius w result w' k E Hk).
Qed.

(** X26.  A search makes at most 31 network requests: at most thirteen
    for the verified places, at most three to the Overpass mirrors and at
    most fifteen address lookups for the live places. *)
Theorem search_request_budget (lat lng radius : float) (w : World) :
  exists result w' more,
    fetchNearbyPlaces env M encodeURIComponent lat lng radius w
    = (Returns result, w')
    /\ requests w' = (requests w ++ more)%list
    /\ (List.length more <= 31)%nat.
Proof.
  destruct (fetchNearbyPlaces_cases lat lng radius w)
    as (mock & w1 & live & w2 & result & w' & more & Hm & Hl & E & R & L & _).
  destruct (within_generateVerifiedMockPlaces lat lng radius w)
    as (more1 & R1 & L1).
  rewrite Hm in R1. simpl in R1.
  destruct (tryServers_requests env M encodeURIComponent lat lng radius
              OVERPASS_SERVERS emptyCategories w1) as (n & _ & Ln & R2).
  assert (R2' : requests w2
                = (requests w1
                   ++ map (overpassRequest M encodeURIComponent lat lng radius)
                          (firstn n OVERPASS_SERVERS))%list).
  { unfold fetchRealPlacesFromOverpass in Hl.
    destruct (tryServers _ _ _ _ _ _ _ _ _) as [[[b|e] s1] w1'];
      inversion Hl; subst; exact R2. }
  exists result, w'. eexists. split; [exact E|].
  rewrite R, R2', R1, <- !app_assoc. split; [reflexivity|].
  rewrite !length_app, length_map, length_firstn.
  simpl in Ln. lia.
Qed.

End WithEnv.

End SearchMore.

(* ================================================================== *)
(** * The search handlers of the finder page *)
(* ================================================================== *)

Module HandlerFacts.

Import JsNum JsArray Eff EffFacts Reading ReadingFacts Categories Search
       SearchMore Finder.
Open Scope string_scope.

Section WithEnv.

Context (env : Env) (M : MathLib) (encodeURIComponent : string -> string).

(** The state [searchNearbyPlaces] leaves when the service returned
    [nearbyPlaces]. *)
Abbreviation searched :=
  (fun (wasLoading : bool) (nearbyPlaces : PlacesByCategory) (s : State) =>
     {| location := location s; radius := radius s; found := nearbyPlaces;
        loading := if wasLoading then loading s else true;
        error := error s; animationKey := S (animationKey s) |}).

Lemma searchNearbyPlaces_spec (wasLoading : bool)
      (lat lng searchRadius : float) (s : State) (w : World) :
  exists nearbyPlaces w',
    fetchNearbyPlaces env M encodeURIComponent lat lng searchRadius w
    = (Returns nearbyPlaces, w')
    /\ searchNearbyPlaces env M encodeURIComponent wasLoading lat lng
                          searchRadius s w
       = ((Returns tt, searched wasLoading nearbyPlaces s), w').
Proof.
  destruct (fetchNearbyPlaces_cases env M encodeURIComponent lat lng
              searchRadius w)
    as (mock & w1 & live & w2 & result & w' & more & _ & _ & E & _).
  exists result, w'. split; [exact E|].
  unfold searchNearbyPlaces, tryCatchS, bindS, liftS, modifyS, retS.
  destruct wasLoading; cbn [negb]; rewrite E; reflexivity.
Qed.

(** X27.  [searchNearbyPlaces] never throws and never shows the empty
    fallback of its [catch] branch: it leaves between one and ten places
    in every category on the page.  It advances the animation key by one
    and leaves the location, the radius and the error message alone. *)
Theorem search_shows_every_category
        (wasLoading : bool) (lat lng searchRadius : float)
        (s : State) (w : World) :
  exists s' w',
    searchNearbyPlaces env M encodeURIComponent wasLoading lat lng
                       searchRadius s w
    = ((Returns tt, s'), w')
    /\ (forall categoryKey,
           In categoryKey (keys PLACE_CATEGORIES) ->
           (1 <= List.length (placesOf (found s') categoryKey) <= 10)%nat)
    /\ animationKey s' = S (animationKey s)
    /\ location s' = location s
    /\ radius s' = radius s
    /\ error s' = error s.
Proof.
  destruct (searchNearbyPlaces_spec wasLoading lat lng searchRadius s w)
    as (result & w' & E & ->).
  eexists. eexists. split; [reflexivity|].
  split; [|repeat split].
  intros k Hk. cbn [found].
  exact (fetchNearbyPlaces_fills env M encodeURIComponent lat lng
           searchRadius w result w' k E Hk).
Qed.

(** X28.  An address search for typed text that is blank does nothing;
    for other typed text it never throws and ends with [loading] switched
    off; and when the geocoder fails it shows the geocoder's message,
    shows no places, keeps the location the page had and has made the one
    geocoding request and no other. *)
Theorem typed_address_search
        (rendered : State) (text : string) (s : State) (w : World) :
  (Str.trim text = "" ->
   handleAddressSearch env M encodeURIComponent rendered (Typed (Some text))
                       s w
   = ((Returns tt, s), w))
  /\ (Str.trim text <> "" ->
      exists s' w',
        handleAddressSearch env M encodeURIComponent rendered
                            (Typed (Some text)) s w
        = ((Returns tt, s'), w')
        /\ loading s' = false
        /\ forall e w1,
             Nominatim.geocodeAddress env M encodeURIComponent text w
             = (Throws e, w1) ->
             error s' = Some (message e)
             /\ found s' = []
             /\ location s' = location s
             /\ requests w'
                = (requests w
                   ++ [Nominatim.geocodeRequest encodeURIComponent
                                                text])%list).
Proof.
  split.
  - intros B. unfold handleAddressSearch. cbn [addressText negb andb].
    rewrite B. reflexivity.
  - intros NB. unfold handleAddressSearch. cbn [addressText negb andb].
    assert (T : Str.truthy (Str.trim text) = true).
    { unfold Str.truthy. apply negb_true_iff. now apply String.eqb_neq. }
    rewrite T. cbn [negb].
    unfold bindS at 1 2 3, modifyS at 1 2 3, tryCatchFinallyS.
    unfold bindS at 1. unfold bindS at 1. unfold liftS.
    destruct (Nominatim.geocodeAddress env M encodeURIComponent text w)
      as [[g|e] w1] eqn:G.
    + unfold modifyS at 1. unfold bindS at 1. unfold retS. cbn [fst snd].
      match goal with
      | |- context [searchNearbyPlaces _ _ _ ?b ?x ?y ?r ?st ?wd] =>
          destruct (searchNearbyPlaces_spec b x y r st wd)
            as (result & w' & _ & ->)
      end.
      eexists. eexists. split; [reflexivity|]. split; [reflexivity|].
      intros e w2 Habs. discriminate Habs.
    + unfold modifyS. eexists. eexists. split; [reflexivity|].
      split; [reflexivity|].
      intros e' w2 Heq. inversion Heq; subst e' w2.
      repeat split.
      pose proof (NominatimFacts.geocodeAddress_requests env M
                    encodeURIComponent text w) as R.
      rewrite G in R. exact R.
Qed.

(** X29.  A click on a suggestion that carries coordinates is searched
    without geocoding: the location becomes the clicked point with method
    'manual_selection', the places shown are what [fetchNearbyPlaces]
    returns for that point and the radius of the page, the error message
    is cleared, [loading] ends switched off, and the only requests made
    are those of the places search. *)
Theorem clicked_suggestion_skips_geocoding
        (rendered : State) (targetLat targetLng : float)
        (displayName shortName : option string) (s : State) (w : World) :
  let input :=
    Clicked {| pickedLat := Some targetLat; pickedLng := Some targetLng;
               pickedDisplayName := displayName;
               pickedShortName := shortName |} in
  exists nearbyPlaces s' w',
    fetchNearbyPlaces env M encodeURIComponent targetLat targetLng
                      (radius rendered) w
    = (Returns nearbyPlaces, w')
    /\ handleAddressSearch env M encodeURIComponent rendered input s w
       = ((Returns tt, s'), w')
    /\ location s'
       = Some {| lat := targetLat; lng := targetLng; address := None;
                 display_name := addressText input;
                 method := "manual_selection" |}
    /\ found s' = nearbyPlaces
    /\ error s' = None
    /\ loading s' = false.
Proof.
  intros input. unfold handleAddressSearch. subst input.
  cbv beta iota zeta. cbn [negb andb].
  unfold bindS at 1 2 3, modifyS at 1 2 3, tryCatchFinallyS.
  unfold bindS at 1. unfold bindS at 1. unfold modifyS at 1. unfold retS.
  cbn [fst snd].
  match goal with
  | |- context [searchNearbyPlaces _ _ _ ?b ?x ?y ?r ?st ?wd] =>
      destruct (searchNearbyPlaces_spec b x y r st wd)
        as (result & w' & E & ->)
  end.
  exists result. eexists. exists w'. split; [exact E|].
  split; [reflexivity|]. repeat split.
Qed.

(** X30.  A change of radius never throws and never shows 'Failed to
    update search radius': the error message stays what it was.  The new
    radius is stored; with no location on the page nothing else happens
    and no request is made, and with a location the places shown are what
    [fetchNearbyPlaces] returns for that location and the new radius, and
    [loading] ends switched off. *)
Theorem radius_change_never_fails
        (rendered : State) (newRadius : float) (s : State) (w : World) :
  exists s' w',
    handleRadiusChange env M encodeURIComponent rendered newRadius s w
    = ((Returns tt, s'), w')
    /\ radius s' = newRadius
    /\ error s' = error s
    /\ match location rendered with
       | None => s' = setRadius newRadius s /\ w' = w
       | Some place =>
           loading s' = false
           /\ fetchNearbyPlaces env M encodeURIComponent (lat place)
                                (lng place) newRadius w
              = (Returns (found s'), w')
       end.
Proof.
  unfold handleRadiusChange. unfold bindS at 1, modifyS at 1.
  destruct (location rendered) as [place|].
  - unfold bindS at 1, modifyS at 1, tryCatchFinallyS.
    match goal with
    | |- context [searchNearbyPlaces _ _ _ ?b ?x ?y ?r ?st ?wd] =>
        destruct (searchNearbyPlaces_spec b x y r st wd)
          as (result & w' & E & ->)
    end.
    eexists. eexists. split; [reflexivity|]. repeat split. exact E.
  - unfold retS. eexists. eexists. split; [reflexivity|]. repeat split.
Qed.

End WithEnv.

(** X28 for the texts of two blanks and 'Nowhere' with the geocoder
    down. *)
Lemma typed_address_search_witness :
  handleAddressSearch offline smallAngleMath (fun s => s) initialState
                      (Typed (Some "  ")) initialState emptyWorld
  = ((Returns tt, initialState), emptyWorld)
  /\ exists s' w',
       handleAddressSearch offline smallAngleMath (fun s => s) initialState
                           (Typed (Some "Nowhere")) initialState emptyWorld
       = ((Returns tt, s'), w')
       /\ loading s' = false
       /\ error s' = Some "Failed to fetch"
       /\ found s' = []
       /\ List.length (requests w') = 1%nat.
Proof.
  split.
  - apply (typed_address_search offline smallAngleMath (fun s => s)
             initialState "  " initialState emptyWorld).
    reflexivity.
  - destruct (typed_address_search offline smallAngleMath (fun s => s)
                initialState "Nowhere" initialState emptyWorld)
      as [_ H].
    destruct H as (s' & w' & E & L & F); [vm_compute; discriminate|].
    exists s', w'. split; [exact E|]. split; [exact L|].
    destruct (F (TypeError "Failed to fetch")
                (logged (Nominatim.geocodeRequest (fun s => s) "Nowhere")
                        emptyWorld) eq_refl) as (Er & Fo & _ & R).
    split; [exact Er|]. split; [exact Fo|]. now rewrite R.
Defined.

End HandlerFacts.
